(** * GoBuddy plan lifecycle: a shallow embedding of the TypeScript services

  The development follows the services of the repository:
  - [Js]        the JavaScript primitives the services lean on
                ([Number], [parseInt], [padStart], [Date]);
  - [Db]        the [query] primitive of [config/database.ts] as a state and
                error monad over the tables, with a session transaction and
                an optional forced failure;
  - [Booking]   [BookingService] and [BookingOrchestratorService];
  - [Plan]      the itinerary tables, [ItineraryGeneratorService],
                [ItineraryVersionService], [ItineraryEditorService],
                [EventMonitorService] and [ReplanApplyService].

  Conventions.  Ids, times of day ([HH:mm]) and enumerations kept as text
  in the database are [string]s; integers are [Z]; money and coordinates
  are [Q].  A JavaScript [Date] is its epoch value in milliseconds, the
  process time zone being UTC; [None] stands for [NaN] and Invalid Date. *)

From Stdlib Require Import ZArith QArith String Ascii List Bool Lia DecimalString Sorted.
From Stdlib Require Import Permutation.
From stdpp Require Import gmap strings list.

Local Open Scope string_scope.
Local Open Scope Z_scope.

(* ===================================================================== *)
(** * JavaScript primitives *)
(* ===================================================================== *)
Module Js.

(** [s.split(':')] *)
Fixpoint split_colon_go (cur : string) (s : string) : list string :=
  match s with
  | EmptyString => [cur]
  | String c rest =>
      if Ascii.eqb c ":"%char
      then cur :: split_colon_go EmptyString rest
      else split_colon_go (cur ++ String c EmptyString) rest
  end.

Definition split_colon (s : string) : list string := split_colon_go EmptyString s.

(** [Number(x)] for [x] a piece of a split string: a run of decimal digits
    (the empty string is 0); every other text, and [undefined], is [NaN]
    ([None]).  Signs, blanks, fractions and exponents are outside the
    model: no [HH:mm] text has them. *)
Definition Number (x : option string) : option Z :=
  match x with
  | None => None
  | Some s => option_map (fun u => Z.of_N (N.of_uint u)) (NilEmpty.uint_of_string s)
  end.

Definition is_digit (c : ascii) : bool :=
  let n := nat_of_ascii c in (48 <=? n)%nat && (n <=? 57)%nat.

Fixpoint digit_prefix (s : string) : string :=
  match s with
  | EmptyString => EmptyString
  | String c rest => if is_digit c then String c (digit_prefix rest) else EmptyString
  end.

(** [parseInt(x, 10)]: the longest digit prefix, [NaN] when it is empty. *)
Definition parseInt (x : option string) : option Z :=
  match x with
  | None => None
  | Some s =>
      match digit_prefix s with
      | EmptyString => None
      | p => Number (Some p)
      end
  end.

(** [n.toString()] *)
Definition toString (n : option Z) : string :=
  match n with
  | None => "NaN"
  | Some z => NilZero.string_of_int (Z.to_int z)
  end.

(** [s.padStart(2, '0')] *)
Definition padStart2 (s : string) : string :=
  match String.length s with
  | O => "00"
  | S O => "0" ++ s
  | _ => s
  end.

(** [a % b] keeps the sign of the dividend. *)
Definition jsmod (a b : Z) : Z := Z.rem a b.

(** [Math.floor(a / b)] for a positive [b]. *)
Definition floor_div (a b : Z) : Z := a / b.

(** [Math.ceil(a / b)] for a positive [b]. *)
Definition ceil_div (a b : Z) : Z := - ((- a) / b).

(** Numbers that the services add and halve are rationals, kept in lowest
    terms so that equal numbers are equal terms. *)
Definition add (a b : Q) : Q := Qred (a + b).
Definition half (a : Q) : Q := Qred (a / 2).

(** ** Dates (UTC) *)
Definition Date := option Z.

Definition ms_per_minute : Z := 60 * 1000.
Definition ms_per_day : Z := 1000 * 60 * 60 * 24.

(** [d.setHours(h, m, 0, 0)]: the day of [d] at [h:m:00.000]; hours and
    minutes out of range roll over, as they do in JavaScript. *)
Definition setHours (d : Date) (h m : option Z) : Date :=
  match d, h, m with
  | Some t, Some h, Some m =>
      Some ((t / ms_per_day) * ms_per_day + h * 60 * ms_per_minute + m * ms_per_minute)
  | _, _, _ => None
  end.

(** [new Date(d.getTime() + ms)] *)
Definition plus_ms (d : Date) (ms : Z) : Date := option_map (fun t => t + ms) d.

(** [a > b], [a >= b] on dates; false when either is invalid. *)
Definition gt (a b : Date) : bool :=
  match a, b with Some x, Some y => y <? x | _, _ => false end.
Definition ge (a b : Date) : bool :=
  match a, b with Some x, Some y => y <=? x | _, _ => false end.

Definition getHours (d : Date) : option Z :=
  option_map (fun t => (t mod ms_per_day) / (60 * ms_per_minute)) d.
Definition getMinutes (d : Date) : option Z :=
  option_map (fun t => ((t mod ms_per_day) / ms_per_minute) mod 60) d.

(** [d.getDay()]: 0 is Sunday; 1970-01-01 was a Thursday. *)
Definition getDay (d : Date) : option Z :=
  option_map (fun t => (t / ms_per_day + 4) mod 7) d.

(** Days from the civil date to 1970-01-01, the value of
    [new Date('YYYY-MM-DD')] divided by [ms_per_day]. *)
Definition days_from_civil (y m d : Z) : Z :=
  let y' := if m <=? 2 then y - 1 else y in
  let era := y' / 400 in
  let yoe := y' - era * 400 in
  let mp := (m + 9) mod 12 in
  let doy := (153 * mp + 2) / 5 + d - 1 in
  let doe := yoe * 365 + yoe / 4 - yoe / 100 + doy in
  era * 146097 + doe - 719468.

Definition date_of_ymd (y m d : Z) : Date := Some (days_from_civil y m d * ms_per_day).

End Js.

(* ===================================================================== *)
(** * Times of day: the helpers the services share *)
(* ===================================================================== *)
Module TimeOfDay.

(** [addMinutes(timeStr, minutes)], the same text in
    [ItineraryEditorService], [ReplanApplyService] and the routing and
    replan-engine services. *)
Definition addMinutes (timeStr : string) (minutes : Z) : string :=
  let parts := Js.split_colon timeStr in
  let hours := Js.Number (parts !! 0%nat) in
  let mins := Js.Number (parts !! 1%nat) in
  let totalMinutes :=
    match hours, mins with
    | Some h, Some m => Some (h * 60 + m + minutes)
    | _, _ => None
    end in
  let newHours := option_map (fun t => Js.jsmod (Js.floor_div t 60) 24) totalMinutes in
  let newMins := option_map (fun t => Js.jsmod t 60) totalMinutes in
  Js.padStart2 (Js.toString newHours) ++ ":" ++ Js.padStart2 (Js.toString newMins).

(** [formatTime(date)] of the generator. *)
Definition formatTime (d : Js.Date) : string :=
  Js.padStart2 (Js.toString (Js.getHours d)) ++ ":" ++
  Js.padStart2 (Js.toString (Js.getMinutes d)).

(** [parseTime(timeStr, baseDate)] of the generator; without a base date
    the base is the current instant. *)
Definition parseTime (timeStr : string) (base : Js.Date) : Js.Date :=
  let parts := Js.split_colon timeStr in
  Js.setHours base (Js.Number (parts !! 0%nat)) (Js.Number (parts !! 1%nat)).

End TimeOfDay.

(* ===================================================================== *)
(** * The database session: [query] as a state and error monad *)
(* ===================================================================== *)
Module Db.

(** Modelled from the spec: the error classes of [utils/errors], a file that
    is not among the sources.  The constructors are the classes the
    services name when they throw ([ValidationError], [NotFoundError],
    [ExternalServiceError]), kept apart as the error kinds of the
    specification are; [PlainError] is [new Error(msg)] and [StorageError]
    is what a failing [query] throws. *)
Inductive error : Type :=
| ValidationError (message : string)
| NotFoundError (resource id : string)
| ExternalServiceError (service message : string)
| PlainError (message : string)
| StorageError (message : string).

Inductive result (A : Type) : Type :=
| Ok (a : A)
| Err (e : error).
Arguments Ok {A} a.
Arguments Err {A} e.

Definition is_ok {A} (r : result A) : bool :=
  match r with Ok _ => true | Err _ => false end.

(** The session the process holds.  [db] is what a reader sees; [tx] is the
    state saved by [BEGIN] until [COMMIT] or [ROLLBACK]; [fail_in = Some n]
    lets [n] statements through and forces the next one to fail, once; [next_uuid] feeds
    [uuidv4()] and [clock] is [Date.now()].  The pool is read as one
    session, so that [BEGIN] and the statements after it meet.  Primary keys
    are enforced by the statements below; CHECK and NOT NULL column
    constraints of the migrations are not part of the model. *)
Record world (T : Type) : Type := World {
  db : T;
  tx : option T;
  fail_in : option nat;
  next_uuid : nat;
  clock : Z
}.
Arguments World {T} _ _ _ _ _.
Arguments db {T} _.
Arguments tx {T} _.
Arguments fail_in {T} _.
Arguments next_uuid {T} _.
Arguments clock {T} _.

Definition M (T A : Type) : Type := world T -> result A * world T.

Definition ret {T A} (a : A) : M T A := fun w => (Ok a, w).

Definition bind {T A B} (m : M T A) (k : A -> M T B) : M T B :=
  fun w => match m w with
           | (Ok a, w') => k a w'
           | (Err e, w') => (Err e, w')
           end.

(** [throw e] *)
Definition throw {T A} (e : error) : M T A := fun w => (Err e, w).

(** [try { m } catch (error) { h error }] *)
Definition try_catch {T A} (m : M T A) (h : error -> M T A) : M T A :=
  fun w => match m w with
           | (Ok a, w') => (Ok a, w')
           | (Err e, w') => h e w'
           end.

(** [m.catch(() => dflt)] *)
Definition catch_default {T A} (m : M T A) (dflt : A) : M T A :=
  try_catch m (fun _ => ret dflt).

Definition with_db {T} (w : world T) (d : T) : world T :=
  World d (tx w) (fail_in w) (next_uuid w) (clock w).

Definition with_fail {T} (w : world T) (f : option nat) : world T :=
  World (db w) (tx w) f (next_uuid w) (clock w).

Definition forced_failure : error := StorageError "forced failure".

(** The failure schedule is looked at by every statement, the transaction
    statements too. *)
Definition tick {T} : M T unit := fun w =>
  match fail_in w with
  | Some O => (Err forced_failure, with_fail w None)
  | Some (S n) => (Ok tt, with_fail w (Some n))
  | None => (Ok tt, w)
  end.

(** [query(text, params)] for a statement [stmt]: it fails when forced to,
    otherwise runs [stmt], which may itself be refused (a key clash) and
    then leaves the tables as they were. *)
Definition query {T A} (stmt : T -> result A * T) : M T A :=
  bind tick (fun _ w =>
    match stmt (db w) with
    | (Ok a, d') => (Ok a, with_db w d')
    | (Err e, _) => (Err e, w)
    end).

(** [query('BEGIN', [])] *)
Definition query_begin {T} : M T unit :=
  bind tick (fun _ w =>
    (Ok tt, match tx w with
            | Some _ => w
            | None => World (db w) (Some (db w)) (fail_in w) (next_uuid w) (clock w)
            end)).

(** [query('COMMIT', [])] *)
Definition query_commit {T} : M T unit :=
  bind tick (fun _ w => (Ok tt, World (db w) None (fail_in w) (next_uuid w) (clock w))).

(** [query('ROLLBACK', [])] *)
Definition query_rollback {T} : M T unit :=
  bind tick (fun _ w =>
    (Ok tt, match tx w with
            | Some saved => World saved None (fail_in w) (next_uuid w) (clock w)
            | None => w
            end)).

Definition uuid_of (n : nat) : string :=
  "uuid-" ++ NilZero.string_of_uint (Nat.to_uint n).

(** [uuidv4()] *)
Definition uuidv4 {T} : M T string := fun w =>
  (Ok (uuid_of (next_uuid w)),
   World (db w) (tx w) (fail_in w) (S (next_uuid w)) (clock w)).

(** [new Date()] *)
Definition now {T} : M T Js.Date := fun w => (Ok (Some (clock w)), w).

(** [for (const x of l) { await f(x) }] *)
Fixpoint for_each {T A} (l : list A) (f : A -> M T unit) : M T unit :=
  match l with
  | [] => ret tt
  | x :: rest => bind (f x) (fun _ => for_each rest f)
  end.

(** A session with tables [d], no open transaction and no forced failure. *)
Definition healthy {T} (d : T) : world T := World d None None 0%nat 0.

(** The same, but after [n] statements the next one is forced to fail. *)
Definition failing {T} (d : T) (n : nat) : world T := World d None (Some n) 0%nat 0.

End Db.

Declare Scope db_scope.
Delimit Scope db_scope with db.
Notation "x <- m ;; k" := (Db.bind m (fun x => k))
  (at level 100, m at next level, right associativity) : db_scope.
Notation "m ;;; k" := (Db.bind m (fun _ => k))
  (at level 100, right associativity) : db_scope.
Local Open Scope db_scope.

(* ===================================================================== *)
(** * Bookings: [BookingService] and [BookingOrchestratorService] *)
(* ===================================================================== *)
Module Booking.
Import Db.

Inductive BookingStatus : Type := pending | confirmed | failed | canceled | refunded.

Definition BookingStatus_eqb (a b : BookingStatus) : bool :=
  match a, b with
  | pending, pending | confirmed, confirmed | failed, failed
  | canceled, canceled | refunded, refunded => true
  | _, _ => false
  end.

Definition status_text (s : BookingStatus) : string :=
  match s with
  | pending => "pending" | confirmed => "confirmed" | failed => "failed"
  | canceled => "canceled" | refunded => "refunded"
  end.

Record Price : Type := { amount : Q; currency : string }.

Record Policies : Type := {
  cancellation : string;
  refund : string;
  cancellation_deadline : option string
}.

Record TravelerDetails : Type := { adults : Z; children : option Z; seniors : option Z }.

Record ContactInfo : Type := { email : string; phone : option string; contact_name : string }.

(** A row of [bookings]; [provider_type], [metadata] and the two timestamps
    are never written by the services below and are left out. *)
Record Booking : Type := {
  id : string;
  trip_id : string;
  itinerary_item_id : option string;
  provider_id : string;
  external_booking_id : string;
  status : BookingStatus;
  price : Price;
  policies : Policies;
  voucher_url : option string;
  voucher_data : option string;
  confirmation_number : string;
  traveler_details : TravelerDetails;
  booking_date : string;
  booking_time : option string;
  contact_info : ContactInfo
}.

Record BookingStateHistory : Type := {
  booking_id : string;
  from_status : option BookingStatus;
  to_status : BookingStatus;
  reason : option string;
  changed_by : option string
}.

Record CreateBookingRequest : Type := {
  req_itinerary_item_id : option string;
  req_provider_id : string;
  provider_option_id : string;
  req_traveler_details : TravelerDetails;
  req_contact_info : ContactInfo;
  req_booking_date : string;
  req_booking_time : option string;
  idempotency_key : string
}.

(** The three booking tables: [bookings] by primary key [id],
    [booking_state_history] in insertion order, [booking_idempotency] by
    primary key [idempotency_key]. *)
Record tables : Type := {
  bookings : gmap string Booking;
  booking_state_history : list BookingStateHistory;
  booking_idempotency : gmap string string
}.

Definition duplicate_key {A} : result A := Err (StorageError "duplicate key").

(** [x || null] on an optional string: the empty string is falsy. *)
Definition or_null (x : option string) : option string :=
  match x with
  | Some EmptyString => None
  | other => other
  end.

(** ** [BookingService] *)

(** [validateStateTransition(fromStatus, toStatus)] *)
Definition validTransitions (key : option BookingStatus) : list BookingStatus :=
  match key with
  | None => [pending]
  | Some pending => [confirmed; failed]
  | Some confirmed => [canceled; refunded]
  | Some failed => [pending]
  | Some canceled => [refunded]
  | Some refunded => []
  end.

Definition includes (allowed : list BookingStatus) (s : BookingStatus) : bool :=
  existsb (BookingStatus_eqb s) allowed.

Definition from_text (fromStatus : option BookingStatus) : string :=
  match fromStatus with Some s => status_text s | None => "null" end.

Definition validateStateTransition {T} (fromStatus : option BookingStatus)
    (toStatus : BookingStatus) : M T unit :=
  let allowed := validTransitions fromStatus in
  if negb (includes allowed toStatus)
  then throw (ValidationError
         ("Invalid state transition from " ++ from_text fromStatus ++ " to " ++ status_text toStatus))
  else ret tt.

(** [getBookingById(bookingId)] *)
Definition getBookingById (bookingId : string) : M tables Booking :=
  row <- query (fun d => (Ok (bookings d !! bookingId), d)) ;;
  match row with
  | None => throw (NotFoundError "Booking" bookingId)
  | Some b => ret b
  end.

(** [getBookingByIdempotencyKey(idempotencyKey)]: the inner join of
    [bookings] and [booking_idempotency] on the booking id. *)
Definition getBookingByIdempotencyKey (idempotencyKey : string) : M tables (option Booking) :=
  query (fun d =>
    (Ok match booking_idempotency d !! idempotencyKey with
        | Some bid => bookings d !! bid
        | None => None
        end, d)).

(** [addStateHistory(bookingId, fromStatus, toStatus, reason, changedBy)] *)
Definition addStateHistory (bookingId : string) (fromStatus : option BookingStatus)
    (toStatus : BookingStatus) (reason changedBy : option string) : M tables unit :=
  query (fun d =>
    (Ok tt,
     {| bookings := bookings d;
        booking_state_history :=
          (booking_state_history d ++
             [{| booking_id := bookingId; from_status := fromStatus; to_status := toStatus;
                 reason := or_null reason; changed_by := or_null changedBy |}])%list;
        booking_idempotency := booking_idempotency d |})).

Definition to_upper (c : ascii) : ascii :=
  let n := nat_of_ascii c in
  if ((97 <=? n)%nat && (n <=? 122)%nat)%bool then ascii_of_nat (n - 32) else c.

Fixpoint toUpperCase (s : string) : string :=
  match s with
  | EmptyString => EmptyString
  | String c rest => String (to_upper c) (toUpperCase rest)
  end.

Definition insert_booking (b : Booking) (d : tables) : result unit * tables :=
  match bookings d !! id b with
  | Some _ => (duplicate_key, d)
  | None => (Ok tt, {| bookings := <[id b := b]> (bookings d);
                       booking_state_history := booking_state_history d;
                       booking_idempotency := booking_idempotency d |})
  end.

Definition insert_idempotency (key bookingId : string) (d : tables) : result unit * tables :=
  match booking_idempotency d !! key with
  | Some _ => (duplicate_key, d)
  | None => (Ok tt, {| bookings := bookings d;
                       booking_state_history := booking_state_history d;
                       booking_idempotency := <[key := bookingId]> (booking_idempotency d) |})
  end.

(** [createBooking(tripId, request, userId)] *)
Definition createBooking (tripId : string) (request : CreateBookingRequest)
    (userId : option string) : M tables Booking :=
  existing <- getBookingByIdempotencyKey (idempotency_key request) ;;
  match existing with
  | Some b => ret b
  | None =>
      validateStateTransition None pending ;;;
      bookingId <- uuidv4 ;;
      conf <- uuidv4 ;;
      query (insert_booking
        {| id := bookingId;
           trip_id := tripId;
           itinerary_item_id := or_null (req_itinerary_item_id request);
           provider_id := req_provider_id request;
           external_booking_id := "pending";
           status := pending;
           price := {| amount := 0; currency := "THB" |};
           policies := {| cancellation := ""; refund := ""; cancellation_deadline := None |};
           voucher_url := None;
           voucher_data := None;
           confirmation_number := toUpperCase (String.substring 0 8 conf);
           traveler_details := req_traveler_details request;
           booking_date := req_booking_date request;
           booking_time := or_null (req_booking_time request);
           contact_info := req_contact_info request |}) ;;;
      addStateHistory bookingId None pending (Some "Booking created") userId ;;;
      query (insert_idempotency (idempotency_key request) bookingId) ;;;
      getBookingById bookingId
  end.

(** The optional [updates] of [updateBookingStatus]. *)
Record Updates : Type := {
  upd_external_booking_id : option string;
  upd_price : option Price;
  upd_policies : option Policies;
  upd_voucher_url : option string;
  upd_voucher_data : option string;
  upd_confirmation_number : option string
}.

Definition no_updates : Updates :=
  {| upd_external_booking_id := None; upd_price := None; upd_policies := None;
     upd_voucher_url := None; upd_voucher_data := None; upd_confirmation_number := None |}.

(** [UPDATE bookings SET status = $1, ... WHERE id = $n]: a field of
    [updates] is written when it is truthy. *)
Definition apply_updates (newStatus : BookingStatus) (u : Updates) (b : Booking) : Booking :=
  {| id := id b;
     trip_id := trip_id b;
     itinerary_item_id := itinerary_item_id b;
     provider_id := provider_id b;
     external_booking_id := default (external_booking_id b) (or_null (upd_external_booking_id u));
     status := newStatus;
     price := default (price b) (upd_price u);
     policies := default (policies b) (upd_policies u);
     voucher_url := match or_null (upd_voucher_url u) with Some v => Some v | None => voucher_url b end;
     voucher_data := match or_null (upd_voucher_data u) with Some v => Some v | None => voucher_data b end;
     confirmation_number := default (confirmation_number b) (or_null (upd_confirmation_number u));
     traveler_details := traveler_details b;
     booking_date := booking_date b;
     booking_time := booking_time b;
     contact_info := contact_info b |}.

Definition update_booking (bookingId : string) (newStatus : BookingStatus) (u : Updates)
    (d : tables) : result unit * tables :=
  (Ok tt, {| bookings := alter (apply_updates newStatus u) bookingId (bookings d);
             booking_state_history := booking_state_history d;
             booking_idempotency := booking_idempotency d |}).

(** [updateBookingStatus(bookingId, newStatus, reason, updatedBy, updates)] *)
Definition updateBookingStatus (bookingId : string) (newStatus : BookingStatus)
    (reason updatedBy : option string) (updates : Updates) : M tables Booking :=
  booking <- getBookingById bookingId ;;
  validateStateTransition (Some (status booking)) newStatus ;;;
  query (update_booking bookingId newStatus updates) ;;;
  addStateHistory bookingId (Some (status booking)) newStatus reason updatedBy ;;;
  getBookingById bookingId.

(** [getBookingStateHistory(bookingId)] *)
Definition getBookingStateHistory (bookingId : string) : M tables (list BookingStateHistory) :=
  query (fun d =>
    (Ok (List.filter (fun h => String.eqb (booking_id h) bookingId) (booking_state_history d)), d)).

(** ** Provider adapters, as far as the orchestrator calls them *)

Record BookingResponse : Type := {
  resp_booking_id : string;
  resp_status : BookingStatus;
  resp_price : Price;
  resp_policies : Policies;
  resp_voucher_url : option string;
  resp_voucher_data : option string;
  resp_confirmation_number : string
}.

Record ProviderRequest : Type := {
  provider_item_id : string;
  date : string;
  time_slot : option string;
  travelers : TravelerDetails;
  prov_contact_info : ContactInfo;
  prov_idempotency_key : string
}.

Record ProviderAdapter : Type := {
  provider_createBooking : ProviderRequest -> result BookingResponse;
  provider_cancelBooking : string -> result unit
}.

Definition error_message (e : error) : string :=
  match e with
  | ValidationError m | PlainError m | StorageError m => m
  | NotFoundError r i => r ++ " not found"
  | ExternalServiceError _ m => m
  end.

Definition lift {A} (r : result A) : M tables A := fun w => (r, w).

Section Orchestrator.

(** [providerRegistry.getProvider(id)] *)
Variable getProvider : string -> option ProviderAdapter.

Definition updates_of (r : BookingResponse) : Updates :=
  {| upd_external_booking_id := Some (resp_booking_id r);
     upd_price := Some (resp_price r);
     upd_policies := Some (resp_policies r);
     upd_voucher_url := resp_voucher_url r;
     upd_voucher_data := resp_voucher_data r;
     upd_confirmation_number := Some (resp_confirmation_number r) |}.

Definition confirmed_or_pending (s : BookingStatus) : BookingStatus :=
  match s with confirmed => confirmed | _ => pending end.

(** [BookingOrchestratorService.createBooking(tripId, request, userId)] *)
Definition orchestrator_createBooking (tripId : string) (request : CreateBookingRequest)
    (userId : option string) : M tables Booking :=
  match getProvider (req_provider_id request) with
  | None => throw (NotFoundError "Provider" (req_provider_id request))
  | Some provider =>
      booking <- createBooking tripId request userId ;;
      try_catch
        (providerResponse <- lift (provider_createBooking provider
            {| provider_item_id := provider_option_id request;
               date := req_booking_date request;
               time_slot := req_booking_time request;
               travelers := req_traveler_details request;
               prov_contact_info := req_contact_info request;
               prov_idempotency_key := idempotency_key request |}) ;;
         updateBookingStatus (id booking) (confirmed_or_pending (resp_status providerResponse))
           (Some "Provider booking created") (Some "system") (updates_of providerResponse) ;;;
         getBookingById (id booking))
        (fun error =>
           updateBookingStatus (id booking) failed (Some (error_message error))
             (Some "system") no_updates ;;;
           throw error)
  end.

(** [userId || 'system'] *)
Definition or_system (userId : option string) : option string :=
  match or_null userId with Some u => Some u | None => Some "system" end.

(** [cancelBooking(bookingId, reason, userId)] *)
Definition cancelBooking (bookingId : string) (reason userId : option string)
    : M tables Booking :=
  booking <- getBookingById bookingId ;;
  if negb (BookingStatus_eqb (status booking) confirmed)
  then throw (PlainError "Can only cancel confirmed bookings")
  else
    try_catch
      (match getProvider (provider_id booking) with
       | Some provider => lift (provider_cancelBooking provider (external_booking_id booking))
       | None => ret tt
       end ;;;
       updateBookingStatus bookingId canceled
         (match or_null reason with Some r => Some r | None => Some "Booking canceled by user" end)
         (or_system userId) no_updates ;;;
       getBookingById bookingId)
      (fun error => throw (ExternalServiceError "Provider" "Failed to cancel booking")).


(** [retryBooking(bookingId, userId)]; the key of the retry is
    [`${booking.id}-retry-${Date.now()}`]. *)
Definition retryBooking (bookingId : string) (userId : option string) : M tables Booking :=
  booking <- getBookingById bookingId ;;
  if negb (BookingStatus_eqb (status booking) failed)
  then throw (PlainError "Can only retry failed bookings")
  else
    today <- now ;;
    let retry_key := id booking ++ "-retry-" ++ Js.toString today in
    updateBookingStatus bookingId pending (Some "Retrying booking") (or_system userId)
      no_updates ;;;
    try_catch
      (match getProvider (provider_id booking) with
       | None => throw (NotFoundError "Provider" (provider_id booking))
       | Some provider =>
           providerResponse <- lift (provider_createBooking provider
             {| provider_item_id := external_booking_id booking;
                date := booking_date booking;
                time_slot := or_null (booking_time booking);
                travelers := traveler_details booking;
                prov_contact_info := contact_info booking;
                prov_idempotency_key := retry_key |}) ;;
           updateBookingStatus bookingId (confirmed_or_pending (resp_status providerResponse))
             (Some "Retry successful") (or_system userId) (updates_of providerResponse) ;;;
           getBookingById bookingId
       end)
      (fun error =>
         updateBookingStatus bookingId failed (Some (error_message error)) (or_system userId)
           no_updates ;;;
         throw error).

End Orchestrator.

End Booking.

(* ===================================================================== *)
(** * The plan tables *)
(* ===================================================================== *)
Module Plan.
Import Db.

(** ** Small JavaScript containers *)

(** [arr.sort(cmp)] and [ORDER BY]: a stable insertion sort; rows that
    compare equal keep the order they had. *)
Fixpoint insert_sorted {A} (le : A -> A -> bool) (x : A) (l : list A) : list A :=
  match l with
  | [] => [x]
  | y :: rest => if le x y then x :: y :: rest else y :: insert_sorted le x rest
  end.

Definition sort_by {A} (le : A -> A -> bool) (l : list A) : list A :=
  foldr (insert_sorted le) [] l.

(** A JavaScript [Map] in insertion order: [set] on a present key replaces
    the value where it stands. *)
Fixpoint map_set {K V} (eqb : K -> K -> bool) (k : K) (v : V) (m : list (K * V)) : list (K * V) :=
  match m with
  | [] => [(k, v)]
  | (k', v') :: rest =>
      if eqb k k' then (k, v) :: rest else (k', v') :: map_set eqb k v rest
  end.

Fixpoint map_get {K V} (eqb : K -> K -> bool) (k : K) (m : list (K * V)) : option V :=
  match m with
  | [] => None
  | (k', v') :: rest => if eqb k k' then Some v' else map_get eqb k rest
  end.

(** [x || null] on an optional string. *)
Definition or_null (x : option string) : option string :=
  match x with
  | Some EmptyString => None
  | other => other
  end.

(** Text order of two [HH:mm] columns, as [ORDER BY start_time] and
    [a.localeCompare(b)] give it on digits and colons. *)
Definition text_le (a b : string) : bool := String.leb a b.
Definition text_lt (a b : string) : bool := String.ltb a b.

(** ** Rows and values *)

Record Location : Type := { lat : Q; lng : Q }.

Record Money : Type := { amount : Q; currency : string }.

Module Cost.
Record t : Type := { amount : Q; currency : string; confidence : string }.
End Cost.

Module Route.
Record t : Type := {
  from_item_id : option string;
  to_item_id : string;
  mode : string;
  distance_km : Q;
  duration_minutes : Z
}.
End Route.

(** A row of [itinerary_items], which is also an [ItineraryItem];
    [description], [notes] and the timestamps are left out. *)
Module Item.
Record t : Type := {
  id : string;
  trip_id : string;
  day : Z;
  item_type : string;
  poi_id : option string;
  name : string;
  location : option Location;
  start_time : string;
  end_time : string;
  duration_minutes : Z;
  is_pinned : bool;
  order : Z;
  route_from_previous : option Route.t;
  cost_estimate : option Cost.t
}.

Definition set_times (s e : string) (i : t) : t :=
  {| id := id i; trip_id := trip_id i; day := day i; item_type := item_type i;
     poi_id := poi_id i; name := name i; location := location i;
     start_time := s; end_time := e; duration_minutes := duration_minutes i;
     is_pinned := is_pinned i; order := order i;
     route_from_previous := route_from_previous i; cost_estimate := cost_estimate i |}.

Definition set_day_times (d : Z) (s e : string) (i : t) : t :=
  {| id := id i; trip_id := trip_id i; day := d; item_type := item_type i;
     poi_id := poi_id i; name := name i; location := location i;
     start_time := s; end_time := e; duration_minutes := duration_minutes i;
     is_pinned := is_pinned i; order := order i;
     route_from_previous := route_from_previous i; cost_estimate := cost_estimate i |}.

Definition set_order (o : Z) (i : t) : t :=
  {| id := id i; trip_id := trip_id i; day := day i; item_type := item_type i;
     poi_id := poi_id i; name := name i; location := location i;
     start_time := start_time i; end_time := end_time i;
     duration_minutes := duration_minutes i;
     is_pinned := is_pinned i; order := o;
     route_from_previous := route_from_previous i; cost_estimate := cost_estimate i |}.

Definition set_pinned (p : bool) (i : t) : t :=
  {| id := id i; trip_id := trip_id i; day := day i; item_type := item_type i;
     poi_id := poi_id i; name := name i; location := location i;
     start_time := start_time i; end_time := end_time i;
     duration_minutes := duration_minutes i;
     is_pinned := p; order := order i;
     route_from_previous := route_from_previous i; cost_estimate := cost_estimate i |}.

Definition set_trip (tr : string) (i : t) : t :=
  {| id := id i; trip_id := tr; day := day i; item_type := item_type i;
     poi_id := or_null (poi_id i); name := name i; location := location i;
     start_time := start_time i; end_time := end_time i;
     duration_minutes := duration_minutes i;
     is_pinned := is_pinned i; order := order i;
     route_from_previous := route_from_previous i; cost_estimate := cost_estimate i |}.
End Item.

(** An [ItineraryDay]; [date] is the [Date] whose ISO day the source keeps. *)
Module Day.
Record t : Type := {
  day : Z;
  date : Js.Date;
  items : list Item.t;
  total_travel_time_minutes : Z;
  total_cost_estimate : Money
}.
End Day.

Module Itinerary.
Record t : Type := {
  id : string;
  trip_id : string;
  days : list Day.t;
  total_cost_estimate : Money;
  version : Z
}.
End Itinerary.

(** [VersionDiff] *)
Module Diff.
Record moved : Type := {
  item_id : string; old_day : Z; new_day : Z; old_order : Z; new_order : Z
}.
Inductive value : Type := VText (s : string) | VBool (b : bool).
Record change : Type := { field : string; old_value : value; new_value : value }.
Record t : Type := {
  added_items : list string;
  removed_items : list string;
  moved_items : list moved;
  modified_items : list (string * list change)
}.
End Diff.

(** A row of [itinerary_versions], which is also an [ItineraryVersion]. *)
Module Version.
Record t : Type := {
  id : string;
  trip_id : string;
  version : Z;
  change_type : string;
  changed_by : option string;
  snapshot_days : list Day.t;
  snapshot_total_cost_estimate : Money;
  diff : option Diff.t
}.
End Version.

Module Trip.
Record t : Type := {
  id : string;
  user_id : option string;
  guest_session_id : option string;
  status : string
}.
End Trip.

(** [TripPreferences], as far as the plan services read it. *)
Module Prefs.
Record t : Type := {
  trip_id : string;
  dates_start : Js.Date;
  dates_end : Js.Date;
  budget_currency : string;
  daily_time_window_start : string;
  daily_time_window_end : string
}.
End Prefs.

Module Hours.
Record t : Type := { open : string; close : string; closed : option bool }.
End Hours.

Module PriceRange.
Record t : Type := { min : Q; max : Q; currency : string }.
End PriceRange.

Module POI.
Record t : Type := {
  id : string;
  name : string;
  location : Location;
  hours : option (list (string * Hours.t));
  tags : list string;
  avg_duration_minutes : Z;
  price_range : option PriceRange.t
}.
End POI.

Inductive Severity : Type := low | medium | high.

(** The [details] of an event, for the two kinds that are ingested. *)
Inductive EventDetails : Type :=
| WeatherEventDetails (condition impact : string)
| ClosureEventDetails (place_id reason : string).

Record TimeSlot : Type := { slot_start : string; slot_end : string }.

Module Signal.
Record t : Type := {
  id : string;
  trip_id : string;
  event_type : string;
  severity : Severity;
  location : Location;
  time_slot : TimeSlot;
  details : EventDetails;
  affected_items : list string;
  processed : bool;
  replan_triggered : bool
}.
End Signal.

Module Trigger.
Record t : Type := {
  id : string;
  trip_id : string;
  event_signal_id : string;
  reason : string;
  priority : Severity;
  processed : bool
}.
End Trigger.

(** [ProposalChanges] *)
Module Changes.
Record new_item : Type := {
  id : string;
  name : string;
  poi_id : option string;
  start_time : string;
  end_time : string;
  location : option Location
}.
Record replaced : Type := { old_item_id : string; old_item_name : string; new : new_item }.
Record moved : Type := {
  item_id : string; old_day : Z; new_day : Z; old_time : string; new_time : string
}.
Record removed : Type := { removed_item_id : string; removed_name : string; reason : string }.
Record added : Type := {
  added_id : string;
  added_name : string;
  added_poi_id : option string;
  added_day : Z;
  added_start_time : string;
  added_end_time : string
}.
Record t : Type := {
  replaced_items : list replaced;
  moved_items : list moved;
  removed_items : list removed;
  added_items : list added
}.
End Changes.

(** A row of [replan_proposals]; [score], [explanation] and [impact] are not
    read by the apply. *)
Module Proposal.
Record t : Type := {
  id : string;
  trip_id : string;
  trigger_id : option string;
  changes : Changes.t
}.
End Proposal.

Module Application.
Record t : Type := {
  id : string;
  trip_id : string;
  proposal_id : string;
  applied_version : Z;
  rollback_available_until : Js.Date;
  rolled_back : bool
}.
End Application.

(** A row of [itineraries]. *)
Module ItineraryRow.
Record t : Type := { id : string; version : Z }.
End ItineraryRow.

(** The tables.  [itineraries] is keyed by its unique [trip_id]; the list
    tables are in insertion order, which is also the order rows with equal
    sort keys come back in. *)
Record tables : Type := {
  trips : gmap string Trip.t;
  trip_preferences : gmap string Prefs.t;
  pois : gmap string POI.t;
  itineraries : gmap string ItineraryRow.t;
  itinerary_items : list Item.t;
  itinerary_versions : list Version.t;
  event_signals : list Signal.t;
  replan_triggers : list Trigger.t;
  replan_proposals : gmap string Proposal.t;
  replan_applications : list Application.t
}.

Definition set_itineraries (f : gmap string ItineraryRow.t -> gmap string ItineraryRow.t)
    (d : tables) : tables :=
  {| trips := trips d; trip_preferences := trip_preferences d; pois := pois d;
     itineraries := f (itineraries d); itinerary_items := itinerary_items d;
     itinerary_versions := itinerary_versions d; event_signals := event_signals d;
     replan_triggers := replan_triggers d; replan_proposals := replan_proposals d;
     replan_applications := replan_applications d |}.

Definition set_items (f : list Item.t -> list Item.t) (d : tables) : tables :=
  {| trips := trips d; trip_preferences := trip_preferences d; pois := pois d;
     itineraries := itineraries d; itinerary_items := f (itinerary_items d);
     itinerary_versions := itinerary_versions d; event_signals := event_signals d;
     replan_triggers := replan_triggers d; replan_proposals := replan_proposals d;
     replan_applications := replan_applications d |}.

Definition set_versions (f : list Version.t -> list Version.t) (d : tables) : tables :=
  {| trips := trips d; trip_preferences := trip_preferences d; pois := pois d;
     itineraries := itineraries d; itinerary_items := itinerary_items d;
     itinerary_versions := f (itinerary_versions d); event_signals := event_signals d;
     replan_triggers := replan_triggers d; replan_proposals := replan_proposals d;
     replan_applications := replan_applications d |}.

Definition set_signals (f : list Signal.t -> list Signal.t) (d : tables) : tables :=
  {| trips := trips d; trip_preferences := trip_preferences d; pois := pois d;
     itineraries := itineraries d; itinerary_items := itinerary_items d;
     itinerary_versions := itinerary_versions d; event_signals := f (event_signals d);
     replan_triggers := replan_triggers d; replan_proposals := replan_proposals d;
     replan_applications := replan_applications d |}.

Definition set_triggers (f : list Trigger.t -> list Trigger.t) (d : tables) : tables :=
  {| trips := trips d; trip_preferences := trip_preferences d; pois := pois d;
     itineraries := itineraries d; itinerary_items := itinerary_items d;
     itinerary_versions := itinerary_versions d; event_signals := event_signals d;
     replan_triggers := f (replan_triggers d); replan_proposals := replan_proposals d;
     replan_applications := replan_applications d |}.

Definition set_applications (f : list Application.t -> list Application.t) (d : tables) : tables :=
  {| trips := trips d; trip_preferences := trip_preferences d; pois := pois d;
     itineraries := itineraries d; itinerary_items := itinerary_items d;
     itinerary_versions := itinerary_versions d; event_signals := event_signals d;
     replan_triggers := replan_triggers d; replan_proposals := replan_proposals d;
     replan_applications := f (replan_applications d) |}.

Definition duplicate_key {A} : result A := Err (StorageError "duplicate key").

(** ** Statements on [itinerary_items] *)

(** [INSERT INTO itinerary_items ...]: refused when the id is taken. *)
Definition insert_item (row : Item.t) (d : tables) : result unit * tables :=
  if existsb (fun r => String.eqb (Item.id r) (Item.id row)) (itinerary_items d)
  then (duplicate_key, d)
  else (Ok tt, set_items (fun rows => rows ++ [row])%list d).

(** [DELETE FROM itinerary_items WHERE id = $1 AND trip_id = $2] *)
Definition delete_item (itemId tripId : string) (d : tables) : result unit * tables :=
  (Ok tt, set_items (List.filter (fun r =>
     negb (String.eqb (Item.id r) itemId && String.eqb (Item.trip_id r) tripId))) d).

(** [DELETE FROM itinerary_items WHERE trip_id = $1] *)
Definition delete_trip_items (tripId : string) (d : tables) : result unit * tables :=
  (Ok tt, set_items (List.filter (fun r => negb (String.eqb (Item.trip_id r) tripId))) d).

(** [UPDATE itinerary_items SET ... WHERE <cond>] *)
Definition update_items (cond : Item.t -> bool) (f : Item.t -> Item.t) (d : tables)
    : result unit * tables :=
  (Ok tt, set_items (List.map (fun r => if cond r then f r else r)) d).

Definition by_day_order (a b : Item.t) : bool :=
  (Item.day a <? Item.day b) || ((Item.day a =? Item.day b) && (Item.order a <=? Item.order b)).

Definition by_order (a b : Item.t) : bool := Item.order a <=? Item.order b.

Definition by_start_time (a b : Item.t) : bool :=
  text_le (Item.start_time a) (Item.start_time b).

(** [SELECT * FROM itinerary_items WHERE trip_id = $1 ORDER BY day, "order"] *)
Definition select_trip_items (tripId : string) (d : tables) : list Item.t :=
  sort_by by_day_order
    (List.filter (fun r => String.eqb (Item.trip_id r) tripId) (itinerary_items d)).

(** [SELECT * FROM itinerary_items WHERE trip_id = $1 AND day = $2 ORDER BY "order"] *)
Definition select_day_items (tripId : string) (day : Z) (d : tables) : list Item.t :=
  sort_by by_order
    (List.filter (fun r => String.eqb (Item.trip_id r) tripId && (Item.day r =? day))
       (itinerary_items d)).

End Plan.

(* ===================================================================== *)
(** * [TripService] and [POIService], as far as the plan services call them *)
(* ===================================================================== *)
Module TripService.
Import Db Plan.

Definition owned_by (column : option string) (who : string) : bool :=
  match column with Some c => String.eqb c who | None => false end.

(** [getTripById(tripId, userId, guestSessionId)] *)
Definition getTripById (tripId : string) (userId guestSessionId : option string)
    : M tables Trip.t :=
  row <- query (fun d =>
    (Ok match trips d !! tripId with
        | Some t =>
            match or_null userId, or_null guestSessionId with
            | Some u, _ => if owned_by (Trip.user_id t) u then Some t else None
            | None, Some g => if owned_by (Trip.guest_session_id t) g then Some t else None
            | None, None => Some t
            end
        | None => None
        end, d)) ;;
  match row with
  | None => throw (NotFoundError "Trip" tripId)
  | Some t => ret t
  end.

(** [getTripWithPreferences(tripId, userId, guestSessionId)] *)
Definition getTripWithPreferences (tripId : string) (userId guestSessionId : option string)
    : M tables (Trip.t * Prefs.t) :=
  trip <- getTripById tripId userId guestSessionId ;;
  prefs <- query (fun d => (Ok (trip_preferences d !! tripId), d)) ;;
  match prefs with
  | None => throw (NotFoundError "Trip preferences" tripId)
  | Some preferences => ret (trip, preferences)
  end.

End TripService.

Module POIService.
Import Db Plan.

(** [getPOIById(poiId)], the Redis cache missing. *)
Definition getPOIById (poiId : string) : M tables POI.t :=
  row <- query (fun d => (Ok (pois d !! poiId), d)) ;;
  match row with
  | None => throw (NotFoundError "POI" poiId)
  | Some poi => ret poi
  end.

End POIService.

(* ===================================================================== *)
(** * [ItineraryGeneratorService] *)
(* ===================================================================== *)
Module ItineraryGeneratorService.
Import Db Plan.

Definition DEFAULT_BUFFER_MINUTES : Z := 15.
Definition DEFAULT_TRAVEL_TIME_PLACEHOLDER : Z := 20.

(** [calculateDayTravelTime(items)] *)
Definition calculateDayTravelTime (items : list Item.t) : Z :=
  fold_left (fun sum item =>
    sum + match Item.route_from_previous item with
          | Some r => Route.duration_minutes r
          | None => 0
          end) items 0.

(** [calculateDayCost(items, currency)] *)
Definition calculateDayCost (items : list Item.t) (currency : string) : Money :=
  {| amount := fold_left (fun sum item =>
                 Js.add sum match Item.cost_estimate item with
                            | Some c => Cost.amount c
                            | None => 0%Q
                            end) items 0%Q;
     currency := currency |}.

(** [calculateTotalCost(days, currency)] *)
Definition calculateTotalCost (days : list Day.t) (currency : string) : Money :=
  {| amount := fold_left (fun sum day => Js.add sum (amount (Day.total_cost_estimate day)))
                 days 0%Q;
     currency := currency |}.

(** The body of the loop of [extractPinnedItems]: a day with pinned items
    is [set] in the [Map]. *)
Definition pinned_step (pinned : list (Z * list Item.t)) (day : Day.t) : list (Z * list Item.t) :=
  match List.filter Item.is_pinned (Day.items day) with
  | [] => pinned
  | dayPinned => map_set Z.eqb (Day.day day) dayPinned pinned
  end.

(** [extractPinnedItems(itinerary)] *)
Definition extractPinnedItems (itinerary : Itinerary.t) : list (Z * list Item.t) :=
  fold_left pinned_step (Itinerary.days itinerary) [].

(** The bucket [dayIndex] of the round robin: the POIs whose index is
    [dayIndex] modulo [numDays], in order. *)
Fixpoint bucket (numDays dayIndex index : Z) (pois : list POI.t) : list POI.t :=
  match pois with
  | [] => []
  | poi :: rest =>
      if Js.jsmod index numDays =? dayIndex
      then poi :: bucket numDays dayIndex (index + 1) rest
      else bucket numDays dayIndex (index + 1) rest
  end.

(** [distributePOIs(pois, numDays, preferences)].  [Array(numDays)] throws
    for a negative or [NaN] length; with no bucket at all the first [push]
    throws. *)
Definition distributePOIs {T} (pois : list POI.t) (numDays : option Z) : M T (list (list POI.t)) :=
  match numDays with
  | None => throw (PlainError "RangeError: Invalid array length")
  | Some n =>
      if n <? 0 then throw (PlainError "RangeError: Invalid array length")
      else if (n =? 0) && negb (Nat.eqb (length pois) 0)
      then throw (PlainError "TypeError: Cannot read properties of undefined")
      else ret (List.map (fun dayIndex => bucket n dayIndex 0 pois) (seqZ 0 n))
  end.

Definition dayNames : list string :=
  ["sunday"; "monday"; "tuesday"; "wednesday"; "thursday"; "friday"; "saturday"].

(** [poi.hours?.[dayOfWeek]] *)
Definition hours_on (poi : POI.t) (date : Js.Date) : option Hours.t :=
  match POI.hours poi, Js.getDay date with
  | Some hours, Some n =>
      match dayNames !! Z.to_nat n with
      | Some dayOfWeek => map_get String.eqb dayOfWeek hours
      | None => None
      end
  | _, _ => None
  end.

(** A string that is present and not empty. *)
Definition truthy (s : string) : bool := negb (String.eqb s "").

Section Generate.

(** [calculateDistance(lat1, lng1, lat2, lng2)]: the Haversine formula is
    floating point; its value is a parameter here. *)
Variable calculateDistance : Q -> Q -> Q -> Q -> Q.

Definition minutes_ms (m : Z) : Z := m * 60 * 1000.

(** The [for] loop over the POIs of [generateDayItems], [items] and
    [currentTime] being the loop state; [break] returns and [continue]
    goes on with the tail. *)
Fixpoint place_pois {T} (dayNum : Z) (date endTime : Js.Date) (pois : list POI.t)
    (items : list Item.t) (currentTime : Js.Date) : M T (list Item.t) :=
  match pois with
  | [] => ret items
  | poi :: rest =>
      let prevItem := last items in
      if Js.ge currentTime endTime then ret items
      else
        let hours := hours_on poi date in
        let closed := match hours with Some h => default false (Hours.closed h) | None => false end in
        if closed then place_pois dayNum date endTime rest items currentTime
        else
          let opens := match hours with
                       | Some h => if truthy (Hours.open h) then Some (Hours.open h) else None
                       | None => None
                       end in
          let closes := match hours with
                        | Some h => if truthy (Hours.close h) then Some (Hours.close h) else None
                        | None => None
                        end in
          let itemStartTime :=
            match opens with
            | Some o =>
                let openTime := TimeOfDay.parseTime o date in
                if Js.gt openTime currentTime then openTime else currentTime
            | None => currentTime
            end in
          let duration := POI.avg_duration_minutes poi in
          let itemEndTime := Js.plus_ms itemStartTime (minutes_ms duration) in
          let closes_early :=
            match closes with
            | Some c => Js.gt itemEndTime (TimeOfDay.parseTime c date)
            | None => false
            end in
          if closes_early then place_pois dayNum date endTime rest items currentTime
          else if Js.gt itemEndTime endTime then ret items
          else
            route <- match prevItem with
                     | Some prev =>
                         match Item.location prev with
                         | Some from =>
                             placeholder <- uuidv4 ;;
                             ret (Some {| Route.from_item_id := Some (Item.id prev);
                                          Route.to_item_id := placeholder;
                                          Route.mode := "walking";
                                          Route.distance_km :=
                                            calculateDistance (lat from) (lng from)
                                              (lat (POI.location poi)) (lng (POI.location poi));
                                          Route.duration_minutes := DEFAULT_TRAVEL_TIME_PLACEHOLDER |})
                         | None => ret None
                         end
                     | None => ret None
                     end ;;
            let itemStartTime' :=
              match route with
              | Some r => Js.plus_ms itemStartTime
                            (minutes_ms (DEFAULT_BUFFER_MINUTES + Route.duration_minutes r))
              | None => Js.plus_ms itemStartTime (minutes_ms DEFAULT_BUFFER_MINUTES)
              end in
            let finalEndTime := Js.plus_ms itemStartTime' (minutes_ms duration) in
            let too_late :=
              Js.gt finalEndTime endTime ||
              match closes with
              | Some c => Js.gt finalEndTime (TimeOfDay.parseTime c date)
              | None => false
              end in
            if too_late then place_pois dayNum date endTime rest items currentTime
            else
              itemId <- uuidv4 ;;
              let item :=
                {| Item.id := itemId;
                   Item.trip_id := "";
                   Item.day := dayNum;
                   Item.item_type := "poi";
                   Item.poi_id := Some (POI.id poi);
                   Item.name := POI.name poi;
                   Item.location := Some (POI.location poi);
                   Item.start_time := TimeOfDay.formatTime itemStartTime';
                   Item.end_time := TimeOfDay.formatTime finalEndTime;
                   Item.duration_minutes := duration;
                   Item.is_pinned := false;
                   Item.order := Z.of_nat (length items);
                   Item.route_from_previous :=
                     option_map (fun r =>
                       {| Route.from_item_id := Route.from_item_id r;
                          Route.to_item_id := itemId;
                          Route.mode := Route.mode r;
                          Route.distance_km := Route.distance_km r;
                          Route.duration_minutes := Route.duration_minutes r |}) route;
                   Item.cost_estimate :=
                     option_map (fun pr =>
                       {| Cost.amount := Js.half (Js.add (PriceRange.min pr) (PriceRange.max pr));
                          Cost.currency := PriceRange.currency pr;
                          Cost.confidence := "estimated" |}) (POI.price_range poi) |} in
              place_pois dayNum date endTime rest (items ++ [item])%list finalEndTime
  end.

(** The loop that puts the pinned items first: each is pushed as it is, and
    [currentTime] moves to its end when that is later.  [parseTime] is
    called without a base date there, so the end is taken on today's date. *)
Fixpoint place_pinned (today : Js.Date) (pinnedItems items : list Item.t)
    (currentTime : Js.Date) : list Item.t * Js.Date :=
  match pinnedItems with
  | [] => (items, currentTime)
  | pinnedItem :: rest =>
      let pinnedEnd := TimeOfDay.parseTime (Item.end_time pinnedItem) today in
      place_pinned today rest (items ++ [pinnedItem])%list
        (if Js.gt pinnedEnd currentTime then pinnedEnd else currentTime)
  end.

(** [generateDayItems(dayNum, date, pois, preferences, pinnedItems)] *)
Definition generateDayItems {T} (dayNum : Z) (date : Js.Date) (pois : list POI.t)
    (preferences : Prefs.t) (pinnedItems : list Item.t) : M T (list Item.t) :=
  let startParts := Js.split_colon (Prefs.daily_time_window_start preferences) in
  let endParts := Js.split_colon (Prefs.daily_time_window_end preferences) in
  let startHour := Js.parseInt (startParts !! 0%nat) in
  let startMinute := Js.parseInt (startParts !! 1%nat) in
  let endHour := Js.parseInt (endParts !! 0%nat) in
  let endMinute := Js.parseInt (endParts !! 1%nat) in
  let currentTime := Js.setHours date startHour startMinute in
  let endTime := Js.setHours date endHour endMinute in
  today <- now ;;
  let '(items, currentTime') := place_pinned today pinnedItems [] currentTime in
  place_pois dayNum date endTime pois items currentTime'.

(** [Math.ceil((endDate.getTime() - startDate.getTime()) / (1000 * 60 * 60 * 24))] *)
Definition numDays_of (preferences : Prefs.t) : option Z :=
  match Prefs.dates_start preferences, Prefs.dates_end preferences with
  | Some s, Some e => Some (Js.ceil_div (e - s) Js.ms_per_day)
  | _, _ => None
  end.

(** The [for (dayNum = 1; dayNum <= numDays; dayNum++)] loop of
    [generateDays], [days] being what is pushed so far. *)
Fixpoint days_loop {T} (preferences : Prefs.t) (poisPerDay : list (list POI.t))
    (pinnedItems : list (Z * list Item.t)) (dayNums : list Z) (days : list Day.t)
    : M T (list Day.t) :=
  match dayNums with
  | [] => ret days
  | dayNum :: more =>
      let date := Js.plus_ms (Prefs.dates_start preferences) ((dayNum - 1) * Js.ms_per_day) in
      let dayPOIs := default [] (poisPerDay !! Z.to_nat (dayNum - 1)) in
      dayItems <- generateDayItems dayNum date dayPOIs preferences
                    (default [] (map_get Z.eqb dayNum pinnedItems)) ;;
      days_loop preferences poisPerDay pinnedItems more
        (days ++ [{| Day.day := dayNum;
                     Day.date := date;
                     Day.items := dayItems;
                     Day.total_travel_time_minutes := calculateDayTravelTime dayItems;
                     Day.total_cost_estimate :=
                       calculateDayCost dayItems (Prefs.budget_currency preferences) |}])%list
  end.

(** [generateDays(pois, preferences, existingItinerary, preservePinned)] *)
Definition generateDays {T} (pois : list POI.t) (preferences : Prefs.t)
    (existingItinerary : option Itinerary.t) (preservePinned : bool) : M T (list Day.t) :=
  let numDays := numDays_of preferences in
  let pinnedItems :=
    match preservePinned, existingItinerary with
    | true, Some existing => extractPinnedItems existing
    | _, _ => []
    end in
  poisPerDay <- distributePOIs pois numDays ;;
  days_loop preferences poisPerDay pinnedItems (seqZ 1 (default 0 numDays)) [].

End Generate.

(** The row [saveItinerary] sends for an item. *)
Definition saved_row (tripId : string) (item : Item.t) : Item.t := Item.set_trip tripId item.

(** [INSERT INTO itineraries ... ON CONFLICT (trip_id) DO UPDATE SET version] *)
Definition upsert_itinerary (itineraryId tripId : string) (newVersion : Z) (d : tables)
    : result unit * tables :=
  (Ok tt, set_itineraries (fun m =>
     match m !! tripId with
     | Some row => <[tripId := {| ItineraryRow.id := ItineraryRow.id row;
                                  ItineraryRow.version := newVersion |}]> m
     | None => <[tripId := {| ItineraryRow.id := itineraryId;
                              ItineraryRow.version := newVersion |}]> m
     end) d).

(** [saveItinerary(tripId, days, currentVersion)] *)
Definition saveItinerary (tripId : string) (days : list Day.t) (currentVersion : Z)
    : M tables string :=
  itineraryId <- uuidv4 ;;
  let newVersion := currentVersion + 1 in
  query (delete_trip_items tripId) ;;;
  for_each days (fun day =>
    for_each (Day.items day) (fun item => query (insert_item (saved_row tripId item)))) ;;;
  query (upsert_itinerary itineraryId tripId newVersion) ;;;
  ret itineraryId.

(** The grouping of [getItineraryByTripId]: a [Map] from day number to the
    items of that day, in the order the days are first met. *)
Definition group_step (daysMap : list (Z * list Item.t)) (item : Item.t)
    : list (Z * list Item.t) :=
  map_set Z.eqb (Item.day item)
    (default [] (map_get Z.eqb (Item.day item) daysMap) ++ [item])%list daysMap.

Definition group_by_day (items : list Item.t) : list (Z * list Item.t) :=
  fold_left group_step items [].

Definition by_day_number (a b : Day.t) : bool := Day.day a <=? Day.day b.

(** [getItineraryByTripId(tripId)] *)
Definition getItineraryByTripId (tripId : string) : M tables (option Itinerary.t) :=
  itineraryResult <- query (fun d => (Ok (itineraries d !! tripId), d)) ;;
  match itineraryResult with
  | None => ret None
  | Some row =>
      items <- query (fun d => (Ok (select_trip_items tripId d), d)) ;;
      let daysMap := group_by_day items in
      tp <- TripService.getTripWithPreferences tripId None None ;;
      let preferences := snd tp in
      let startDate := Prefs.dates_start preferences in
      let days :=
        sort_by by_day_number
          (List.map (fun entry =>
             let '(dayNum, dayItems) := entry in
             {| Day.day := dayNum;
                Day.date := Js.plus_ms startDate ((dayNum - 1) * Js.ms_per_day);
                Day.items := dayItems;
                Day.total_travel_time_minutes := calculateDayTravelTime dayItems;
                Day.total_cost_estimate :=
                  calculateDayCost dayItems (Prefs.budget_currency preferences) |}) daysMap) in
      ret (Some {| Itinerary.id := ItineraryRow.id row;
                   Itinerary.trip_id := tripId;
                   Itinerary.days := days;
                   Itinerary.total_cost_estimate :=
                     calculateTotalCost days (Prefs.budget_currency preferences);
                   Itinerary.version := ItineraryRow.version row |})
  end.

End ItineraryGeneratorService.

(* ===================================================================== *)
(** * [ItineraryVersionService] *)
(* ===================================================================== *)
Module ItineraryVersionService.
Import Db Plan.

(** The items of a snapshot by id, a [Map] filled day by day. *)
Definition collect_items (days : list Day.t) : list (string * Item.t) :=
  fold_left (fun m day =>
    fold_left (fun m item => map_set String.eqb (Item.id item) item m) (Day.items day) m)
    days [].

Definition has_key (m : list (string * Item.t)) (k : string) : bool :=
  match map_get String.eqb k m with Some _ => true | None => false end.

Definition item_changes (oldItem newItem : Item.t) : list Diff.change :=
  ((if String.eqb (Item.start_time oldItem) (Item.start_time newItem) then []
    else [{| Diff.field := "start_time";
             Diff.old_value := Diff.VText (Item.start_time oldItem);
             Diff.new_value := Diff.VText (Item.start_time newItem) |}]) ++
   (if String.eqb (Item.end_time oldItem) (Item.end_time newItem) then []
    else [{| Diff.field := "end_time";
             Diff.old_value := Diff.VText (Item.end_time oldItem);
             Diff.new_value := Diff.VText (Item.end_time newItem) |}]) ++
   (if Bool.eqb (Item.is_pinned oldItem) (Item.is_pinned newItem) then []
    else [{| Diff.field := "is_pinned";
             Diff.old_value := Diff.VBool (Item.is_pinned oldItem);
             Diff.new_value := Diff.VBool (Item.is_pinned newItem) |}]))%list.

(** [calculateDiff(oldSnapshot, newSnapshot)]; the [notes] column is not in
    the model, so no change of it is listed. *)
Definition calculateDiff (oldDays newDays : list Day.t) : Diff.t :=
  let oldItems := collect_items oldDays in
  let newItems := collect_items newDays in
  {| Diff.added_items :=
       List.map fst (List.filter (fun e => negb (has_key oldItems (fst e))) newItems);
     Diff.removed_items :=
       List.map fst (List.filter (fun e => negb (has_key newItems (fst e))) oldItems);
     Diff.moved_items :=
       flat_map (fun e =>
         let '(itemId, newItem) := e in
         match map_get String.eqb itemId oldItems with
         | None => []
         | Some oldItem =>
             if negb (Item.day oldItem =? Item.day newItem)
                || negb (Item.order oldItem =? Item.order newItem)
             then [{| Diff.item_id := itemId;
                      Diff.old_day := Item.day oldItem; Diff.new_day := Item.day newItem;
                      Diff.old_order := Item.order oldItem;
                      Diff.new_order := Item.order newItem |}]
             else []
         end) newItems;
     Diff.modified_items :=
       flat_map (fun e =>
         let '(itemId, newItem) := e in
         match map_get String.eqb itemId oldItems with
         | None => []
         | Some oldItem =>
             match item_changes oldItem newItem with
             | [] => []
             | changes => [(itemId, changes)]
             end
         end) newItems |}.

(** [INSERT INTO itinerary_versions ...]: refused when the id is taken. *)
Definition insert_version (row : Version.t) (d : tables) : result unit * tables :=
  if existsb (fun r => String.eqb (Version.id r) (Version.id row)) (itinerary_versions d)
  then (duplicate_key, d)
  else (Ok tt, set_versions (fun rows => rows ++ [row])%list d).

(** [createSnapshot(tripId, changeType, changedBy, previousVersion)] *)
Definition createSnapshot (tripId changeType : string) (changedBy : option string)
    (previousVersion : option Version.t) : M tables Version.t :=
  found <- ItineraryGeneratorService.getItineraryByTripId tripId ;;
  match found with
  | None => throw (NotFoundError "Itinerary" tripId)
  | Some itinerary =>
      let diff :=
        option_map (fun previous =>
          calculateDiff (Version.snapshot_days previous) (Itinerary.days itinerary))
          previousVersion in
      versionId <- uuidv4 ;;
      let row :=
        {| Version.id := versionId;
           Version.trip_id := tripId;
           Version.version := Itinerary.version itinerary;
           Version.change_type := changeType;
           Version.changed_by := or_null changedBy;
           Version.snapshot_days := Itinerary.days itinerary;
           Version.snapshot_total_cost_estimate := Itinerary.total_cost_estimate itinerary;
           Version.diff := diff |} in
      query (insert_version row) ;;;
      ret row
  end.

(** [getVersion(tripId, version)] *)
Definition getVersion (tripId : string) (version : Z) : M tables Version.t :=
  rows <- query (fun d =>
    (Ok (List.filter (fun r => String.eqb (Version.trip_id r) tripId
                               && (Version.version r =? version))
           (itinerary_versions d)), d)) ;;
  match rows with
  | [] => throw (NotFoundError "Itinerary version"
                   (tripId ++ "-v" ++ Js.toString (Some version)))
  | row :: _ => ret row
  end.


(** [getVersionHistory(tripId)]: the snapshots of the trip by descending
    version, the current version ([0] without an itinerary) and their
    number. *)
Record VersionHistory : Type := {
  history_versions : list Version.t;
  history_current_version : Z;
  history_total_versions : Z
}.

Definition by_version_desc (a b : Version.t) : bool := Version.version b <=? Version.version a.

Definition getVersionHistory (tripId : string) : M tables VersionHistory :=
  rows <- query (fun d =>
    (Ok (sort_by by_version_desc
           (List.filter (fun r => String.eqb (Version.trip_id r) tripId)
              (itinerary_versions d))), d)) ;;
  currentItinerary <- ItineraryGeneratorService.getItineraryByTripId tripId ;;
  ret {| history_versions := rows;
         history_current_version := match currentItinerary with
                                    | Some itinerary => Itinerary.version itinerary
                                    | None => 0
                                    end;
         history_total_versions := Z.of_nat (length rows) |}.

(** [compareVersions(tripId, version1, version2)] *)
Definition compareVersions (tripId : string) (version1 version2 : Z) : M tables Diff.t :=
  v1 <- getVersion tripId version1 ;;
  v2 <- getVersion tripId version2 ;;
  ret (calculateDiff (Version.snapshot_days v1) (Version.snapshot_days v2)).

(** The row [rollbackToVersion] sends for an item of the snapshot. *)
Definition restored_row (tripId : string) (item : Item.t) : Item.t := Item.set_trip tripId item.

(** [UPDATE itineraries SET version = $1, generated_at = NOW() WHERE trip_id = $2] *)
Definition set_itinerary_version (tripId : string) (version : Z) (d : tables)
    : result unit * tables :=
  (Ok tt, set_itineraries (fun m =>
     match m !! tripId with
     | Some row => <[tripId := {| ItineraryRow.id := ItineraryRow.id row;
                                  ItineraryRow.version := version |}]> m
     | None => m
     end) d).

(** [rollbackToVersion(tripId, targetVersion, userId, guestSessionId)] *)
Definition rollbackToVersion (tripId : string) (targetVersion : Z)
    (userId guestSessionId : option string) : M tables (option Itinerary.t) :=
  target <- getVersion tripId targetVersion ;;
  found <- ItineraryGeneratorService.getItineraryByTripId tripId ;;
  match found with
  | None => throw (NotFoundError "Itinerary" tripId)
  | Some current =>
      if Itinerary.version current <=? Version.version target
      then throw (ValidationError "Cannot rollback to current or future version")
      else
        query (delete_trip_items tripId) ;;;
        for_each (Version.snapshot_days target) (fun day =>
          for_each (Day.items day) (fun item =>
            query (insert_item (restored_row tripId item)))) ;;;
        query (set_itinerary_version tripId (Version.version target)) ;;;
        createSnapshot tripId "edit"
          (match or_null userId with Some u => Some u | None => guestSessionId end) None ;;;
        ItineraryGeneratorService.getItineraryByTripId tripId
  end.

End ItineraryVersionService.

(* ===================================================================== *)
(** * [ItineraryGeneratorService.generateItinerary] *)
(* ===================================================================== *)
Module ItineraryGeneration.
Import Db Plan ItineraryGeneratorService.

Record GenerateItineraryRequest : Type := {
  selected_poi_ids : list string;
  regenerate_mode : option string;
  preserve_pinned : option bool
}.

Record ItineraryGenerationResult : Type := {
  itinerary_id : string;
  days : list Day.t;
  total_cost_estimate : Money
}.

(** The loop that resolves the selected POIs, skipping the ones not found. *)
Fixpoint resolve_pois (ids : list string) (pois : list POI.t) : M tables (list POI.t) :=
  match ids with
  | [] => ret pois
  | poiId :: rest =>
      found <- try_catch (poi <- POIService.getPOIById poiId ;; ret (Some poi))
                         (fun _ => ret None) ;;
      match found with
      | Some poi => resolve_pois rest (pois ++ [poi])%list
      | None => resolve_pois rest pois
      end
  end.

Definition is_incremental (request : GenerateItineraryRequest) : bool :=
  match regenerate_mode request with
  | Some m => String.eqb m "incremental"
  | None => false
  end.

Section Generate.
Variable calculateDistance : Q -> Q -> Q -> Q -> Q.

(** [generateItinerary(tripId, request, userId, guestSessionId)] *)
Definition generateItinerary (tripId : string) (request : GenerateItineraryRequest)
    (userId guestSessionId : option string) : M tables ItineraryGenerationResult :=
  tp <- TripService.getTripWithPreferences tripId userId guestSessionId ;;
  let preferences := snd tp in
  pois <- resolve_pois (selected_poi_ids request) [] ;;
  match pois with
  | [] => throw (ValidationError "At least one valid POI is required")
  | _ =>
      existingItinerary <-
        (if is_incremental request then getItineraryByTripId tripId else ret None) ;;
      days <- generateDays calculateDistance pois preferences existingItinerary
                (default false (preserve_pinned request)) ;;
      let totalCost := calculateTotalCost days (Prefs.budget_currency preferences) in
      itineraryId <- saveItinerary tripId days
                       (match existingItinerary with
                        | Some e => Itinerary.version e
                        | None => 0
                        end) ;;
      previousVersion <-
        match existingItinerary with
        | Some e => catch_default
                      (v <- ItineraryVersionService.getVersion tripId (Itinerary.version e) ;;
                       ret (Some v)) None
        | None => ret None
        end ;;
      ItineraryVersionService.createSnapshot tripId
        (if is_incremental request then "edit" else "generate")
        (match or_null userId with Some u => Some u | None => guestSessionId end)
        previousVersion ;;;
      ret {| itinerary_id := itineraryId; days := days; total_cost_estimate := totalCost |}
  end.

End Generate.

End ItineraryGeneration.

(* ===================================================================== *)
(** * [ItineraryEditorService] *)
(* ===================================================================== *)
Module ItineraryEditorService.
Import Db Plan.

Definition DEFAULT_BUFFER_MINUTES : Z := 15.

Definition in_range (lo hi c : ascii) : bool :=
  let n := nat_of_ascii c in
  (nat_of_ascii lo <=? n)%nat && (n <=? nat_of_ascii hi)%nat.

(** [/^([0-1][0-9]|2[0-3]):[0-5][0-9]$/.test(s)] *)
Definition timeRegex_test (s : string) : bool :=
  match list_ascii_of_string s with
  | [h1; h2; c; m1; m2] =>
      ((in_range "0" "1" h1 && in_range "0" "9" h2)
       || (Ascii.eqb h1 "2" && in_range "0" "3" h2))
      && Ascii.eqb c ":" && in_range "0" "5" m1 && in_range "0" "9" m2
  | _ => false
  end.

(** [getItemById(itemId, tripId)] *)
Definition getItemById (itemId tripId : string) : M tables Item.t :=
  rows <- query (fun d =>
    (Ok (List.filter (fun r => String.eqb (Item.id r) itemId
                               && String.eqb (Item.trip_id r) tripId)
           (itinerary_items d)), d)) ;;
  match rows with
  | [] => throw (NotFoundError "Itinerary item" itemId)
  | row :: _ => ret row
  end.

(** [getDayItems(tripId, day)] *)
Definition getDayItems (tripId : string) (day : Z) : M tables (list Item.t) :=
  query (fun d => (Ok (select_day_items tripId day d), d)).

(** The loop of [recalculateDayTimes] over the items read at its start,
    [currentTime] being the cursor. *)
Fixpoint reflow (items : list Item.t) (currentTime : string) : M tables unit :=
  match items with
  | [] => ret tt
  | item :: rest =>
      if Item.is_pinned item && negb (String.eqb (Item.start_time item) currentTime)
      then reflow rest (Item.end_time item)
      else
        let newStartTime := currentTime in
        let newEndTime := TimeOfDay.addMinutes newStartTime (Item.duration_minutes item) in
        query (update_items (fun r => String.eqb (Item.id r) (Item.id item))
                 (Item.set_times newStartTime newEndTime)) ;;;
        reflow rest newEndTime
  end.

(** [recalculateDayTimes(tripId, day)] *)
Definition recalculateDayTimes (tripId : string) (day : Z) : M tables unit :=
  items <- getDayItems tripId day ;;
  tp <- TripService.getTripWithPreferences tripId None None ;;
  reflow items (Prefs.daily_time_window_start (snd tp)).

(** [createVersionSnapshot(tripId, changeType, changedBy)] *)
Definition createVersionSnapshot (tripId changeType : string) (changedBy : option string)
    : M tables unit :=
  try_catch
    (found <- ItineraryGeneratorService.getItineraryByTripId tripId ;;
     match found with
     | None => ret tt
     | Some itinerary =>
         previousVersion <-
           catch_default
             (v <- ItineraryVersionService.getVersion tripId (Itinerary.version itinerary - 1) ;;
              ret (Some v)) None ;;
         ItineraryVersionService.createSnapshot tripId changeType changedBy previousVersion ;;;
         ret tt
     end)
    (fun _ => ret tt).

(** [SELECT id ... WHERE trip_id = $1 AND day = $2 AND id = ANY($3)] *)
Definition select_listed (tripId : string) (day : Z) (itemIds : list string) (d : tables)
    : list Item.t :=
  List.filter (fun r => String.eqb (Item.trip_id r) tripId && (Item.day r =? day)
                        && existsb (String.eqb (Item.id r)) itemIds)
    (itinerary_items d).

(** [reorderItems(tripId, day, itemIds)] *)
Definition reorderItems (tripId : string) (day : Z) (itemIds : list string)
    : M tables (list Item.t) :=
  rows <- query (fun d => (Ok (select_listed tripId day itemIds d), d)) ;;
  if negb (Nat.eqb (length rows) (length itemIds))
  then throw (ValidationError "Some items not found or belong to different day")
  else
    for_each (combine (seqZ 0 (Z.of_nat (length itemIds))) itemIds) (fun entry =>
      let '(i, itemId) := entry in
      query (update_items (fun r => String.eqb (Item.id r) itemId
                                    && String.eqb (Item.trip_id r) tripId)
               (Item.set_order i))) ;;;
    recalculateDayTimes tripId day ;;;
    createVersionSnapshot tripId "reorder" None ;;;
    getDayItems tripId day.

(** [togglePin(tripId, itemId, pinned, changedBy)]; the change type is
    ['pin'] or ['unpin']. *)
Definition togglePin (tripId itemId : string) (pinned : bool) (changedBy : option string)
    : M tables Item.t :=
  query (update_items (fun r => String.eqb (Item.id r) itemId
                                && String.eqb (Item.trip_id r) tripId)
           (Item.set_pinned pinned)) ;;;
  createVersionSnapshot tripId (if pinned then "pin" else "unpin") changedBy ;;;
  getItemById itemId tripId.

(** [setStartTime(tripId, itemId, startTime, changedBy)] *)
Definition setStartTime (tripId itemId startTime : string) (changedBy : option string)
    : M tables Item.t :=
  if negb (timeRegex_test startTime)
  then throw (ValidationError "Invalid time format. Use HH:mm")
  else
    item <- getItemById itemId tripId ;;
    let endTime := TimeOfDay.addMinutes startTime (Item.duration_minutes item) in
    query (update_items (fun r => String.eqb (Item.id r) itemId
                                  && String.eqb (Item.trip_id r) tripId)
             (Item.set_times startTime endTime)) ;;;
    recalculateDayTimes tripId (Item.day item) ;;;
    createVersionSnapshot tripId "time_change" changedBy ;;;
    getItemById itemId tripId.

(** [removeItem(tripId, itemId, changedBy)] *)
Definition removeItem (tripId itemId : string) (changedBy : option string) : M tables unit :=
  item <- getItemById itemId tripId ;;
  if Item.is_pinned item
  then throw (ValidationError "Cannot remove pinned item. Unpin it first.")
  else
    query (delete_item itemId tripId) ;;;
    recalculateDayTimes tripId (Item.day item) ;;;
    createVersionSnapshot tripId "remove" changedBy.

(** [addItem(tripId, day, poiId, startTime, changedBy)] *)
Definition addItem (tripId : string) (day : Z) (poiId : string) (startTime changedBy : option string)
    : M tables Item.t :=
  poi <- POIService.getPOIById poiId ;;
  tp <- TripService.getTripWithPreferences tripId None None ;;
  existingItems <- getDayItems tripId day ;;
  let itemStartTime :=
    match or_null startTime with
    | Some s => s
    | None =>
        match last existingItems with
        | Some lastItem => TimeOfDay.addMinutes (Item.end_time lastItem) DEFAULT_BUFFER_MINUTES
        | None => Prefs.daily_time_window_start (snd tp)
        end
    end in
  let itemEndTime := TimeOfDay.addMinutes itemStartTime (POI.avg_duration_minutes poi) in
  itemId <- uuidv4 ;;
  query (insert_item
    {| Item.id := itemId;
       Item.trip_id := tripId;
       Item.day := day;
       Item.item_type := "poi";
       Item.poi_id := Some (POI.id poi);
       Item.name := POI.name poi;
       Item.location := Some (POI.location poi);
       Item.start_time := itemStartTime;
       Item.end_time := itemEndTime;
       Item.duration_minutes := POI.avg_duration_minutes poi;
       Item.is_pinned := false;
       Item.order := Z.of_nat (length existingItems);
       Item.route_from_previous := None;
       Item.cost_estimate :=
         option_map (fun pr =>
           {| Cost.amount := Js.half (Js.add (PriceRange.min pr) (PriceRange.max pr));
              Cost.currency := PriceRange.currency pr;
              Cost.confidence := "estimated" |}) (POI.price_range poi) |}) ;;;
  recalculateDayTimes tripId day ;;;
  createVersionSnapshot tripId "add" changedBy ;;;
  getItemById itemId tripId.

(** The editor operations a client can ask for. *)
Inductive operation : Type :=
| Reorder (tripId : string) (day : Z) (itemIds : list string)
| TogglePin (tripId itemId : string) (pinned : bool) (changedBy : option string)
| SetStartTime (tripId itemId startTime : string) (changedBy : option string)
| Add (tripId : string) (day : Z) (poiId : string) (startTime changedBy : option string)
| Remove (tripId itemId : string) (changedBy : option string).

Definition perform (o : operation) : M tables unit :=
  match o with
  | Reorder tripId day itemIds => reorderItems tripId day itemIds ;;; ret tt
  | TogglePin tripId itemId pinned changedBy => togglePin tripId itemId pinned changedBy ;;; ret tt
  | SetStartTime tripId itemId startTime changedBy =>
      setStartTime tripId itemId startTime changedBy ;;; ret tt
  | Add tripId day poiId startTime changedBy =>
      addItem tripId day poiId startTime changedBy ;;; ret tt
  | Remove tripId itemId changedBy => removeItem tripId itemId changedBy
  end.

(** A sequence of requests, each answered on its own: an operation that
    throws is reported to its caller and the next one runs. *)
Definition perform_all (ops : list operation) : M tables unit :=
  for_each ops (fun o => try_catch (perform o) (fun _ => ret tt)).

End ItineraryEditorService.

(* ===================================================================== *)
(** * [EventMonitorService] *)
(* ===================================================================== *)
Module EventMonitorService.
Import Db Plan.

Definition insert_signal (row : Signal.t) (d : tables) : result unit * tables :=
  if existsb (fun r => String.eqb (Signal.id r) (Signal.id row)) (event_signals d)
  then (duplicate_key, d)
  else (Ok tt, set_signals (fun rows => rows ++ [row])%list d).

Definition insert_trigger (row : Trigger.t) (d : tables) : result unit * tables :=
  if existsb (fun r => String.eqb (Trigger.id r) (Trigger.id row)) (replan_triggers d)
  then (duplicate_key, d)
  else (Ok tt, set_triggers (fun rows => rows ++ [row])%list d).

(** [getEventSignalById(eventId)] *)
Definition getEventSignalById (eventId : string) : M tables Signal.t :=
  rows <- query (fun d =>
    (Ok (List.filter (fun r => String.eqb (Signal.id r) eventId) (event_signals d)), d)) ;;
  match rows with
  | [] => throw (NotFoundError "Event signal" eventId)
  | row :: _ => ret row
  end.

(** [createReplanTrigger(tripId, eventSignalId, reason, priority = 'medium')]:
    an argument left out is [None]. *)
Definition createReplanTrigger (tripId eventSignalId reason : string)
    (priority : option Severity) : M tables Trigger.t :=
  let priority := default medium priority in
  triggerId <- uuidv4 ;;
  let row := {| Trigger.id := triggerId;
                Trigger.trip_id := tripId;
                Trigger.event_signal_id := eventSignalId;
                Trigger.reason := reason;
                Trigger.priority := priority;
                Trigger.processed := false |} in
  query (insert_trigger row) ;;;
  ret row.

(** [markTriggerProcessed(triggerId)] *)
Definition markTriggerProcessed (triggerId : string) : M tables unit :=
  query (fun d =>
    (Ok tt, set_triggers (List.map (fun r =>
       if String.eqb (Trigger.id r) triggerId
       then {| Trigger.id := Trigger.id r; Trigger.trip_id := Trigger.trip_id r;
               Trigger.event_signal_id := Trigger.event_signal_id r;
               Trigger.reason := Trigger.reason r; Trigger.priority := Trigger.priority r;
               Trigger.processed := true |}
       else r)) d)).

(** The text of the [priority] column, a [VARCHAR]. *)
Definition priority_text (p : Severity) : string :=
  match p with
  | low => "low"
  | medium => "medium"
  | high => "high"
  end.

(** [ORDER BY priority DESC]: the order of the text of the column. *)
Definition by_priority_desc (a b : Trigger.t) : bool :=
  text_le (priority_text (Trigger.priority b)) (priority_text (Trigger.priority a)).

(** [WHERE processed = FALSE], and [AND trip_id = $1] when a trip is
    given. *)
Definition is_pending (tripId : option string) (r : Trigger.t) : bool :=
  negb (Trigger.processed r)
  && match or_null tripId with
     | Some t => String.eqb (Trigger.trip_id r) t
     | None => true
     end.

(** [getPendingReplanTriggers(tripId?)]: [ORDER BY priority DESC,
    created_at ASC], the rows of one priority in the order they were
    written. *)
Definition getPendingReplanTriggers (tripId : option string) : M tables (list Trigger.t) :=
  query (fun d =>
    (Ok (sort_by by_priority_desc (List.filter (is_pending tripId) (replan_triggers d))), d)).

Definition Severity_eqb (a b : Severity) : bool :=
  match a, b with
  | low, low | medium, medium | high, high => true
  | _, _ => false
  end.

Definition condition_of (details : EventDetails) : option string :=
  match details with
  | WeatherEventDetails condition _ => Some condition
  | ClosureEventDetails _ _ => None
  end.

Section Ingest.

(** [findAffectedItems(itinerary, location, timeSlot, eventType)] compares
    ISO datetimes and Haversine distances in floating point; the list of
    ids it returns is a parameter here. *)
Variable findAffectedItems : Itinerary.t -> Location -> TimeSlot -> string -> list string.

(** [ingestWeatherEvent(tripId, location, timeSlot, details, severity)] *)
Definition ingestWeatherEvent (tripId : string) (location : Location) (timeSlot : TimeSlot)
    (details : EventDetails) (severity : Severity) : M tables Signal.t :=
  found <- ItineraryGeneratorService.getItineraryByTripId tripId ;;
  match found with
  | None => throw (NotFoundError "Itinerary" tripId)
  | Some itinerary =>
      let affectedItems := findAffectedItems itinerary location timeSlot "weather" in
      eventId <- uuidv4 ;;
      query (insert_signal
        {| Signal.id := eventId; Signal.trip_id := tripId; Signal.event_type := "weather";
           Signal.severity := severity; Signal.location := location;
           Signal.time_slot := timeSlot; Signal.details := details;
           Signal.affected_items := affectedItems;
           Signal.processed := false; Signal.replan_triggered := false |}) ;;;
      (if Severity_eqb severity high
          && match condition_of details with
             | Some c => String.eqb c "heavy_rain"
             | None => false
             end
       then createReplanTrigger tripId eventId "Heavy rain affects outdoor activities" None ;;;
            ret tt
       else ret tt) ;;;
      getEventSignalById eventId
  end.

(** [ingestClosureEvent(tripId, location, timeSlot, details, severity)] *)
Definition ingestClosureEvent (tripId : string) (location : Location) (timeSlot : TimeSlot)
    (details : EventDetails) (severity : Severity) : M tables Signal.t :=
  found <- ItineraryGeneratorService.getItineraryByTripId tripId ;;
  match found with
  | None => throw (NotFoundError "Itinerary" tripId)
  | Some itinerary =>
      let affectedItems := findAffectedItems itinerary location timeSlot "closure" in
      eventId <- uuidv4 ;;
      query (insert_signal
        {| Signal.id := eventId; Signal.trip_id := tripId; Signal.event_type := "closure";
           Signal.severity := severity; Signal.location := location;
           Signal.time_slot := timeSlot; Signal.details := details;
           Signal.affected_items := affectedItems;
           Signal.processed := false; Signal.replan_triggered := false |}) ;;;
      (if Severity_eqb severity high || Severity_eqb severity medium
       then createReplanTrigger tripId eventId "Place closure affects itinerary" None ;;;
            ret tt
       else ret tt) ;;;
      getEventSignalById eventId
  end.

End Ingest.

End EventMonitorService.

(* ===================================================================== *)
(** * [ReplanApplyService] *)
(* ===================================================================== *)
Module ReplanApplyService.
Import Db Plan.

Definition ROLLBACK_WINDOW_HOURS : Z := 24.

Record ApplyReplanRequest : Type := { proposal_id : string; idempotency_key : string }.

Record ApplyReplanResponse : Type := {
  success : bool;
  new_version_id : string;
  rollback_available_until : Js.Date
}.

(** [replanEngineService.getProposal(proposalId)] *)
Definition getProposal (proposalId : string) : M tables Proposal.t :=
  row <- query (fun d => (Ok (replan_proposals d !! proposalId), d)) ;;
  match row with
  | None => throw (NotFoundError "Replan proposal" proposalId)
  | Some proposal => ret proposal
  end.

(** [findItemInItinerary(itinerary, itemId)] *)
Fixpoint find_in_days (days : list Day.t) (itemId : string) : option Item.t :=
  match days with
  | [] => None
  | day :: rest =>
      match List.find (fun i => String.eqb (Item.id i) itemId) (Day.items day) with
      | Some item => Some item
      | None => find_in_days rest itemId
      end
  end.

Definition findItemInItinerary (itinerary : Itinerary.t) (itemId : string) : option Item.t :=
  find_in_days (Itinerary.days itinerary) itemId.

(** [getDayFromTime(itinerary, timeStr)]: [itinerary.days[0]?.day || 1] *)
Definition getDayFromTime (itinerary : Itinerary.t) (timeStr : string) : Z :=
  match Itinerary.days itinerary with
  | first :: _ => if Day.day first =? 0 then 1 else Day.day first
  | [] => 1
  end.

(** [parseTime(timeStr)]: minutes after 2000-01-01T00:00, times 60000. *)
Definition parseTime (timeStr : string) : option Z :=
  let parts := Js.split_colon timeStr in
  match Js.Number (parts !! 0%nat), Js.Number (parts !! 1%nat) with
  | Some hours, Some minutes => Some ((hours * 60 + minutes) * 60 * 1000)
  | _, _ => None
  end.

(** [calculateDuration(startTime, endTime)] *)
Definition calculateDuration (startTime endTime : string) : option Z :=
  match parseTime startTime, parseTime endTime with
  | Some start, Some end_ => Some ((end_ - start) / (1000 * 60))
  | _, _ => None
  end.

(** [calculateNewEndTime(newStartTime, oldStartTime, itinerary)] *)
Definition calculateNewEndTime (newStartTime oldStartTime : string) (itinerary : Itinerary.t)
    : string :=
  let duration := 120 in
  TimeOfDay.addMinutes newStartTime duration.

(** The row number, from 0, of each id of the day in [ORDER BY start_time]. *)
Definition day_ranks (tripId : string) (day : Z) (d : tables) : list (string * Z) :=
  let sub := sort_by by_start_time
               (List.filter (fun r => String.eqb (Item.trip_id r) tripId && (Item.day r =? day))
                  (itinerary_items d)) in
  combine (List.map Item.id sub) (seqZ 0 (Z.of_nat (length sub))).

(** [recalculateDayOrder(tripId, day)] *)
Definition recalculateDayOrder (tripId : string) (day : Z) : M tables unit :=
  query (fun d =>
    let ranks := day_ranks tripId day d in
    (Ok tt, set_items (List.map (fun r =>
       match map_get String.eqb (Item.id r) ranks with
       | Some n => Item.set_order n r
       | None => r
       end)) d)).

(** An [INSERT] whose duration is [NaN] is refused by the integer column. *)
Definition insert_poi_item (tripId itemId : string) (day : Z) (poi_id : option string)
    (name start_time end_time : string) (location : option Location) (d : tables)
    : result unit * tables :=
  match calculateDuration start_time end_time with
  | None => (Err (StorageError "invalid input syntax for type integer"), d)
  | Some duration =>
      insert_item
        {| Item.id := itemId;
           Item.trip_id := tripId;
           Item.day := day;
           Item.item_type := "poi";
           Item.poi_id := or_null poi_id;
           Item.name := name;
           Item.location := location;
           Item.start_time := start_time;
           Item.end_time := end_time;
           Item.duration_minutes := duration;
           Item.is_pinned := false;
           Item.order := 0;
           Item.route_from_previous := None;
           Item.cost_estimate := None |} d
  end.

(** [affectedDays.add(day)] on a [Set] kept in insertion order. *)
Definition set_add (day : Z) (s : list Z) : list Z :=
  if existsb (Z.eqb day) s then s else (s ++ [day])%list.

Definition affectedDays_of (changes : Changes.t) (itinerary : Itinerary.t) : list Z :=
  let s1 := fold_left (fun s m => set_add (Changes.new_day m) (set_add (Changes.old_day m) s))
              (Changes.moved_items changes) [] in
  let s2 := fold_left (fun s r =>
              match findItemInItinerary itinerary (Changes.old_item_id r) with
              | Some item => set_add (Item.day item) s
              | None => s
              end) (Changes.replaced_items changes) s1 in
  fold_left (fun s a => set_add (Changes.added_day a) s) (Changes.added_items changes) s2.

(** [applyChanges(proposal, itinerary)] *)
Definition applyChanges (proposal : Proposal.t) (itinerary : Itinerary.t) : M tables unit :=
  let changes := Proposal.changes proposal in
  let tripId := Proposal.trip_id proposal in
  for_each (Changes.removed_items changes) (fun removed =>
    query (delete_item (Changes.removed_item_id removed) tripId)) ;;;
  for_each (Changes.replaced_items changes) (fun replaced =>
    query (delete_item (Changes.old_item_id replaced) tripId) ;;;
    let item := Changes.new replaced in
    query (insert_poi_item tripId (Changes.id item)
             (getDayFromTime itinerary (Changes.start_time item))
             (Changes.poi_id item) (Changes.name item)
             (Changes.start_time item) (Changes.end_time item) (Changes.location item))) ;;;
  for_each (Changes.moved_items changes) (fun moved =>
    query (update_items
             (fun r => String.eqb (Item.id r) (Changes.item_id moved)
                       && String.eqb (Item.trip_id r) tripId)
             (Item.set_day_times (Changes.new_day moved) (Changes.new_time moved)
                (calculateNewEndTime (Changes.new_time moved) (Changes.old_time moved) itinerary)))) ;;;
  for_each (Changes.added_items changes) (fun added =>
    query (insert_poi_item tripId (Changes.added_id added) (Changes.added_day added)
             (Changes.added_poi_id added) (Changes.added_name added)
             (Changes.added_start_time added) (Changes.added_end_time added) None)) ;;;
  for_each (affectedDays_of changes itinerary) (fun day => recalculateDayOrder tripId day).

Definition update_itinerary_version (tripId : string) (newVersion : Z) (d : tables)
    : result unit * tables :=
  (Ok tt, set_itineraries (fun m =>
     match m !! tripId with
     | Some row => <[tripId := {| ItineraryRow.id := ItineraryRow.id row;
                                  ItineraryRow.version := newVersion |}]> m
     | None => m
     end) d).

Definition insert_application (row : Application.t) (d : tables) : result unit * tables :=
  if existsb (fun r => String.eqb (Application.id r) (Application.id row)) (replan_applications d)
  then (duplicate_key, d)
  else (Ok tt, set_applications (fun rows => rows ++ [row])%list d).

(** [applyProposal(request, userId)] *)
Definition applyProposal (request : ApplyReplanRequest) (userId : option string)
    : M tables ApplyReplanResponse :=
  proposal <- getProposal (proposal_id request) ;;
  found <- ItineraryGeneratorService.getItineraryByTripId (Proposal.trip_id proposal) ;;
  match found with
  | None => throw (NotFoundError "Itinerary" (Proposal.trip_id proposal))
  | Some currentItinerary =>
      previousVersion <-
        catch_default
          (v <- ItineraryVersionService.getVersion (Proposal.trip_id proposal)
                  (Itinerary.version currentItinerary) ;;
           ret (Some v)) None ;;
      ItineraryVersionService.createSnapshot (Proposal.trip_id proposal) "replan" userId
        previousVersion ;;;
      query_begin ;;;
      try_catch
        (applyChanges proposal currentItinerary ;;;
         let newVersion := Itinerary.version currentItinerary + 1 in
         query (update_itinerary_version (Proposal.trip_id proposal) newVersion) ;;;
         applicationId <- uuidv4 ;;
         today <- now ;;
         let rollbackUntil := Js.plus_ms today (ROLLBACK_WINDOW_HOURS * 60 * 60 * 1000) in
         query (insert_application
           {| Application.id := applicationId;
              Application.trip_id := Proposal.trip_id proposal;
              Application.proposal_id := Proposal.id proposal;
              Application.applied_version := newVersion;
              Application.rollback_available_until := rollbackUntil;
              Application.rolled_back := false |}) ;;;
         match or_null (Proposal.trigger_id proposal) with
         | Some triggerId => EventMonitorService.markTriggerProcessed triggerId
         | None => ret tt
         end ;;;
         query_commit ;;;
         ret {| success := true;
                new_version_id := Js.toString (Some newVersion);
                rollback_available_until := rollbackUntil |})
        (fun error => query_rollback ;;; throw error)
  end.


(** [SELECT * FROM replan_applications WHERE id = $1 AND trip_id = $2] *)
Definition select_application (applicationId tripId : string) (d : tables) : list Application.t :=
  List.filter (fun r => String.eqb (Application.id r) applicationId
                        && String.eqb (Application.trip_id r) tripId)
    (replan_applications d).

(** [UPDATE replan_applications SET rolled_back = TRUE, rolled_back_at = NOW()
    WHERE id = $1] *)
Definition mark_rolled_back (applicationId : string) (d : tables) : result unit * tables :=
  (Ok tt, set_applications (List.map (fun r =>
     if String.eqb (Application.id r) applicationId
     then {| Application.id := Application.id r;
             Application.trip_id := Application.trip_id r;
             Application.proposal_id := Application.proposal_id r;
             Application.applied_version := Application.applied_version r;
             Application.rollback_available_until := Application.rollback_available_until r;
             Application.rolled_back := true |}
     else r)) d).

(** [rollbackReplan(tripId, applicationId, userId)] *)
Definition rollbackReplan (tripId applicationId : string) (userId : option string)
    : M tables unit :=
  rows <- query (fun d => (Ok (select_application applicationId tripId d), d)) ;;
  match rows with
  | [] => throw (NotFoundError "Replan application" applicationId)
  | application :: _ =>
      today <- now ;;
      if Js.gt today (Application.rollback_available_until application)
      then throw (ValidationError "Rollback window has expired")
      else if Application.rolled_back application
      then throw (ValidationError "Replan has already been rolled back")
      else
        let previousVersion := Application.applied_version application - 1 in
        ItineraryVersionService.rollbackToVersion tripId previousVersion userId None ;;;
        query (mark_rolled_back applicationId)
  end.

(** The first loop of [validateAppliedItinerary] over the items of a day:
    the [SELECT] on [pois] is awaited in a [try], and an issue is pushed
    when it throws. *)
Fixpoint orphan_issues (items : list Item.t) (issues : list string) : M tables (list string) :=
  match items with
  | [] => ret issues
  | item :: rest =>
      match or_null (Item.poi_id item) with
      | Some poiId =>
          issues' <- try_catch
                       (query (fun d => (Ok (pois d !! poiId), d)) ;;; ret issues)
                       (fun _ => ret (issues ++ [("Item " ++ Item.id item
                                  ++ " references non-existent POI " ++ poiId)%string])%list) ;;
          orphan_issues rest issues'
      | None => orphan_issues rest issues
      end
  end.

Fixpoint orphan_issues_days (days : list Day.t) (issues : list string) : M tables (list string) :=
  match days with
  | [] => ret issues
  | day :: rest =>
      issues' <- orphan_issues (Day.items day) issues ;;
      orphan_issues_days rest issues'
  end.

(** The second loop: the items of a day by start time, each against the
    one before it. *)
Fixpoint conflicts (dayNum : Z) (previous : Item.t) (items : list Item.t) : list string :=
  match items with
  | [] => []
  | item :: rest =>
      ((if text_lt (Item.start_time item) (Item.end_time previous)
        then [("Time conflict in day " ++ Js.toString (Some dayNum) ++ ": "
               ++ Item.name previous ++ " and " ++ Item.name item)%string]
        else []) ++ conflicts dayNum item rest)%list
  end.

Definition day_conflicts (day : Day.t) : list string :=
  match sort_by by_start_time (Day.items day) with
  | [] => []
  | first :: rest => conflicts (Day.day day) first rest
  end.

Record AppliedValidation : Type := { valid : bool; issues : list string }.

(** [validateAppliedItinerary(tripId)] *)
Definition validateAppliedItinerary (tripId : string) : M tables AppliedValidation :=
  found <- ItineraryGeneratorService.getItineraryByTripId tripId ;;
  match found with
  | None => throw (NotFoundError "Itinerary" tripId)
  | Some itinerary =>
      orphans <- orphan_issues_days (Itinerary.days itinerary) [] ;;
      let all := (orphans ++ flat_map day_conflicts (Itinerary.days itinerary))%list in
      ret {| valid := Nat.eqb (length all) 0; issues := all |}
  end.

End ReplanApplyService.

(* ===================================================================== *)
(** * The vocabulary of the properties *)
(* ===================================================================== *)
Module Spec.
Import Db Booking Plan.

(** ** Relations kept by every step of a computation

    [preserves R m]: whatever [m] returns, the tables it leaves are related
    by [R] to the tables it found.  The transaction statements are not of
    this kind and are treated where they occur. *)
Definition preserves {T A} (R : T -> T -> Prop) (m : M T A) : Prop :=
  forall w r w', m w = (r, w') -> R (db w) (db w').

(** The transition graph in the words of the specification. *)
Inductive transition : option BookingStatus -> BookingStatus -> Prop :=
| t_create : transition None pending
| t_confirm : transition (Some pending) confirmed
| t_fail : transition (Some pending) failed
| t_retry : transition (Some failed) pending
| t_cancel : transition (Some confirmed) canceled
| t_refund_confirmed : transition (Some confirmed) refunded
| t_refund_canceled : transition (Some canceled) refunded.

(** The first day of the itinerary in the words of the claim:
    [itinerary.days[0].day], or 1 when there are no days. *)
Definition first_day (itinerary : Itinerary.t) : Z :=
  match Itinerary.days itinerary with
  | first :: _ => Day.day first
  | [] => 1
  end.

(** A row of [itinerary_items] with this id, trip and day. *)
Definition placed (itemId tripId : string) (day : Z) (d : tables) : Prop :=
  exists row, In row (itinerary_items d)
              /\ Item.id row = itemId /\ Item.trip_id row = tripId /\ Item.day row = day.


(** The time re-flow policy in the words of the specification: a pinned
    item whose start differs from the cursor keeps its times and the cursor
    becomes [max(cursor, item.end)]; every other item starts at the cursor
    and the cursor becomes its new end. *)
Definition time_max (a b : string) : string := if text_lt a b then b else a.

Fixpoint reflow_policy (items : list Item.t) (cursor : string) : list Item.t :=
  match items with
  | [] => []
  | item :: rest =>
      if Item.is_pinned item && negb (String.eqb (Item.start_time item) cursor)
      then item :: reflow_policy rest (time_max cursor (Item.end_time item))
      else
        let finish := TimeOfDay.addMinutes cursor (Item.duration_minutes item) in
        Item.set_times cursor finish item :: reflow_policy rest finish
  end.

(** Name and times of each item, as a reader of the day sees them. *)
Definition timetable (items : list Item.t) : list (string * string * string) :=
  List.map (fun item => (Item.name item, Item.start_time item, Item.end_time item)) items.

(** The versions of the snapshots of a trip, in the order they were
    written, and the current version of its itinerary. *)
Definition snapshot_versions (tripId : string) (d : tables) : list Z :=
  List.map Version.version
    (List.filter (fun r => String.eqb (Version.trip_id r) tripId) (itinerary_versions d)).

Definition current_version (tripId : string) (d : tables) : option Z :=
  option_map ItineraryRow.version (itineraries d !! tripId).

(** [v] is the highest number of [l]. *)
Definition highest (l : list Z) (v : Z) : Prop := In v l /\ Forall (fun x => x <= v) l.

(** The tables [d'] are [d] with snapshots appended, each carrying the
    version its trip's itinerary has, and with the same [itineraries]. *)
Definition snapshots_appended (d d' : tables) : Prop :=
  itineraries d' = itineraries d
  /\ exists rows,
       itinerary_versions d' = (itinerary_versions d ++ rows)%list
       /\ Forall (fun row => exists r, itineraries d !! Version.trip_id row = Some r
                                       /\ Version.version row = ItineraryRow.version r) rows.

(** The tables [d'] have the rows of [itinerary_items] that [d] has. *)
Definition same_items (d d' : tables) : Prop := itinerary_items d' = itinerary_items d.

(** An item as a reader of the plan places it: its id, day and times. *)
Definition position (item : Item.t) : string * Z * string * string :=
  (Item.id item, Item.day item, Item.start_time item, Item.end_time item).





(** ** The state history of a booking

    [history_of bookingId d] is what [getBookingStateHistory] reads.  A
    history is [chained] from a status when every row starts where the one
    before it ended and is an edge of the transition graph; [last_status]
    is where it ends. *)
Definition history_of (bookingId : string) (d : Booking.tables) : list BookingStateHistory :=
  List.filter (fun h => String.eqb (booking_id h) bookingId) (booking_state_history d).

Fixpoint chained (from : option BookingStatus) (rows : list BookingStateHistory) : Prop :=
  match rows with
  | [] => True
  | h :: rest =>
      from_status h = from /\ transition from (to_status h) /\ chained (Some (to_status h)) rest
  end.

Definition last_status (from : option BookingStatus) (rows : list BookingStateHistory)
    : option BookingStatus :=
  fold_left (fun _ h => Some (to_status h)) rows from.

(** The history of every stored booking is a path of the graph from [null]
    to the status the booking has, and there is no history without a
    booking. *)
Definition history_consistent (d : Booking.tables) : Prop :=
  forall bookingId,
    match bookings d !! bookingId with
    | Some b => chained None (history_of bookingId d)
                /\ last_status None (history_of bookingId d) = Some (status b)
    | None => history_of bookingId d = []
    end.


Definition sent_for_retry (booking : Booking) (today : Z) : ProviderRequest :=
  {| provider_item_id := external_booking_id booking;
     date := booking_date booking;
     time_slot := Booking.or_null (booking_time booking);
     travelers := traveler_details booking;
     prov_contact_info := contact_info booking;
     prov_idempotency_key := Booking.id booking ++ "-retry-" ++ Js.toString (Some today) |}.

(** The error the orchestrator ends with when the provider throws [e], or
    answers with a status that is not [confirmed]: the orchestrator then
    asks for pending -> pending, which the graph refuses. *)
Definition unconfirmed (r : result BookingResponse) : option error :=
  match r with
  | Err e => Some e
  | Ok response =>
      match resp_status response with
      | confirmed => None
      | _ => Some (ValidationError "Invalid state transition from pending to pending")
      end
  end.

(** The history row [addStateHistory] writes. *)
Definition history_row (bookingId : string) (from : option BookingStatus) (to : BookingStatus)
    (reason changedBy : option string) : BookingStateHistory :=
  {| booking_id := bookingId; from_status := from; to_status := to;
     reason := Booking.or_null reason; changed_by := Booking.or_null changedBy |}.

(** What the provider does with the retry of a booking: a provider that is
    not registered counts as one that throws. *)
Definition retry_outcome (getProvider : string -> option ProviderAdapter) (booking : Booking)
    (today : Z) : result BookingResponse :=
  match getProvider (provider_id booking) with
  | None => Err (NotFoundError "Provider" (provider_id booking))
  | Some provider => provider_createBooking provider (sent_for_retry booking today)
  end.

(** ** Snapshots and the rows of a trip *)

(** The items of a list of days, day by day. *)
Definition items_of (days : list Day.t) : list Item.t := flat_map Day.items days.

Definition empty_diff : Diff.t :=
  {| Diff.added_items := []; Diff.removed_items := [];
     Diff.moved_items := []; Diff.modified_items := [] |}.

(** The rows of [itinerary_items] of a trip, and the rows of the others, in
    the order of the table. *)
Definition trip_rows (tripId : string) (d : tables) : list Item.t :=
  List.filter (fun r => String.eqb (Item.trip_id r) tripId) (itinerary_items d).

Definition other_rows (tripId : string) (d : tables) : list Item.t :=
  List.filter (fun r => negb (String.eqb (Item.trip_id r) tripId)) (itinerary_items d).

(** ** Items in sequence

    Each item starts no earlier than the one before it ends, in the text
    order of [HH:mm]; and no item ends before it starts. *)
Fixpoint in_sequence (previous : Item.t) (items : list Item.t) : Prop :=
  match items with
  | [] => True
  | item :: rest =>
      text_lt (Item.start_time item) (Item.end_time previous) = false /\ in_sequence item rest
  end.

Definition ends_after_start (item : Item.t) : Prop :=
  text_le (Item.start_time item) (Item.end_time item) = true.

(** [a] is over when [b] starts. *)
Definition over_before (a b : Item.t) : Prop :=
  text_le (Item.end_time a) (Item.start_time b) = true.
(** ** The re-flow of a day

    [untimed item] is the item without its times: a change [f] of rows
    [changes_times_only] when it leaves every row the same apart from its
    start and end.  [retime items cursor row] is what the updates sent by
    the re-flow of [items], none of them pinned, make of [row]: each update
    goes by the id alone.  [outside_day] are the rows that are not of the
    day, in the order of the table. *)
Definition untimed (item : Item.t) : Item.t := Item.set_times "" "" item.

Definition changes_times_only (f : Item.t -> Item.t) : Prop :=
  forall row, untimed (f row) = untimed row.

Fixpoint retime (items : list Item.t) (cursor : string) (row : Item.t) : Item.t :=
  match items with
  | [] => row
  | item :: rest =>
      let finish := TimeOfDay.addMinutes cursor (Item.duration_minutes item) in
      retime rest finish
        (if String.eqb (Item.id row) (Item.id item) then Item.set_times cursor finish row else row)
  end.

Definition in_day (tripId : string) (day : Z) (row : Item.t) : bool :=
  String.eqb (Item.trip_id row) tripId && (Item.day row =? day).

Definition outside_day (tripId : string) (day : Z) (d : tables) : list Item.t :=
  List.filter (fun row => negb (in_day tripId day row)) (itinerary_items d).

Definition unpinned (item : Item.t) : Prop := Item.is_pinned item = false.

(** The groups of [getItineraryByTripId]: none is empty and each holds rows
    of its own day. *)
Definition groups_hold (acc : list (Z * list Item.t)) : Prop :=
  Forall (fun entry => snd entry <> []
                       /\ Forall (fun item => Item.day item = fst entry) (snd entry)) acc.
(** ** The order of a day

    [set_orders tripId positions row] is what the updates sent by
    [reorderItems] for the pairs of a position and an id make of [row];
    a change of rows [changes_order_only] when it leaves every row the same
    apart from its position. *)
Fixpoint set_orders (tripId : string) (positions : list (Z * string)) (row : Item.t) : Item.t :=
  match positions with
  | [] => row
  | (i, itemId) :: rest =>
      set_orders tripId rest
        (if String.eqb (Item.id row) itemId && String.eqb (Item.trip_id row) tripId
         then Item.set_order i row else row)
  end.

Definition unordered (item : Item.t) : Item.t := Item.set_order 0 item.

Definition changes_order_only (f : Item.t -> Item.t) : Prop :=
  forall row, unordered (f row) = unordered row.

(** ** Pending triggers

    The pending triggers of the table in the order they were written, and
    those of one priority among some rows. *)
Definition pending (tripId : option string) (d : tables) : list Trigger.t :=
  List.filter (EventMonitorService.is_pending tripId) (replan_triggers d).

Definition of_priority (p : Severity) (rows : list Trigger.t) : list Trigger.t :=
  List.filter (fun r => EventMonitorService.Severity_eqb (Trigger.priority r) p) rows.

(** ** Pins

    What the update of [togglePin] makes of a row. *)
Definition pin_row (tripId itemId : string) (pinned : bool) (row : Item.t) : Item.t :=
  if String.eqb (Item.id row) itemId && String.eqb (Item.trip_id row) tripId
  then Item.set_pinned pinned row else row.

(** ** Times of day

    [HH:mm] for an hour and a minute, as [addMinutes] prints them. *)
Definition clock_text (h m : Z) : string :=
  Js.padStart2 (Js.toString (Some h)) ++ ":" ++ Js.padStart2 (Js.toString (Some m)).
End Spec.

(* ===================================================================== *)
(** * Scenario data *)
(* ===================================================================== *)
Module BookingScenario.
Import Db Booking.

Definition two_adults : TravelerDetails := {| adults := 2; children := None; seniors := None |}.

Definition contact : ContactInfo :=
  {| email := "traveler@example.com"; phone := None; contact_name := "Traveler" |}.

(** The create-booking request with [idempotency_key = K1]. *)
Definition request_K1 : CreateBookingRequest :=
  {| req_itinerary_item_id := None;
     req_provider_id := "stub-activity";
     provider_option_id := "opt-1";
     req_traveler_details := two_adults;
     req_contact_info := contact;
     req_booking_date := "2025-03-01";
     req_booking_time := Some "14:00";
     idempotency_key := "K1" |}.

Definition empty_tables : tables :=
  {| bookings := ∅; booking_state_history := []; booking_idempotency := ∅ |}.

(** The booking [createBooking "trip-1" request_K1] inserts in a fresh
    session, and the tables after the call. *)
Definition booking_K1 : Booking :=
  {| id := "uuid-0";
     trip_id := "trip-1";
     itinerary_item_id := None;
     provider_id := "stub-activity";
     external_booking_id := "pending";
     status := pending;
     price := {| amount := 0; currency := "THB" |};
     policies := {| cancellation := ""; refund := ""; cancellation_deadline := None |};
     voucher_url := None;
     voucher_data := None;
     confirmation_number := "UUID-1";
     traveler_details := two_adults;
     booking_date := "2025-03-01";
     booking_time := Some "14:00";
     contact_info := contact |}.

Definition tables_K1 : tables :=
  {| bookings := {[ "uuid-0" := booking_K1 ]};
     booking_state_history :=
       [{| booking_id := "uuid-0"; from_status := None; to_status := pending;
           reason := Some "Booking created"; changed_by := None |}];
     booking_idempotency := {[ "K1" := "uuid-0" ]} |}.

Definition world_K1 : world tables := World tables_K1 None None 2%nat 0.

(** No provider is registered. *)
Definition no_provider : string -> option ProviderAdapter := fun _ => None.

(** A provider that confirms every booking. *)
Definition confirming_provider : ProviderAdapter :=
  {| provider_createBooking := fun _ =>
       Ok {| resp_booking_id := "ext-1";
             resp_status := confirmed;
             resp_price := {| amount := 1500; currency := "THB" |};
             resp_policies := {| cancellation := "free"; refund := "full";
                                 cancellation_deadline := None |};
             resp_voucher_url := None;
             resp_voucher_data := None;
             resp_confirmation_number := "CONF1" |};
     provider_cancelBooking := fun _ => Ok tt |}.

Definition one_provider : string -> option ProviderAdapter := fun _ => Some confirming_provider.

(** The orchestrator's [createBooking] for [request_K1], and its replay. *)
Definition orchestrated_first : result Booking * world tables :=
  orchestrator_createBooking one_provider "trip-1" request_K1 None (healthy empty_tables).

Definition orchestrated_replay : result Booking * world tables :=
  orchestrator_createBooking one_provider "trip-1" request_K1 None (snd orchestrated_first).

End BookingScenario.

(** Scenario 1 of the specification: a trip 2025-03-01..2025-03-02 with the
    window 10:00–20:00 and the POIs A and B. *)
Module GenerationScenario.
Import Db Plan ItineraryGeneration.

Definition all_week (open close : string) : list (string * Hours.t) :=
  List.map (fun dayName =>
    (dayName, {| Hours.open := open; Hours.close := close; Hours.closed := None |}))
    ItineraryGeneratorService.dayNames.

Definition poi_A : POI.t :=
  {| POI.id := "poi-A"; POI.name := "A";
     POI.location := {| lat := 13.75; lng := 100.50 |};
     POI.hours := Some (all_week "09:00" "17:00");
     POI.tags := [];
     POI.avg_duration_minutes := 120;
     POI.price_range := Some {| PriceRange.min := 500; PriceRange.max := 500;
                                PriceRange.currency := "THB" |} |}.

Definition poi_B : POI.t :=
  {| POI.id := "poi-B"; POI.name := "B";
     POI.location := {| lat := 13.76; lng := 100.51 |};
     POI.hours := Some (all_week "09:00" "18:00");
     POI.tags := [];
     POI.avg_duration_minutes := 90;
     POI.price_range := Some {| PriceRange.min := 200; PriceRange.max := 200;
                                PriceRange.currency := "THB" |} |}.

Definition prefs_march : Prefs.t :=
  {| Prefs.trip_id := "trip-1";
     Prefs.dates_start := Js.date_of_ymd 2025 3 1;
     Prefs.dates_end := Js.date_of_ymd 2025 3 2;
     Prefs.budget_currency := "THB";
     Prefs.daily_time_window_start := "10:00";
     Prefs.daily_time_window_end := "20:00" |}.

Definition trip_1 : Trip.t :=
  {| Trip.id := "trip-1"; Trip.user_id := Some "user-1";
     Trip.guest_session_id := None; Trip.status := "planning" |}.

Definition tables_march : tables :=
  {| trips := {[ "trip-1" := trip_1 ]};
     trip_preferences := {[ "trip-1" := prefs_march ]};
     pois := {[ "poi-A" := poi_A; "poi-B" := poi_B ]};
     itineraries := ∅;
     itinerary_items := [];
     itinerary_versions := [];
     event_signals := [];
     replan_triggers := [];
     replan_proposals := ∅;
     replan_applications := [] |}.

Definition request_AB : GenerateItineraryRequest :=
  {| selected_poi_ids := ["poi-A"; "poi-B"];
     regenerate_mode := None;
     preserve_pinned := None |}.

(** What is read off a generated day: its number, the name and times of
    each item, and the day cost. *)
Definition day_summary (day : Day.t) : Z * list (string * string * string) * Q :=
  (Day.day day,
   List.map (fun item => (Item.name item, Item.start_time item, Item.end_time item))
     (Day.items day),
   amount (Day.total_cost_estimate day)).

Definition generated_days (calculateDistance : Q -> Q -> Q -> Q -> Q)
    : option (list (Z * list (string * string * string) * Q)) :=
  match fst (generateItinerary calculateDistance "trip-1" request_AB None None
               (healthy tables_march)) with
  | Ok r => Some (List.map day_summary (days r))
  | Err _ => None
  end.

End GenerationScenario.

(** Scenario 4 of the specification: one outdoor item, a heavy-rain event. *)
Module EventScenario.
Import Db Plan GenerationScenario.

Definition bangkok : Location := {| lat := 13.75; lng := 100.50 |}.

Definition outdoor_park : Item.t :=
  {| Item.id := "item-park";
     Item.trip_id := "trip-1";
     Item.day := 1;
     Item.item_type := "poi";
     Item.poi_id := Some "poi-A";
     Item.name := "OutdoorPark";
     Item.location := Some bangkok;
     Item.start_time := "14:00";
     Item.end_time := "16:00";
     Item.duration_minutes := 120;
     Item.is_pinned := false;
     Item.order := 0;
     Item.route_from_previous := None;
     Item.cost_estimate := None |}.

Definition tables_park : tables :=
  {| trips := {[ "trip-1" := trip_1 ]};
     trip_preferences := {[ "trip-1" := prefs_march ]};
     pois := {[ "poi-A" := poi_A; "poi-B" := poi_B ]};
     itineraries := {[ "trip-1" := {| ItineraryRow.id := "itin-1"; ItineraryRow.version := 1 |} ]};
     itinerary_items := [outdoor_park];
     itinerary_versions := [];
     event_signals := [];
     replan_triggers := [];
     replan_proposals := ∅;
     replan_applications := [] |}.

Definition rain_slot : TimeSlot :=
  {| slot_start := "2025-03-01T13:00"; slot_end := "2025-03-01T17:00" |}.

Definition heavy_rain : EventDetails :=
  WeatherEventDetails "heavy_rain" "outdoor_activities_affected".

(** The park is what the event affects. *)
Definition park_affected : Itinerary.t -> Location -> TimeSlot -> string -> list string :=
  fun _ _ _ _ => ["item-park"].

(** The triggers in the table after the heavy-rain event is ingested. *)
Definition triggers_after_rain : list Trigger.t :=
  replan_triggers (db (snd (EventMonitorService.ingestWeatherEvent park_affected
    "trip-1" bangkok rain_slot heavy_rain high (healthy tables_park)))).

End EventScenario.

(** A two-day itinerary at version 1 and three stored proposals. *)
Module ReplanScenario.
Import Db Plan GenerationScenario EventScenario ReplanApplyService.

Definition cafe : Item.t :=
  {| Item.id := "item-cafe";
     Item.trip_id := "trip-1";
     Item.day := 2;
     Item.item_type := "poi";
     Item.poi_id := Some "poi-B";
     Item.name := "Riverside walk";
     Item.location := Some {| lat := 13.76; lng := 100.51 |};
     Item.start_time := "10:00";
     Item.end_time := "11:00";
     Item.duration_minutes := 60;
     Item.is_pinned := false;
     Item.order := 0;
     Item.route_from_previous := None;
     Item.cost_estimate := None |}.

Definition temple : Item.t :=
  {| Item.id := "item-temple";
     Item.trip_id := "trip-1";
     Item.day := 2;
     Item.item_type := "poi";
     Item.poi_id := None;
     Item.name := "Temple";
     Item.location := None;
     Item.start_time := "12:00";
     Item.end_time := "13:00";
     Item.duration_minutes := 60;
     Item.is_pinned := true;
     Item.order := 1;
     Item.route_from_previous := None;
     Item.cost_estimate := None |}.

Definition no_changes : Changes.t :=
  {| Changes.replaced_items := []; Changes.moved_items := [];
     Changes.removed_items := []; Changes.added_items := [] |}.

(** Replace the day-2 walk by an indoor place. *)
Definition replace_walk : Changes.replaced :=
  {| Changes.old_item_id := "item-cafe";
     Changes.old_item_name := "Riverside walk";
     Changes.new := {| Changes.id := "item-indoor";
                       Changes.name := "Museum";
                       Changes.poi_id := Some "poi-A";
                       Changes.start_time := "10:00";
                       Changes.end_time := "11:30";
                       Changes.location := Some bangkok |} |}.

Definition proposal_replace : Proposal.t :=
  {| Proposal.id := "prop-replace"; Proposal.trip_id := "trip-1";
     Proposal.trigger_id := Some "trig-1";
     Proposal.changes :=
       {| Changes.replaced_items := [replace_walk]; Changes.moved_items := [];
          Changes.removed_items := []; Changes.added_items := [] |} |}.

(** Move the one-hour walk to day 1 at 17:00. *)
Definition proposal_move : Proposal.t :=
  {| Proposal.id := "prop-move"; Proposal.trip_id := "trip-1";
     Proposal.trigger_id := Some "trig-1";
     Proposal.changes :=
       {| Changes.replaced_items := [];
          Changes.moved_items :=
            [{| Changes.item_id := "item-cafe"; Changes.old_day := 2; Changes.new_day := 1;
                Changes.old_time := "10:00"; Changes.new_time := "17:00" |}];
          Changes.removed_items := []; Changes.added_items := [] |} |}.

(** Remove the park. *)
Definition proposal_remove : Proposal.t :=
  {| Proposal.id := "prop-remove"; Proposal.trip_id := "trip-1";
     Proposal.trigger_id := Some "trig-1";
     Proposal.changes :=
       {| Changes.replaced_items := []; Changes.moved_items := [];
          Changes.removed_items :=
            [{| Changes.removed_item_id := "item-park"; Changes.removed_name := "OutdoorPark";
                Changes.reason := "Weather conditions make this activity unsuitable" |}];
          Changes.added_items := [] |} |}.

Definition rain_trigger : Trigger.t :=
  {| Trigger.id := "trig-1"; Trigger.trip_id := "trip-1"; Trigger.event_signal_id := "event-1";
     Trigger.reason := "Heavy rain affects outdoor activities"; Trigger.priority := medium;
     Trigger.processed := false |}.

Definition tables_two_days : tables :=
  {| trips := {[ "trip-1" := trip_1 ]};
     trip_preferences := {[ "trip-1" := prefs_march ]};
     pois := {[ "poi-A" := poi_A; "poi-B" := poi_B ]};
     itineraries := {[ "trip-1" := {| ItineraryRow.id := "itin-1"; ItineraryRow.version := 1 |} ]};
     itinerary_items := [outdoor_park; cafe; temple];
     itinerary_versions := [];
     event_signals := [];
     replan_triggers := [rain_trigger];
     replan_proposals := {[ "prop-replace" := proposal_replace;
                            "prop-move" := proposal_move;
                            "prop-remove" := proposal_remove ]};
     replan_applications := [] |}.

(** The itinerary the services read from these tables. *)
Definition itinerary_two_days : option Itinerary.t :=
  match fst (ItineraryGeneratorService.getItineraryByTripId "trip-1" (healthy tables_two_days)) with
  | Ok found => found
  | Err _ => None
  end.

Definition apply_request (proposalId : string) : ApplyReplanRequest :=
  {| proposal_id := proposalId; idempotency_key := "apply-1" |}.

(** What a caller sees of the plan: the items, the itinerary version and
    the versions of the snapshots. *)
Definition observed (d : tables) : list Item.t * option Z * list Z :=
  (itinerary_items d,
   option_map ItineraryRow.version (itineraries d !! "trip-1"),
   List.map Version.version (itinerary_versions d)).

(** Day, times and duration of the item [itemId]. *)
Definition placement (itemId : string) (d : tables) : option (Z * string * string * Z) :=
  option_map (fun r => (Item.day r, Item.start_time r, Item.end_time r, Item.duration_minutes r))
    (List.find (fun r => String.eqb (Item.id r) itemId) (itinerary_items d)).

Definition current_itinerary : Itinerary.t :=
  default {| Itinerary.id := ""; Itinerary.trip_id := ""; Itinerary.days := [];
             Itinerary.total_cost_estimate := {| amount := 0; currency := "" |};
             Itinerary.version := 0 |}
    itinerary_two_days.

(** The apply of the remove-the-park proposal issues seventeen statements.
    For each of them forced to fail in turn: whether the apply went
    through, and what the caller sees afterwards. *)
Definition failure_points : list (bool * (list Item.t * option Z * list Z)) :=
  List.map (fun n =>
    let run := applyProposal (apply_request "prop-remove") None (failing tables_two_days n) in
    (is_ok (fst run), observed (db (snd run))))
    (seq 0 17).

End ReplanScenario.

(** A day whose second item is pinned early in the morning. *)
Module EditorScenario.
Import Db Plan Spec GenerationScenario ItineraryEditorService.

Definition plain_item (itemId name : string) (order duration : Z) (start_time end_time : string)
    (pinned : bool) : Item.t :=
  {| Item.id := itemId;
     Item.trip_id := "trip-1";
     Item.day := 1;
     Item.item_type := "poi";
     Item.poi_id := None;
     Item.name := name;
     Item.location := None;
     Item.start_time := start_time;
     Item.end_time := end_time;
     Item.duration_minutes := duration;
     Item.is_pinned := pinned;
     Item.order := order;
     Item.route_from_previous := None;
     Item.cost_estimate := None |}.

Definition item_X : Item.t := plain_item "item-x" "X" 0 60 "09:00" "10:00" false.
Definition item_Y : Item.t := plain_item "item-y" "Y" 1 30 "08:00" "08:30" true.
Definition item_Z : Item.t := plain_item "item-z" "Z" 2 30 "12:00" "12:30" false.

Definition tables_of (items : list Item.t) : tables :=
  {| trips := {[ "trip-1" := trip_1 ]};
     trip_preferences := {[ "trip-1" := prefs_march ]};
     pois := {[ "poi-A" := poi_A; "poi-B" := poi_B ]};
     itineraries := {[ "trip-1" := {| ItineraryRow.id := "itin-1"; ItineraryRow.version := 1 |} ]};
     itinerary_items := items;
     itinerary_versions := [];
     event_signals := [];
     replan_triggers := [];
     replan_proposals := ∅;
     replan_applications := [] |}.

Definition tables_XYZ : tables := tables_of [item_X; item_Y; item_Z].

(** The day after [recalculateDayTimes]. *)
Definition reflowed_XYZ : list Item.t :=
  select_day_items "trip-1" 1
    (db (snd (recalculateDayTimes "trip-1" 1 (healthy tables_XYZ)))).

(** Scenario 2 of the specification: X then the pinned Y, reordered to
    Y then X. *)
Definition tables_XY : tables :=
  tables_of [plain_item "item-x" "X" 0 60 "10:00" "11:00" false;
             plain_item "item-y" "Y" 1 30 "11:00" "11:30" true].

(** The tables right after a generation: version 1 and its snapshot. *)
Definition tables_generated : tables :=
  db (snd (ItineraryVersionService.createSnapshot "trip-1" "generate" None None
             (healthy tables_XYZ))).

(** Pin, then unpin, the first item. *)
Definition pin_unpin : list operation :=
  [TogglePin "trip-1" "item-x" true None; TogglePin "trip-1" "item-x" false None].

Definition tables_after_pin_unpin : tables :=
  db (snd (perform_all pin_unpin (World tables_generated None None 10%nat 0))).

End EditorScenario.

(** A pinned lunch on day 1, and generations over it. *)
Module PinScenario.
Import Db Plan Spec GenerationScenario EventScenario ReplanScenario EditorScenario.
Import ItineraryGeneration.

Definition lunch : Item.t := plain_item "item-lunch" "Lunch" 0 60 "12:00" "13:00" true.

Definition tables_lunch : tables := tables_of [lunch; temple].

Definition request_incremental : GenerateItineraryRequest :=
  {| selected_poi_ids := ["poi-A"; "poi-B"];
     regenerate_mode := Some "incremental";
     preserve_pinned := Some true |}.

Definition flat : Q -> Q -> Q -> Q -> Q := fun _ _ _ _ => 0%Q.

(** A full generation over the pinned lunch. *)
Definition full_run : result ItineraryGenerationResult * world tables :=
  generateItinerary flat "trip-1" request_AB None None (healthy tables_lunch).

(** An incremental generation that preserves pinned items. *)
Definition incremental_run : result ItineraryGenerationResult * world tables :=
  generateItinerary flat "trip-1" request_incremental None None (healthy tables_lunch).

Definition positions (d : tables) : list (string * Z * string * string) :=
  List.map position (itinerary_items d).

End PinScenario.

(* ===================================================================== *)
(** Providers that do not confirm, and bookings that are failed or
    confirmed when the orchestrator meets them. *)
Module OrchestratorScenario.
Import Db Booking BookingScenario.

(** A provider that accepts the request but has not confirmed it yet. *)
Definition pending_provider : ProviderAdapter :=
  {| provider_createBooking := fun _ =>
       Ok {| resp_booking_id := "ext-2";
             resp_status := pending;
             resp_price := {| amount := 1500; currency := "THB" |};
             resp_policies := {| cancellation := "free"; refund := "full";
                                 cancellation_deadline := None |};
             resp_voucher_url := None;
             resp_voucher_data := None;
             resp_confirmation_number := "CONF2" |};
     provider_cancelBooking := fun _ => Ok tt |}.

(** The failure the stub provider simulates, for both calls. *)
Definition simulated_failure : error :=
  ExternalServiceError "Stub Provider" "Simulated booking failure".

Definition failing_provider : ProviderAdapter :=
  {| provider_createBooking := fun _ => Err simulated_failure;
     provider_cancelBooking := fun _ => Err simulated_failure |}.

Definition only (provider : ProviderAdapter) : string -> option ProviderAdapter :=
  fun _ => Some provider.

(** The tables of [world_K1] with the booking in another status. *)
Definition booking_in (s : BookingStatus) : Booking := apply_updates s no_updates booking_K1.

Definition tables_in (s : BookingStatus) : tables :=
  {| bookings := {[ "uuid-0" := booking_in s ]};
     booking_state_history := booking_state_history tables_K1;
     booking_idempotency := booking_idempotency tables_K1 |}.

Definition world_in (s : BookingStatus) : world tables := World (tables_in s) None None 2%nat 0.

(** The history of the K1 booking after it was confirmed. *)
Definition confirmed_history : list BookingStateHistory :=
  [{| booking_id := "uuid-0"; from_status := None; to_status := pending;
      reason := Some "Booking created"; changed_by := None |};
   {| booking_id := "uuid-0"; from_status := Some pending; to_status := confirmed;
      reason := Some "Provider booking created"; changed_by := Some "system" |}].

Definition tables_confirmed : tables :=
  {| bookings := {[ "uuid-0" := booking_in confirmed ]};
     booking_state_history := confirmed_history;
     booking_idempotency := booking_idempotency tables_K1 |}.

End OrchestratorScenario.

(** The generated day of [EditorScenario] two versions on: the plan has
    been changed, and a second trip has an item of its own. *)
Module RollbackScenario.
Import Db Plan Spec GenerationScenario EditorScenario.

Definition late_X : Item.t := plain_item "item-x" "X" 0 60 "15:00" "16:00" false.

Definition elsewhere : Item.t :=
  Item.set_trip "trip-2" (plain_item "item-w" "W" 0 45 "09:00" "09:45" false).

Definition tables_version_2 : tables :=
  set_items (fun _ => [late_X; elsewhere])
    (set_itineraries
       (fun _ => {[ "trip-1" := {| ItineraryRow.id := "itin-1"; ItineraryRow.version := 2 |} ]})
       tables_generated).

Definition world_version_2 : world tables := World tables_version_2 None None 20%nat 0.

Definition rolled_back : result (option Itinerary.t) * world tables :=
  ItineraryVersionService.rollbackToVersion "trip-1" 1 None None world_version_2.

End RollbackScenario.

(** A day with an overlap, one of whose items names a POI that is not
    stored; and the plan at version 2 with the application that led to
    it. *)
Module AppliedScenario.
Import Db Plan Spec GenerationScenario EditorScenario RollbackScenario.

Definition item_P : Item.t :=
  {| Item.id := "item-p";
     Item.trip_id := "trip-1";
     Item.day := 1;
     Item.item_type := "poi";
     Item.poi_id := Some "poi-gone";
     Item.name := "P";
     Item.location := None;
     Item.start_time := "09:00";
     Item.end_time := "10:30";
     Item.duration_minutes := 90;
     Item.is_pinned := false;
     Item.order := 0;
     Item.route_from_previous := None;
     Item.cost_estimate := None |}.

Definition item_Q : Item.t := plain_item "item-q" "Q" 1 60 "10:00" "11:00" false.

Definition tables_PQ : tables := tables_of [item_P; item_Q].

Definition one_day_ms : Z := 24 * 60 * 60 * 1000.

(** The application of a proposal that made version 2, at instant 0. *)
Definition application_1 : Application.t :=
  {| Application.id := "app-1";
     Application.trip_id := "trip-1";
     Application.proposal_id := "prop-1";
     Application.applied_version := 2;
     Application.rollback_available_until := Some one_day_ms;
     Application.rolled_back := false |}.

Definition tables_applied : tables := set_applications (fun _ => [application_1]) tables_version_2.

(** An hour after the application, and an hour after the window. *)
Definition world_in_window : world tables :=
  World tables_applied None None 20%nat (60 * 60 * 1000).

Definition world_after_window : world tables :=
  World tables_applied None None 20%nat (one_day_ms + 60 * 60 * 1000).

End AppliedScenario.

(** A first day without pinned items, the pinned temple on the second day,
    and a request for a POI that is not stored. *)
Module FreeDayScenario.
Import Db Plan Spec GenerationScenario ReplanScenario EditorScenario.
Import ItineraryGeneration ItineraryEditorService.

Definition free_X : Item.t := plain_item "item-x" "X" 0 60 "09:00" "10:00" false.
Definition free_Z : Item.t := plain_item "item-z" "Z" 1 30 "12:00" "12:30" false.

Definition tables_free : tables := tables_of [free_X; free_Z; temple].

(** The first day as a reader sees it after a run. *)
Definition first_day_after {A} (run : result A * world tables) : list (string * string * string) :=
  timetable (select_day_items "trip-1" 1 (db (snd run))).

Definition request_unknown : GenerateItineraryRequest :=
  {| selected_poi_ids := ["poi-Q"; "poi-R"];
     regenerate_mode := None;
     preserve_pinned := None |}.

(** A full generation over the plan at version 2. *)
Definition regenerated : result ItineraryGenerationResult * world tables :=
  generateItinerary PinScenario.flat "trip-1" request_AB None None
    RollbackScenario.world_version_2.

End FreeDayScenario.

(** Three pending triggers of one trip, written in the order high, low,
    medium. *)
Module TriggerScenario.
Import Db Plan GenerationScenario EventScenario.

Definition trigger_of (triggerId : string) (priority : Severity) : Trigger.t :=
  {| Trigger.id := triggerId; Trigger.trip_id := "trip-1"; Trigger.event_signal_id := "event-1";
     Trigger.reason := "Heavy rain affects outdoor activities"; Trigger.priority := priority;
     Trigger.processed := false |}.

Definition tables_triggers : tables :=
  set_triggers (fun _ => [trigger_of "trig-high" high; trigger_of "trig-low" low;
                          trigger_of "trig-medium" medium]) tables_park.

End TriggerScenario.

(* ===================================================================== *)
(** * Part II.  Properties *)
(* ===================================================================== *)

(** ** Stepping through the session monad *)
Module DbFacts.
Import Db Spec.

Lemma bind_ok {T A B} (m : M T A) (k : A -> M T B) w b w2 :
  bind m k w = (Ok b, w2) ->
  exists a w1, m w = (Ok a, w1) /\ k a w1 = (Ok b, w2).
Proof.
  unfold bind. destruct (m w) as [[a | e] w1]; intros H; [eauto | discriminate].
Qed.

Lemma tick_healthy {T} (w : world T) : fail_in w = None -> tick w = (Ok tt, w).
Proof. unfold tick. intros ->. reflexivity. Qed.

Lemma tick_ok {T} (w w' : world T) u :
  tick w = (Ok u, w') ->
  db w' = db w /\ tx w' = tx w /\ next_uuid w' = next_uuid w /\ clock w' = clock w.
Proof.
  unfold tick. destruct (fail_in w) as [[| n] |]; intros H; inversion H; subst; auto.
Qed.

Lemma query_healthy {T A} (stmt : T -> result A * T) w :
  fail_in w = None ->
  query stmt w =
    match stmt (db w) with
    | (Ok a, d') => (Ok a, with_db w d')
    | (Err e, _) => (Err e, w)
    end.
Proof. intros H. unfold query, bind. rewrite (tick_healthy w H). reflexivity. Qed.

Lemma query_ok {T A} (stmt : T -> result A * T) w a w' :
  query stmt w = (Ok a, w') ->
  stmt (db w) = (Ok a, db w') /\ tx w' = tx w /\ next_uuid w' = next_uuid w.
Proof.
  unfold query. intros H. apply bind_ok in H as (u & w1 & Ht & H).
  apply tick_ok in Ht as (Hd & Htx & Hu & _). rewrite <- Hd.
  destruct (stmt (db w1)) as [[a' | e] d']; inversion H; subst; simpl; auto.
Qed.

Lemma query_err {T A} (stmt : T -> result A * T) w e w' :
  query stmt w = (Err e, w') -> db w' = db w.
Proof.
  unfold query, bind, tick.
  destruct (fail_in w) as [[| n] |]; simpl;
    try (destruct (stmt (db w)) as [[a | e'] d']); intros H; inversion H; reflexivity.
Qed.

Lemma with_db_same {T} (w : world T) : with_db w (db w) = w.
Proof. destruct w; reflexivity. Qed.

(** A statement that only reads. *)
Lemma query_read_healthy {T A} (f : T -> A) (w : world T) :
  fail_in w = None -> query (fun d => (Ok (f d), d)) w = (Ok (f (db w)), w).
Proof. intros H. rewrite query_healthy by exact H. simpl. now rewrite with_db_same. Qed.

Lemma query_read_ok {T A} (f : T -> A) (w w' : world T) a :
  query (fun d => (Ok (f d), d)) w = (Ok a, w') -> a = f (db w) /\ db w' = db w.
Proof.
  intros H. apply query_ok in H as (H & _). inversion H. auto.
Qed.

Lemma bind_inv {T A B} (m : M T A) (k : A -> M T B) w r w' :
  bind m k w = (r, w') ->
  (exists a w1, m w = (Ok a, w1) /\ k a w1 = (r, w'))
  \/ (exists e, m w = (Err e, w') /\ r = Err e).
Proof.
  unfold bind. destruct (m w) as [[a | e] w1]; intros H.
  - left. eauto.
  - right. inversion H; subst. eauto.
Qed.

Lemma try_catch_inv {T A} (m : M T A) (h : error -> M T A) w r w' :
  try_catch m h w = (r, w') ->
  (exists a, m w = (Ok a, w') /\ r = Ok a)
  \/ (exists e w1, m w = (Err e, w1) /\ h e w1 = (r, w')).
Proof.
  unfold try_catch. destruct (m w) as [[a | e] w1]; intros H.
  - left. inversion H; subst. eauto.
  - right. eauto.
Qed.


Section Preserves.
Context {T : Type} (R : T -> T -> Prop) `{!Reflexive R} `{!Transitive R}.

Lemma preserves_ret {A} (a : A) : preserves R (ret a).
Proof. intros w r w' H. inversion H. reflexivity. Qed.

Lemma preserves_throw {A} (e : error) : preserves R (@throw T A e).
Proof. intros w r w' H. inversion H. reflexivity. Qed.

Lemma preserves_bind {A B} (m : M T A) (k : A -> M T B) :
  preserves R m -> (forall a, preserves R (k a)) -> preserves R (bind m k).
Proof.
  intros Hm Hk w r w' H. apply bind_inv in H as [(a & w1 & H1 & H2) | (e & H1 & _)].
  - etransitivity; [exact (Hm _ _ _ H1) | exact (Hk _ _ _ _ H2)].
  - exact (Hm _ _ _ H1).
Qed.

Lemma preserves_try_catch {A} (m : M T A) (h : error -> M T A) :
  preserves R m -> (forall e, preserves R (h e)) -> preserves R (try_catch m h).
Proof.
  intros Hm Hh w r w' H. apply try_catch_inv in H as [(a & H1 & _) | (e & w1 & H1 & H2)].
  - exact (Hm _ _ _ H1).
  - etransitivity; [exact (Hm _ _ _ H1) | exact (Hh _ _ _ _ H2)].
Qed.

Lemma preserves_catch_default {A} (m : M T A) (dflt : A) :
  preserves R m -> preserves R (catch_default m dflt).
Proof.
  intros Hm. apply preserves_try_catch; [exact Hm |]. intros e. apply preserves_ret.
Qed.

Lemma preserves_tick : preserves R (@tick T).
Proof.
  intros w r w'. unfold tick.
  destruct (fail_in w) as [[| n] |]; intros H; inversion H; reflexivity.
Qed.

Lemma preserves_query {A} (stmt : T -> result A * T) :
  (forall d a d', stmt d = (Ok a, d') -> R d d') -> preserves R (query stmt).
Proof.
  intros Hs. unfold query. apply preserves_bind; [apply preserves_tick |].
  intros _ w r w' H. destruct (stmt (db w)) as [[a | e] d'] eqn:E; inversion H; subst.
  - simpl. eauto.
  - reflexivity.
Qed.

Lemma preserves_read {A} (f : T -> A) : preserves R (query (fun d => (Ok (f d), d))).
Proof. apply preserves_query. intros d a d' H. inversion H. reflexivity. Qed.

Lemma preserves_uuidv4 : preserves R (@uuidv4 T).
Proof. intros w r w' H. inversion H. reflexivity. Qed.

Lemma preserves_now : preserves R (@now T).
Proof. intros w r w' H. inversion H. reflexivity. Qed.

Lemma preserves_for_each {A} (l : list A) (f : A -> M T unit) :
  (forall x, preserves R (f x)) -> preserves R (for_each l f).
Proof.
  intros Hf. induction l as [| x l IH]; simpl.
  - apply preserves_ret.
  - apply preserves_bind; [apply Hf | intros _; exact IH].
Qed.

End Preserves.

(** One step of a [preserves] goal: the monad's combinators, then a case
    split on what the program branches on. *)
Ltac preserves_step :=
  lazymatch goal with
  | |- Reflexive _ => typeclasses eauto
  | |- Transitive _ => typeclasses eauto
  | |- preserves _ (bind _ _) => apply preserves_bind
  | |- preserves _ (ret _) => apply preserves_ret
  | |- preserves _ (throw _) => apply preserves_throw
  | |- preserves _ (try_catch _ _) => apply preserves_try_catch
  | |- preserves _ (catch_default _ _) => apply preserves_catch_default
  | |- preserves _ (for_each _ _) => apply preserves_for_each
  | |- preserves _ uuidv4 => apply preserves_uuidv4
  | |- preserves _ now => apply preserves_now
  | |- preserves _ (query (fun d => (Ok _, d))) => apply preserves_read
  | |- preserves _ (match ?x with _ => _ end) => destruct x
  | |- forall _, _ => intros ?
  end.

End DbFacts.

(** ** Bookings *)
Module BookingFacts.
Import Db Spec DbFacts Booking.


Lemma includes_transition from to :
  includes (validTransitions from) to = true <-> transition from to.
Proof.
  split.
  - destruct from as [[] |], to; simpl; intros H; try discriminate; constructor.
  - intros H; destruct H; reflexivity.
Qed.

Lemma validateStateTransition_ok {T} from to (w w' : world T) u :
  validateStateTransition from to w = (Ok u, w') -> transition from to /\ w' = w.
Proof.
  unfold validateStateTransition.
  destruct (includes (validTransitions from) to) eqn:E; simpl; intros H; inversion H.
  split; [now apply includes_transition | reflexivity].
Qed.

Lemma validateStateTransition_refused {T} from to (w : world T) :
  ~ transition from to ->
  exists msg, validateStateTransition from to w = (Err (ValidationError msg), w).
Proof.
  intros Hn. unfold validateStateTransition.
  destruct (includes (validTransitions from) to) eqn:E; simpl.
  - exfalso. apply Hn. now apply includes_transition.
  - eexists. reflexivity.
Qed.

Lemma getBookingById_healthy (w : world tables) bookingId b :
  fail_in w = None -> bookings (db w) !! bookingId = Some b ->
  getBookingById bookingId w = (Ok b, w).
Proof.
  intros Hf Hb. unfold getBookingById, bind.
  rewrite (query_read_healthy (fun d => bookings d !! bookingId) w Hf), Hb. reflexivity.
Qed.

Lemma getBookingById_ok (w w' : world tables) bookingId b :
  getBookingById bookingId w = (Ok b, w') ->
  bookings (db w) !! bookingId = Some b /\ db w' = db w.
Proof.
  unfold getBookingById. intros H. apply bind_ok in H as (row & w1 & Hq & H).
  apply (query_read_ok (fun d => bookings d !! bookingId)) in Hq as (-> & Hd).
  destruct (bookings (db w) !! bookingId); inversion H; subst. auto.
Qed.

Lemma getBookingByIdempotencyKey_healthy (w : world tables) key :
  fail_in w = None ->
  getBookingByIdempotencyKey key w =
    (Ok match booking_idempotency (db w) !! key with
        | Some bid => bookings (db w) !! bid
        | None => None
        end, w).
Proof.
  intros Hf. unfold getBookingByIdempotencyKey.
  exact (query_read_healthy
           (fun d => match booking_idempotency d !! key with
                     | Some bid => bookings d !! bid
                     | None => None
                     end) w Hf).
Qed.



Lemma addStateHistory_healthy (w : world tables) bookingId from to reason changedBy :
  fail_in w = None ->
  exists w', addStateHistory bookingId from to reason changedBy w = (Ok tt, w')
    /\ fail_in w' = None
    /\ bookings (db w') = bookings (db w)
    /\ booking_state_history (db w') =
         (booking_state_history (db w) ++
            [{| booking_id := bookingId; from_status := from; to_status := to;
                reason := or_null reason; changed_by := or_null changedBy |}])%list.
Proof.
  intros Hf. unfold addStateHistory. rewrite query_healthy by exact Hf. simpl.
  eexists. split; [reflexivity |]. simpl. auto.
Qed.

(** C2, as the code has it.  For a stored booking [b] and a healthy
    session: [updateBookingStatus] succeeds exactly along the edges of the
    graph null→pending, pending→{confirmed, failed}, failed→pending,
    confirmed→{canceled, refunded}, canceled→refunded; on an edge it sets
    the status and appends one history row; off the graph it fails with a
    [ValidationError] and the session, so the booking's status and history,
    is unchanged.  Cancelling a booking that is not [confirmed] (a pending
    one in particular) is refused by the orchestrator's own guard with a
    plain [Error], not a [ValidationError], again with nothing changed. *)
Theorem status_change_guarded getProvider bookingId b newStatus reason updatedBy updates
    userId (w : world tables) :
  fail_in w = None ->
  bookings (db w) !! bookingId = Some b ->
  (forall r w', updateBookingStatus bookingId newStatus reason updatedBy updates w = (Ok r, w') ->
                transition (Some (status b)) newStatus)
  /\ (transition (Some (status b)) newStatus ->
      exists r w', updateBookingStatus bookingId newStatus reason updatedBy updates w = (Ok r, w')
        /\ status r = newStatus
        /\ bookings (db w') !! bookingId = Some r
        /\ booking_state_history (db w') =
             (booking_state_history (db w) ++
                [{| booking_id := bookingId; from_status := Some (status b);
                    to_status := newStatus; reason := or_null reason;
                    changed_by := or_null updatedBy |}])%list)
  /\ (~ transition (Some (status b)) newStatus ->
      exists msg, updateBookingStatus bookingId newStatus reason updatedBy updates w
                  = (Err (ValidationError msg), w))
  /\ (status b <> confirmed ->
      cancelBooking getProvider bookingId reason userId w
      = (Err (PlainError "Can only cancel confirmed bookings"), w)).
Proof.
  intros Hf Hb. repeat split.
  - intros r w' H. unfold updateBookingStatus in H.
    apply bind_ok in H as (b' & w1 & Hg & H).
    apply getBookingById_ok in Hg as (Hg & _). rewrite Hb in Hg. inversion Hg; subst b'.
    apply bind_ok in H as (u & w2 & Hv & _).
    now apply validateStateTransition_ok in Hv as (Hv & _).
  - intros Ht. unfold updateBookingStatus, bind at 1.
    rewrite (getBookingById_healthy w bookingId b Hf Hb).
    unfold bind at 1. unfold validateStateTransition.
    apply includes_transition in Ht. rewrite Ht. simpl.
    unfold bind at 1. rewrite query_healthy by exact Hf. simpl.
    set (w1 := with_db w _).
    assert (Hf1 : fail_in w1 = None) by exact Hf.
    destruct (addStateHistory_healthy w1 bookingId (Some (status b)) newStatus reason updatedBy Hf1)
      as (w2 & Hh & Hf2 & Hbk & Hhist).
    unfold bind. rewrite Hh.
    assert (Hb2 : bookings (db w2) !! bookingId = Some (apply_updates newStatus updates b)).
    { rewrite Hbk. subst w1. simpl. rewrite lookup_alter_eq, Hb. reflexivity. }
    rewrite (getBookingById_healthy w2 bookingId _ Hf2 Hb2).
    eexists _, _. split; [reflexivity |]. split; [reflexivity |]. split; [exact Hb2 |].
    rewrite Hhist. reflexivity.
  - intros Hn. unfold updateBookingStatus, bind.
    rewrite (getBookingById_healthy w bookingId b Hf Hb).
    destruct (validateStateTransition_refused (Some (status b)) newStatus w Hn) as (msg & ->).
    eauto.
  - intros Hn. unfold cancelBooking, bind.
    rewrite (getBookingById_healthy w bookingId b Hf Hb).
    destruct (status b); try reflexivity. now contradiction Hn.
Qed.

End BookingFacts.

Module BookingChecks.
Import Db Spec DbFacts Booking BookingFacts BookingScenario.

Example createBooking_fresh :
  createBooking "trip-1" request_K1 None (healthy empty_tables) = (Ok booking_K1, world_K1).
Proof. vm_compute. reflexivity. Qed.


(** Scenario 6: cancelling the pending booking of [world_K1].  The call
    fails and changes nothing, but what it throws is the orchestrator's
    plain [Error]: no [ValidationError] comes out of it. *)
Lemma cancel_pending_is_not_validation :
  ~ exists msg,
      fst (cancelBooking no_provider "uuid-0" None None world_K1) = Err (ValidationError msg).
Proof. intros (msg & H). vm_compute in H. discriminate H. Qed.

Example cancel_pending_result :
  cancelBooking no_provider "uuid-0" None None world_K1
  = (Err (PlainError "Can only cancel confirmed bookings"), world_K1).
Proof. vm_compute. reflexivity. Qed.

Lemma status_change_guarded_witness :
  (exists msg, updateBookingStatus "uuid-0" canceled None None no_updates world_K1
               = (Err (ValidationError msg), world_K1))
  /\ cancelBooking no_provider "uuid-0" None None world_K1
     = (Err (PlainError "Can only cancel confirmed bookings"), world_K1)
  /\ exists r w', updateBookingStatus "uuid-0" confirmed None None no_updates world_K1 = (Ok r, w')
                  /\ status r = confirmed.
Proof.
  destruct (status_change_guarded no_provider "uuid-0" booking_K1 canceled None None no_updates
              None world_K1 eq_refl eq_refl) as (_ & _ & Hrefuse & Hcancel).
  destruct (status_change_guarded no_provider "uuid-0" booking_K1 confirmed None None no_updates
              None world_K1 eq_refl eq_refl) as (_ & Hgo & _ & _).
  split; [| split].
  - apply Hrefuse. intros H. inversion H.
  - apply Hcancel. discriminate.
  - destruct (Hgo t_confirm) as (r & w' & H & Hs & _). eauto.
Defined.

(** One level up, the orchestrator does not stop at the booking its replay
    finds: it calls the provider again and asks for confirmed → confirmed,
    then for confirmed → failed, and throws.  No row is added by the
    replay. *)
Example orchestrator_replay_is_refused :
  option_map status (match fst orchestrated_first with Ok b => Some b | Err _ => None end)
    = Some confirmed
  /\ fst orchestrated_replay
     = Err (ValidationError "Invalid state transition from confirmed to failed")
  /\ db (snd orchestrated_replay) = db (snd orchestrated_first).
Proof. vm_compute. auto. Qed.

End BookingChecks.


(** ** The plan services: what only reads *)
Module PlanFacts.
Import Db Spec DbFacts Plan.

Lemma getTripById_reads tripId userId guest :
  preserves eq (TripService.getTripById tripId userId guest).
Proof. unfold TripService.getTripById. repeat preserves_step. Qed.

Lemma getTripWithPreferences_reads tripId userId guest :
  preserves eq (TripService.getTripWithPreferences tripId userId guest).
Proof.
  unfold TripService.getTripWithPreferences.
  repeat (apply getTripById_reads || preserves_step).
Qed.

Lemma getPOIById_reads poiId : preserves eq (POIService.getPOIById poiId).
Proof. unfold POIService.getPOIById. repeat preserves_step. Qed.

Lemma getItineraryByTripId_reads tripId :
  preserves eq (ItineraryGeneratorService.getItineraryByTripId tripId).
Proof.
  unfold ItineraryGeneratorService.getItineraryByTripId.
  repeat (apply getTripWithPreferences_reads || preserves_step).
Qed.

Lemma getVersion_reads tripId version :
  preserves eq (ItineraryVersionService.getVersion tripId version).
Proof. unfold ItineraryVersionService.getVersion. repeat preserves_step. Qed.

Lemma getItemById_reads itemId tripId :
  preserves eq (ItineraryEditorService.getItemById itemId tripId).
Proof. unfold ItineraryEditorService.getItemById. repeat preserves_step. Qed.

Lemma getDayItems_reads tripId day :
  preserves eq (ItineraryEditorService.getDayItems tripId day).
Proof. unfold ItineraryEditorService.getDayItems. repeat preserves_step. Qed.

Lemma getEventSignalById_reads eventId :
  preserves eq (EventMonitorService.getEventSignalById eventId).
Proof. unfold EventMonitorService.getEventSignalById. repeat preserves_step. Qed.


(** A relation that holds between equal tables is kept by what only reads. *)
Lemma reads_preserves {A} (R : tables -> tables -> Prop) `{!Reflexive R} (m : M tables A) :
  preserves eq m -> preserves R m.
Proof. intros H w r w' E. rewrite <- (H _ _ _ E). reflexivity. Qed.

(** What [getItineraryByTripId] returns, against the tables it read. *)
Lemma getItineraryByTripId_ok tripId (w w' : world tables) found :
  ItineraryGeneratorService.getItineraryByTripId tripId w = (Ok found, w') ->
  db w' = db w /\
  match found with
  | None => itineraries (db w) !! tripId = None
  | Some itinerary =>
      exists row preferences,
        itineraries (db w) !! tripId = Some row
        /\ trip_preferences (db w) !! tripId = Some preferences
        /\ Itinerary.version itinerary = ItineraryRow.version row
        /\ Itinerary.trip_id itinerary = tripId
        /\ Itinerary.days itinerary =
             sort_by ItineraryGeneratorService.by_day_number
               (List.map (fun entry : Z * list Item.t =>
                  let '(dayNum, dayItems) := entry in
                  {| Day.day := dayNum;
                     Day.date := Js.plus_ms (Prefs.dates_start preferences)
                                   ((dayNum - 1) * Js.ms_per_day);
                     Day.items := dayItems;
                     Day.total_travel_time_minutes :=
                       ItineraryGeneratorService.calculateDayTravelTime dayItems;
                     Day.total_cost_estimate :=
                       ItineraryGeneratorService.calculateDayCost dayItems
                         (Prefs.budget_currency preferences) |})
                  (ItineraryGeneratorService.group_by_day (select_trip_items tripId (db w))))
  end.
Proof.
  intros H. split.
  { symmetry. exact (getItineraryByTripId_reads tripId _ _ _ H). }
  unfold ItineraryGeneratorService.getItineraryByTripId in H.
  apply bind_ok in H as (res & w1 & Hq & H).
  apply (query_read_ok (fun d => itineraries d !! tripId)) in Hq as (-> & Hd1).
  destruct (itineraries (db w) !! tripId) as [row |] eqn:Erow.
  - apply bind_ok in H as (items & w2 & Hq & H).
    apply (query_read_ok (fun d => select_trip_items tripId d)) in Hq as (-> & Hd2).
    apply bind_ok in H as ([trip preferences] & w3 & Htp & H).
    unfold TripService.getTripWithPreferences in Htp.
    apply bind_ok in Htp as (trip' & w4 & Hg & Htp).
    pose proof (getTripById_reads tripId None None _ _ _ Hg) as Hd4.
    apply bind_ok in Htp as (prefs & w5 & Hq & Htp).
    apply (query_read_ok (fun d => trip_preferences d !! tripId)) in Hq as (-> & Hd5).
    destruct (trip_preferences (db w4) !! tripId) as [p |] eqn:Ep; inversion Htp; subst.
    inversion H; subst. simpl.
    exists row, preferences. rewrite <- Hd4, Hd2, Hd1 in Ep. rewrite Hd1.
    repeat split; auto.
  - inversion H; subst. reflexivity.
Qed.

End PlanFacts.

(** ** Events *)
Module EventFacts.
Import Db Spec DbFacts Plan PlanFacts EventMonitorService.

Lemma getEventSignalById_ok eventId (w w' : world tables) sig :
  getEventSignalById eventId w = (Ok sig, w') -> Signal.id sig = eventId /\ db w' = db w.
Proof.
  intros H. split; [| symmetry; exact (getEventSignalById_reads eventId _ _ _ H)].
  unfold getEventSignalById in H. apply bind_ok in H as (rows & w1 & Hq & H).
  apply (query_read_ok
    (fun d => List.filter (fun r => String.eqb (Signal.id r) eventId) (event_signals d)))
    in Hq as (-> & _).
  destruct (List.filter _ _) as [| row rest] eqn:E; inversion H; subst.
  assert (Hin : In sig (List.filter (fun r => String.eqb (Signal.id r) eventId)
                          (event_signals (db w)))) by (rewrite E; left; reflexivity).
  apply filter_In in Hin as (_ & Hid). now apply String.eqb_eq in Hid.
Qed.

Lemma createReplanTrigger_ok tripId eventSignalId reason priority (w w' : world tables) trigger :
  createReplanTrigger tripId eventSignalId reason priority w = (Ok trigger, w') ->
  replan_triggers (db w') = (replan_triggers (db w) ++ [trigger])%list
  /\ Trigger.priority trigger = default medium priority
  /\ Trigger.event_signal_id trigger = eventSignalId
  /\ Trigger.trip_id trigger = tripId.
Proof.
  unfold createReplanTrigger. intros H.
  apply bind_ok in H as (triggerId & w1 & Hu & H). inversion Hu; subst; clear Hu.
  apply bind_ok in H as (u & w2 & Hq & H). inversion H; subst; clear H.
  apply query_ok in Hq as (Hq & _). unfold insert_trigger in Hq. simpl in Hq.
  destruct (existsb _ _); [discriminate Hq |]. injection Hq as _ Hd.
  rewrite <- Hd. simpl. auto.
Qed.

Lemma insert_signal_triggers row d u d' :
  insert_signal row d = (Ok u, d') -> replan_triggers d' = replan_triggers d.
Proof.
  unfold insert_signal. destruct (existsb _ _); intros H; inversion H. reflexivity.
Qed.

(** The tail both ingest functions share: the signal is stored, then the
    trigger is created without a priority. *)
Lemma ingest_tail tripId eventId reason row (w w' : world tables) sig :
  ((query (insert_signal row) ;;;
    (createReplanTrigger tripId eventId reason None ;;; ret tt) ;;;
    getEventSignalById eventId) w = (Ok sig, w'))%db ->
  exists trigger,
    replan_triggers (db w') = (replan_triggers (db w) ++ [trigger])%list
    /\ Trigger.priority trigger = medium
    /\ Trigger.event_signal_id trigger = Signal.id sig
    /\ Trigger.trip_id trigger = tripId.
Proof.
  intros H.
  apply bind_ok in H as (u & w1 & Hq & H).
  apply query_ok in Hq as (Hq & _). apply insert_signal_triggers in Hq.
  apply bind_ok in H as (u1 & w2 & Hc & H).
  apply bind_ok in Hc as (trigger & w3 & Hc & Hr). inversion Hr; subst; clear Hr.
  apply createReplanTrigger_ok in Hc as (Ht & Hp & He & Htr).
  apply getEventSignalById_ok in H as (Hid & Hd).
  exists trigger. rewrite Hd, Ht, Hq, Hid. auto.
Qed.

(** C9, as the code has it.  Ingesting a weather event with severity high
    and condition heavy_rain, or a closure event with severity medium or
    high, appends one [ReplanTrigger] for the stored signal, and its
    priority is [medium] whatever the severity: [createReplanTrigger] is
    called without a priority and falls back on its default. *)
Theorem replan_trigger_priority find tripId location slot details severity
    (w w' : world tables) sig :
  (ingestWeatherEvent find tripId location slot details severity w = (Ok sig, w') ->
   severity = high -> condition_of details = Some "heavy_rain" ->
   exists trigger,
     replan_triggers (db w') = (replan_triggers (db w) ++ [trigger])%list
     /\ Trigger.priority trigger = medium
     /\ Trigger.event_signal_id trigger = Signal.id sig
     /\ Trigger.trip_id trigger = tripId)
  /\
  (ingestClosureEvent find tripId location slot details severity w = (Ok sig, w') ->
   severity <> low ->
   exists trigger,
     replan_triggers (db w') = (replan_triggers (db w) ++ [trigger])%list
     /\ Trigger.priority trigger = medium
     /\ Trigger.event_signal_id trigger = Signal.id sig
     /\ Trigger.trip_id trigger = tripId).
Proof.
  split.
  - intros H -> Hc. unfold ingestWeatherEvent in H.
    apply bind_ok in H as (found & w1 & Hg & H).
    pose proof (getItineraryByTripId_reads tripId _ _ _ Hg) as Hd1.
    destruct found as [itinerary |]; [| discriminate].
    apply bind_ok in H as (eventId & w2 & Hu & H). inversion Hu; subst; clear Hu.
    rewrite Hc in H. simpl in H.
    apply ingest_tail in H as (trigger & Ht & Hrest). simpl in Ht.
    exists trigger. rewrite Hd1. auto.
  - intros H Hs. unfold ingestClosureEvent in H.
    apply bind_ok in H as (found & w1 & Hg & H).
    pose proof (getItineraryByTripId_reads tripId _ _ _ Hg) as Hd1.
    destruct found as [itinerary |]; [| discriminate].
    apply bind_ok in H as (eventId & w2 & Hu & H). inversion Hu; subst; clear Hu.
    assert (Hb : Severity_eqb severity high || Severity_eqb severity medium = true)
      by (destruct severity; [contradiction | reflexivity | reflexivity]).
    rewrite Hb in H.
    apply ingest_tail in H as (trigger & Ht & Hrest). simpl in Ht.
    exists trigger. rewrite Hd1. auto.
Qed.

End EventFacts.

Module EventChecks.
Import Db Spec DbFacts Plan PlanFacts EventMonitorService EventFacts EventScenario.

(** Scenario 4: the heavy-rain event of severity high leaves exactly one
    trigger, of priority medium.  No trigger of priority high is emitted. *)
Example rain_trigger_is_medium : List.map Trigger.priority triggers_after_rain = [medium].
Proof. vm_compute. reflexivity. Qed.

Lemma rain_trigger_is_not_high :
  ~ exists trigger, In trigger triggers_after_rain /\ Trigger.priority trigger = high.
Proof.
  intros (trigger & Hin & Hp). vm_compute in Hin.
  destruct Hin as [<- | []]. discriminate Hp.
Qed.

Lemma replan_trigger_priority_witness :
  exists sig w' trigger,
    ingestWeatherEvent park_affected "trip-1" bangkok rain_slot heavy_rain high
      (healthy tables_park) = (Ok sig, w')
    /\ replan_triggers (db w') = [trigger]
    /\ Trigger.priority trigger = medium.
Proof.
  destruct (ingestWeatherEvent park_affected "trip-1" bangkok rain_slot heavy_rain high
              (healthy tables_park)) as [[sig | e] w'] eqn:E.
  - destruct (replan_trigger_priority park_affected "trip-1" bangkok rain_slot heavy_rain high
                (healthy tables_park) w' sig) as (Hw & _).
    destruct (Hw E eq_refl eq_refl) as (trigger & Ht & Hp & _).
    exists sig, w', trigger. auto.
  - vm_compute in E. discriminate E.
Defined.

End EventChecks.

(** ** The generator *)
Module GeneratorFacts.
Import Db Spec DbFacts Plan PlanFacts ItineraryGeneratorService.

Section Generate.
Variable calculateDistance : Q -> Q -> Q -> Q -> Q.

(** The POI loop only appends. *)
Lemma place_pois_keeps {T} dayNum date endTime pois :
  forall items currentTime (w w' : world T) r,
    place_pois calculateDistance dayNum date endTime pois items currentTime w = (Ok r, w') ->
    exists more, r = (items ++ more)%list.
Proof.
  induction pois as [| poi rest IH]; intros items currentTime w w' r H.
  - inversion H; subst. exists []. now rewrite app_nil_r.
  - cbn [place_pois] in H.
    repeat lazymatch type of H with
    | (if ?c then _ else _) _ = _ => destruct c
    end;
    try (inversion H; subst; exists []; now rewrite app_nil_r);
    try (now apply IH in H).
    apply bind_ok in H as (route & w1 & _ & H).
    repeat lazymatch type of H with
    | (if ?c then _ else _) _ = _ => destruct c
    end;
    try (now apply IH in H).
    apply bind_ok in H as (itemId & w2 & _ & H).
    apply IH in H as (more & ->). rewrite <- app_assoc. eauto.
Qed.

Lemma place_pinned_all today pinnedItems :
  forall items currentTime,
    fst (place_pinned today pinnedItems items currentTime) = (items ++ pinnedItems)%list.
Proof.
  induction pinnedItems as [| p rest IH]; intros items currentTime; simpl.
  - now rewrite app_nil_r.
  - rewrite IH, <- app_assoc. reflexivity.
Qed.

(** The pinned items handed to [generateDayItems] come first in its result,
    as they are. *)
Lemma generateDayItems_pinned {T} dayNum date pois preferences pinnedItems
    (w w' : world T) r :
  generateDayItems calculateDistance dayNum date pois preferences pinnedItems w = (Ok r, w') ->
  exists more, r = (pinnedItems ++ more)%list.
Proof.
  unfold generateDayItems. intros H.
  apply bind_ok in H as (today & w1 & _ & H).
  pose proof (place_pinned_all today pinnedItems []
                (Js.setHours date
                   (Js.parseInt (Js.split_colon (Prefs.daily_time_window_start preferences) !! 0%nat))
                   (Js.parseInt (Js.split_colon (Prefs.daily_time_window_start preferences) !! 1%nat))))
    as Hp.
  destruct (place_pinned today pinnedItems [] _) as [items currentTime']. simpl in Hp. subst items.
  now apply place_pois_keeps in H.
Qed.

(** The day loop pushes one day per day number, in order, each holding the
    pinned items kept for that number. *)
Lemma days_loop_days {T} preferences poisPerDay pinnedItems dayNums :
  forall days (w w' : world T) r,
    days_loop calculateDistance preferences poisPerDay pinnedItems dayNums days w = (Ok r, w') ->
    exists pushed,
      r = (days ++ pushed)%list
      /\ List.map Day.day pushed = dayNums
      /\ Forall (fun day => exists more,
                   Day.items day =
                     (default [] (map_get Z.eqb (Day.day day) pinnedItems) ++ more)%list) pushed.
Proof.
  induction dayNums as [| dayNum rest IH]; intros days w w' r H.
  - inversion H; subst. exists []. rewrite app_nil_r. auto.
  - cbn [days_loop] in H. apply bind_ok in H as (dayItems & w1 & Hg & H).
    apply generateDayItems_pinned in Hg as (more & ->).
    apply IH in H as (pushed & -> & Hn & Hp).
    eexists (_ :: pushed). rewrite <- app_assoc. split; [reflexivity |].
    split; [simpl; now rewrite Hn |].
    constructor; [simpl; eauto | exact Hp].
Qed.

(** [generateDays] makes the days 1..N, N being
    [ceil((end - start) / 1 day)]. *)
Lemma generateDays_days {T} pois preferences existing preservePinned (w w' : world T) r :
  generateDays calculateDistance pois preferences existing preservePinned w = (Ok r, w') ->
  exists n,
    numDays_of preferences = Some n
    /\ List.map Day.day r = seqZ 1 n
    /\ Forall (fun day => exists more,
                 Day.items day =
                   (default []
                      (map_get Z.eqb (Day.day day)
                         match preservePinned, existing with
                         | true, Some e => extractPinnedItems e
                         | _, _ => []
                         end) ++ more)%list) r.
Proof.
  unfold generateDays. intros H.
  apply bind_ok in H as (poisPerDay & w1 & Hd & H).
  destruct (numDays_of preferences) as [n |] eqn:En; [| discriminate Hd].
  apply days_loop_days in H as (pushed & -> & Hn & Hp).
  exists n. simpl in *. auto.
Qed.

End Generate.

End GeneratorFacts.

Module GenerationChecks.
Import Db Spec Plan ItineraryGeneratorService ItineraryGeneration GeneratorFacts GenerationScenario.

(** C6, as the code has it.  For the trip 2025-03-01..2025-03-02 the number
    of days is N = ceil((end - start) / 1 day) = 1, and [generateDays] always
    makes the days 1..N.  Generation with the window 10:00-20:00 and the
    POIs A and B therefore gives one day, holding A at 10:15-12:15 (the
    15-minute leading buffer) and B at 12:50-14:20 (15 minutes of buffer and
    the 20-minute travel placeholder after A), with day cost 700. *)
Theorem two_day_dates_give_one_day (calculateDistance : Q -> Q -> Q -> Q -> Q) :
  numDays_of prefs_march = Some 1
  /\ generated_days calculateDistance =
       Some [(1, [("A", "10:15", "12:15"); ("B", "12:50", "14:20")], 700%Q)]
  /\ forall pois preferences existing preservePinned (w w' : world tables) r,
       generateDays calculateDistance pois preferences existing preservePinned w = (Ok r, w') ->
       exists n, numDays_of preferences = Some n /\ List.map Day.day r = seqZ 1 n.
Proof.
  split; [reflexivity |]. split; [vm_compute; reflexivity |].
  intros pois preferences existing preservePinned w w' r H.
  apply generateDays_days in H as (n & Hn & Hd & _). eauto.
Qed.

(** The two days the scenario of the specification expects are not what
    comes out. *)
Lemma two_days_are_not_generated :
  generated_days (fun _ _ _ _ => 0%Q) <>
    Some [(1, [("A", "10:15", "12:15")], 500%Q); (2, [("B", "10:15", "11:45")], 200%Q)].
Proof. vm_compute. discriminate. Qed.

End GenerationChecks.

(** ** Applying a proposal *)
Module ReplanFacts.
Import Db Spec DbFacts Plan PlanFacts ReplanApplyService.


Lemma getDayFromTime_first_day itinerary timeStr :
  (forall day, In day (Itinerary.days itinerary) -> 1 <= Day.day day) ->
  getDayFromTime itinerary timeStr = first_day itinerary.
Proof.
  unfold getDayFromTime, first_day. intros H.
  destruct (Itinerary.days itinerary) as [| first rest]; [reflexivity |].
  specialize (H first (or_introl eq_refl)).
  destruct (Day.day first =? 0) eqn:E; [apply Z.eqb_eq in E; lia | reflexivity].
Qed.

(** [for_each] keeps what each of its steps keeps, as long as it goes on. *)
Lemma for_each_ok_keeps {T A} (I : T -> Prop) (l : list A) (f : A -> M T unit) :
  (forall x w u w', In x l -> f x w = (Ok u, w') -> I (db w) -> I (db w')) ->
  forall w u w', for_each l f w = (Ok u, w') -> I (db w) -> I (db w').
Proof.
  induction l as [| x l IH]; intros Hf w u w' H Hi.
  - inversion H; subst. exact Hi.
  - cbn [for_each] in H. apply bind_ok in H as (u1 & w1 & H1 & H2).
    eapply IH; [| exact H2 |].
    + intros y wa ua wb Hy. apply Hf. now right.
    + eapply Hf; [now left | exact H1 | exact Hi].
Qed.

(** ... and holds of what one of its steps establishes and the later ones keep. *)
Lemma for_each_ok_establishes {T A} (I : T -> Prop) (l : list A) (f : A -> M T unit) x0 :
  In x0 l ->
  (forall w u w', f x0 w = (Ok u, w') -> I (db w')) ->
  (forall x w u w', In x l -> f x w = (Ok u, w') -> I (db w) -> I (db w')) ->
  forall w u w', for_each l f w = (Ok u, w') -> I (db w').
Proof.
  induction l as [| x l IH]; intros Hin He Hk w u w' H; [contradiction |].
  cbn [for_each] in H. apply bind_ok in H as (u1 & w1 & H1 & H2).
  destruct Hin as [-> | Hin].
  - eapply (for_each_ok_keeps I l f); [| exact H2 | exact (He _ _ _ H1)].
    intros y wa ua wb Hy. apply Hk. now right.
  - eapply IH; [exact Hin | exact He | | exact H2].
    intros y wa ua wb Hy. apply Hk. now right.
Qed.


Lemma delete_item_keeps itemId tripId day other trip' d u d' :
  delete_item other trip' d = (Ok u, d') -> other <> itemId ->
  placed itemId tripId day d -> placed itemId tripId day d'.
Proof.
  unfold delete_item. intros H Hne (row & Hin & Hid & Ht & Hd). injection H as _ <-.
  exists row. simpl. split; [| auto]. apply filter_In. split; [exact Hin |].
  destruct (String.eqb_spec (Item.id row) other) as [E | E]; [congruence | reflexivity].
Qed.

Lemma insert_item_keeps itemId tripId day row d u d' :
  insert_item row d = (Ok u, d') -> placed itemId tripId day d -> placed itemId tripId day d'.
Proof.
  unfold insert_item. destruct (existsb _ _); [discriminate |].
  intros H (r & Hin & Hrest). injection H as _ <-. exists r. simpl.
  split; [apply in_or_app; now left | exact Hrest].
Qed.

Lemma insert_poi_item_keeps itemId tripId day t i dy p n s e l d u d' :
  insert_poi_item t i dy p n s e l d = (Ok u, d') ->
  placed itemId tripId day d -> placed itemId tripId day d'.
Proof.
  unfold insert_poi_item. destruct (calculateDuration s e); [| discriminate].
  apply insert_item_keeps.
Qed.

Lemma insert_poi_item_places tripId itemId day p n s e l d u d' :
  insert_poi_item tripId itemId day p n s e l d = (Ok u, d') -> placed itemId tripId day d'.
Proof.
  unfold insert_poi_item. destruct (calculateDuration s e); [| discriminate].
  unfold insert_item. destruct (existsb _ _); [discriminate |].
  intros H. injection H as _ <-. eexists. simpl.
  split; [apply in_or_app; right; left; reflexivity |]. simpl. auto.
Qed.

Lemma update_other_keeps itemId tripId day other trip' f d u d' :
  update_items (fun r => String.eqb (Item.id r) other && String.eqb (Item.trip_id r) trip') f d
    = (Ok u, d') ->
  other <> itemId -> placed itemId tripId day d -> placed itemId tripId day d'.
Proof.
  unfold update_items. intros H Hne (row & Hin & Hid & Ht & Hd). injection H as _ <-.
  exists row. simpl. split; [| auto].
  apply in_map_iff. exists row. split; [| exact Hin].
  destruct (String.eqb_spec (Item.id row) other) as [E | E]; [congruence | reflexivity].
Qed.

Lemma recalculateDayOrder_keeps itemId tripId day trip' day' (w w' : world tables) u :
  recalculateDayOrder trip' day' w = (Ok u, w') ->
  placed itemId tripId day (db w) -> placed itemId tripId day (db w').
Proof.
  unfold recalculateDayOrder. intros H (row & Hin & Hid & Ht & Hd).
  apply query_ok in H as (H & _). injection H as _ H. rewrite <- H. simpl.
  exists (match map_get String.eqb (Item.id row) (day_ranks trip' day' (db w)) with
          | Some n => Item.set_order n row
          | None => row
          end).
  split.
  - apply in_map_iff. exists row. split; [reflexivity | exact Hin].
  - destruct (map_get _ _ _); simpl; auto.
Qed.

(** C10.  When [applyChanges] goes through for a proposal, every entry of
    [changes.replaced_items] has its new item in [itinerary_items] with the
    day set to the first day of the itinerary the apply was given
    ([itinerary.days[0].day], or 1 when it has no days), whatever day the
    replaced item was on.  The days of the itinerary are numbered from 1,
    and the new item's id is not one the proposal also replaces or moves
    (it is a fresh id). *)
Theorem replacement_lands_on_first_day proposal itinerary (w w' : world tables) u replaced :
  applyChanges proposal itinerary w = (Ok u, w') ->
  In replaced (Changes.replaced_items (Proposal.changes proposal)) ->
  (forall day, In day (Itinerary.days itinerary) -> 1 <= Day.day day) ->
  ~ In (Changes.id (Changes.new replaced))
       (List.map Changes.old_item_id (Changes.replaced_items (Proposal.changes proposal))) ->
  ~ In (Changes.id (Changes.new replaced))
       (List.map Changes.item_id (Changes.moved_items (Proposal.changes proposal))) ->
  placed (Changes.id (Changes.new replaced)) (Proposal.trip_id proposal)
    (first_day itinerary) (db w').
Proof.
  intros H Hin Hdays Hold Hmoved. unfold applyChanges in H.
  set (nid := Changes.id (Changes.new replaced)) in *.
  set (tripId := Proposal.trip_id proposal) in *.
  set (I := placed nid tripId (first_day itinerary)).
  apply bind_ok in H as (u1 & w1 & _ & H).
  apply bind_ok in H as (u2 & w2 & Hrep & H).
  apply bind_ok in H as (u3 & w3 & Hmov & H).
  apply bind_ok in H as (u4 & w4 & Hadd & H).
  assert (I2 : I (db w2)).
  { revert Hrep. apply (for_each_ok_establishes I _ _ replaced Hin).
    - intros wa ua wb Hs. apply bind_ok in Hs as (u5 & wc & _ & Hs).
      apply query_ok in Hs as (Hs & _).
      rewrite (getDayFromTime_first_day itinerary _ Hdays) in Hs.
      exact (insert_poi_item_places _ _ _ _ _ _ _ _ _ _ _ Hs).
    - intros x wa ua wb Hx Hs Hi. apply bind_ok in Hs as (u5 & wc & Hdel & Hs).
      apply query_ok in Hdel as (Hdel & _). apply query_ok in Hs as (Hs & _).
      eapply insert_poi_item_keeps; [exact Hs |].
      eapply delete_item_keeps; [exact Hdel | | exact Hi].
      intros E. apply Hold. apply in_map_iff. exists x. split; [exact E | exact Hx]. }
  assert (I3 : I (db w3)).
  { revert Hmov I2. apply (for_each_ok_keeps I).
    intros x wa ua wb Hx Hs Hi. apply query_ok in Hs as (Hs & _).
    eapply update_other_keeps; [exact Hs | | exact Hi].
    intros E. apply Hmoved. apply in_map_iff. exists x. split; [exact E | exact Hx]. }
  assert (I4 : I (db w4)).
  { revert Hadd I3. apply (for_each_ok_keeps I).
    intros x wa ua wb Hx Hs Hi. apply query_ok in Hs as (Hs & _).
    eapply insert_poi_item_keeps; [exact Hs | exact Hi]. }
  revert H I4. apply (for_each_ok_keeps I).
  intros x wa ua wb Hx Hs Hi. eapply recalculateDayOrder_keeps; [exact Hs | exact Hi].
Qed.

(** ** What a failed apply leaves *)





















End ReplanFacts.

Module ReplanChecks.
Import Db Spec DbFacts Plan PlanFacts ReplanApplyService ReplanFacts EventScenario ReplanScenario.

Example current_itinerary_days :
  List.map (fun day => (Day.day day, List.map Item.id (Day.items day)))
    (Itinerary.days current_itinerary)
  = [(1, ["item-park"]); (2, ["item-cafe"; "item-temple"])].
Proof. vm_compute. reflexivity. Qed.

(** The walk of day 2 is replaced, and its replacement lands on day 1. *)
Lemma replacement_lands_on_first_day_witness :
  placed "item-indoor" "trip-1" (first_day current_itinerary)
    (db (snd (applyChanges proposal_replace current_itinerary (healthy tables_two_days)))).
Proof.
  apply (replacement_lands_on_first_day proposal_replace current_itinerary
           (healthy tables_two_days) _ tt replace_walk).
  - vm_compute. reflexivity.
  - left. reflexivity.
  - intros day Hday. vm_compute in Hday. destruct Hday as [<- | [<- | []]]; simpl; lia.
  - vm_compute. intros [H | []]. discriminate H.
  - vm_compute. intros [].
Defined.

Example replacement_of_day_2_is_on_day_1 :
  let after := db (snd (applyProposal (apply_request "prop-replace") None
                          (healthy tables_two_days))) in
  placement "item-cafe" tables_two_days = Some (2, "10:00", "11:00", 60)
  /\ placement "item-cafe" after = None
  /\ placement "item-indoor" after = Some (1, "10:00", "11:30", 90).
Proof. vm_compute. auto. Qed.


(** A failure of the [DELETE]: the thirteenth statement of the apply of the
    remove-the-park proposal is forced to fail.  The error surfaces, the
    transaction is rolled back and closed, the items and the itinerary
    version are the ones before; but the snapshot written before [BEGIN]
    stays: the table of version snapshots has gained a row. *)
Example failed_apply_leaves_a_snapshot :
  let run := applyProposal (apply_request "prop-remove") None (failing tables_two_days 12) in
  fst run = Err forced_failure
  /\ tx (snd run) = None
  /\ itinerary_items (db (snd run)) = itinerary_items tables_two_days
  /\ itineraries (db (snd run)) = itineraries tables_two_days
  /\ List.map Version.version (itinerary_versions tables_two_days) = []
  /\ List.map (fun v => (Version.version v, Version.change_type v))
       (itinerary_versions (db (snd run))) = [(1, "replan")].
Proof. vm_compute. repeat split; reflexivity. Qed.



(** The same apply at each of its seventeen statements.  A failure of the
    sixth, the version lookup, is caught and the apply goes through; every
    other one surfaces and leaves the items and the itinerary version as
    they were.  From the twelfth on ([BEGIN] and after) the snapshot of
    version 1 has been written and stays. *)
Example apply_failure_points :
  List.map (fun out => (fst out, snd (snd out))) failure_points
  = [(false, []); (false, []); (false, []); (false, []); (false, []);
     (true, [1]);
     (false, []); (false, []); (false, []); (false, []); (false, []);
     (false, [1]); (false, [1]); (false, [1]); (false, [1]); (false, [1]); (false, [1])]
  /\ Forall (fun out =>
       fst out = false ->
       fst (snd out) = (itinerary_items tables_two_days, Some 1)) failure_points.
Proof.
  split; [vm_compute; reflexivity |].
  vm_compute. repeat constructor; intros H; try discriminate H.
Qed.

End ReplanChecks.

(** ** The editor *)
Module EditorFacts.
Import Db Spec DbFacts Plan PlanFacts ItineraryEditorService.

#[local] Instance snapshots_appended_refl : Reflexive snapshots_appended.
Proof. intros d. split; [reflexivity |]. exists []. now rewrite app_nil_r. Qed.

#[local] Instance snapshots_appended_trans : Transitive snapshots_appended.
Proof.
  intros d1 d2 d3 (Hi1 & rows1 & Hv1 & Hf1) (Hi2 & rows2 & Hv2 & Hf2).
  split; [congruence |]. exists (rows1 ++ rows2)%list.
  split; [rewrite Hv2, Hv1; now rewrite app_assoc |].
  apply Forall_app. split; [exact Hf1 |]. now rewrite Hi1 in Hf2.
Qed.

(** Statements that write [itinerary_items] only. *)
Lemma set_items_appended f d : snapshots_appended d (set_items f d).
Proof. split; [reflexivity |]. exists []. simpl. now rewrite app_nil_r. Qed.

Lemma insert_item_appended row d a d' :
  insert_item row d = (Ok a, d') -> snapshots_appended d d'.
Proof.
  unfold insert_item. destruct (existsb _ _); intros H; inversion H.
  apply set_items_appended.
Qed.

Lemma delete_item_appended itemId tripId d a d' :
  delete_item itemId tripId d = (Ok a, d') -> snapshots_appended d d'.
Proof. intros H. inversion H. apply set_items_appended. Qed.

Lemma update_items_appended cond f d a d' :
  update_items cond f d = (Ok a, d') -> snapshots_appended d d'.
Proof. intros H. inversion H. apply set_items_appended. Qed.

Ltac reads_step :=
  apply (reads_preserves snapshots_appended);
  first [ apply getItineraryByTripId_reads | apply getVersion_reads
        | apply getItemById_reads | apply getDayItems_reads
        | apply getTripWithPreferences_reads | apply getPOIById_reads ].

Ltac writes_step :=
  apply preserves_query;
  [ typeclasses eauto ..
  | intros ? ? ?;
    first [ apply insert_item_appended | apply delete_item_appended
          | apply update_items_appended ] ].

(** [createSnapshot] appends one row, carrying the version of the
    itinerary as it stands. *)
Lemma createSnapshot_appends tripId changeType changedBy previousVersion :
  preserves snapshots_appended
    (ItineraryVersionService.createSnapshot tripId changeType changedBy previousVersion).
Proof.
  intros w r w' H. unfold ItineraryVersionService.createSnapshot in H.
  apply bind_inv in H as [(found & w1 & Hg & H) | (e & Hg & _)].
  2: { rewrite <- (getItineraryByTripId_reads tripId _ _ _ Hg). reflexivity. }
  apply getItineraryByTripId_ok in Hg as (Hd1 & Hfound).
  destruct found as [itinerary |].
  2: { inversion H; subst. rewrite Hd1. reflexivity. }
  destruct Hfound as (row & prefs & Hrow & _ & Hver & _).
  apply bind_inv in H as [(versionId & w2 & Hu & H) | (e & Hu & _)]; [| discriminate Hu].
  inversion Hu; subst w2; clear Hu.
  apply bind_inv in H as [(u & w3 & Hq & H) | (e & Hq & _)].
  - inversion H; subst; clear H. apply query_ok in Hq as (Hq & _). simpl in Hq.
    unfold ItineraryVersionService.insert_version in Hq.
    destruct (existsb _ _); [discriminate Hq |]. injection Hq as _ Hq.
    rewrite <- Hq, <- Hd1. split; [reflexivity |]. simpl.
    eexists [_]. split; [reflexivity |]. constructor; [| constructor].
    simpl. exists row. rewrite <- Hd1 in Hrow. split; assumption.
  - apply query_err in Hq. simpl in Hq. rewrite Hq, Hd1. reflexivity.
Qed.

Lemma createVersionSnapshot_appends tripId changeType changedBy :
  preserves snapshots_appended (createVersionSnapshot tripId changeType changedBy).
Proof.
  unfold createVersionSnapshot.
  repeat first [ apply createSnapshot_appends | reads_step | preserves_step ].
Qed.

Lemma reflow_appends items :
  forall currentTime, preserves snapshots_appended (reflow items currentTime).
Proof.
  induction items as [| item rest IH]; intros currentTime; cbn [reflow].
  - repeat preserves_step.
  - destruct (Item.is_pinned item && negb (String.eqb (Item.start_time item) currentTime));
      [apply IH |].
    apply preserves_bind; [typeclasses eauto | writes_step | intros _; apply IH].
Qed.

Lemma recalculateDayTimes_appends tripId day :
  preserves snapshots_appended (recalculateDayTimes tripId day).
Proof.
  unfold recalculateDayTimes.
  repeat first [ apply reflow_appends | reads_step | preserves_step ].
Qed.

Ltac editor_step :=
  first [ apply recalculateDayTimes_appends | apply createVersionSnapshot_appends
        | reads_step | writes_step | preserves_step ].

(** Every editor operation leaves [itineraries] alone and at most appends
    snapshots that repeat the current version. *)
Lemma perform_appends o : preserves snapshots_appended (perform o).
Proof.
  destruct o; cbn [perform];
    unfold reorderItems, togglePin, setStartTime, addItem, removeItem;
    repeat editor_step.
Qed.

Lemma perform_all_appends ops : preserves snapshots_appended (perform_all ops).
Proof.
  unfold perform_all. apply preserves_for_each; [typeclasses eauto .. |].
  intros o. apply preserves_try_catch; [typeclasses eauto .. | apply perform_appends |].
  intros e. repeat preserves_step.
Qed.

(** What appended snapshots do to the versions of one trip. *)
Lemma appended_versions tripId v d d' :
  snapshots_appended d d' -> current_version tripId d = Some v ->
  current_version tripId d' = Some v
  /\ exists k, snapshot_versions tripId d' = (snapshot_versions tripId d ++ repeat v k)%list.
Proof.
  intros (Hi & rows & Hv & Hf) Hc. unfold current_version in *. rewrite Hi.
  split; [exact Hc |].
  unfold snapshot_versions. rewrite Hv, List.filter_app, List.map_app.
  exists (length (List.filter (fun r => String.eqb (Version.trip_id r) tripId) rows)).
  f_equal. clear Hv. induction rows as [| row rows IH]; [reflexivity |].
  inversion Hf as [| ? ? (r & Hr & Hver) Hf']; subst. simpl.
  destruct (String.eqb_spec (Version.trip_id row) tripId) as [E | E]; [| now apply IH].
  simpl. rewrite (IH Hf'). f_equal.
  rewrite E in Hr. rewrite Hr in Hc. simpl in Hc. congruence.
Qed.

Lemma sorted_app_repeat l v k :
  Sorted Z.le l -> Forall (fun x => x <= v) l -> Sorted Z.le (l ++ repeat v k).
Proof.
  intros Hs Hb. induction l as [| x l IH]; simpl.
  - induction k as [| k IHk]; simpl; [constructor |].
    constructor; [exact IHk |]. destruct k; simpl; constructor. lia.
  - inversion Hs as [| ? ? Hs' Hh]; subst. inversion Hb as [| ? ? Hx Hb']; subst.
    constructor; [now apply IH |].
    destruct l as [| y l]; simpl.
    + destruct k; simpl; constructor. exact Hx.
    + inversion Hh; subst. now constructor.
Qed.

(** C5, as the code has it.  Take a trip whose itinerary is at version
    [v] and whose snapshot versions, in the order written, are
    non-decreasing and at most [v].  After any sequence of editor
    operations (reorder, togglePin, setStartTime, add, remove; on any trip,
    going through or not) the itinerary is still at version [v] and the
    snapshot versions are the ones before followed by copies of [v]: they
    are still non-decreasing and at most [v], and if [v] was the highest
    snapshot version before, it is the highest after.  They are not
    strictly increasing: the editor never bumps the version, so each
    snapshot it writes repeats [v]. *)
Theorem editor_keeps_versions ops tripId v (w w' : world tables) r :
  perform_all ops w = (r, w') ->
  current_version tripId (db w) = Some v ->
  Sorted Z.le (snapshot_versions tripId (db w)) ->
  Forall (fun x => x <= v) (snapshot_versions tripId (db w)) ->
  current_version tripId (db w') = Some v
  /\ Sorted Z.le (snapshot_versions tripId (db w'))
  /\ Forall (fun x => x <= v) (snapshot_versions tripId (db w'))
  /\ (exists k, snapshot_versions tripId (db w') =
                (snapshot_versions tripId (db w) ++ repeat v k)%list)
  /\ (highest (snapshot_versions tripId (db w)) v ->
      highest (snapshot_versions tripId (db w')) v).
Proof.
  intros H Hc Hs Hb.
  apply perform_all_appends in H.
  destruct (appended_versions tripId v _ _ H Hc) as (Hc' & k & Hk).
  assert (Hb' : Forall (fun x => x <= v) (snapshot_versions tripId (db w'))).
  { rewrite Hk. apply Forall_app. split; [exact Hb |].
    clear. induction k; simpl; constructor; [lia | assumption]. }
  split; [exact Hc' |].
  split; [rewrite Hk; now apply sorted_app_repeat |].
  split; [exact Hb' |]. split; [eauto |].
  intros (Hin & _). split; [| exact Hb'].
  rewrite Hk. apply in_or_app. now left.
Qed.

End EditorFacts.

Module EditorChecks.
Import Db Spec DbFacts Plan PlanFacts ItineraryEditorService EditorFacts EditorScenario.

(** Scenario 2 of the specification: reordering X, Y to Y, X. *)
Example reorder_and_reflow :
  option_map (fun l => (timetable l, List.map Item.order l))
    match fst (reorderItems "trip-1" 1 ["item-y"; "item-x"] (healthy tables_XY)) with
    | Ok l => Some l
    | Err _ => None
    end
  = Some ([("Y", "11:00", "11:30"); ("X", "11:30", "12:30")], [0; 1]).
Proof. vm_compute. reflexivity. Qed.

(** C7 at a pinned item that ends before the cursor.  The day is X
    (60 minutes), the pinned Y at 08:00-08:30, Z (30 minutes); the window
    starts at 10:00.  [recalculateDayTimes] puts X at 10:00-11:00, leaves Y,
    and then sets the cursor to Y's end, 08:30: Z lands at 08:30-09:00,
    before X.  The stated policy takes [max(cursor, item.end)] there, keeps
    the cursor at 11:00 and puts Z at 11:00-11:30. *)
Theorem reflow_moves_cursor_back :
  timetable (select_day_items "trip-1" 1 tables_XYZ)
    = [("X", "09:00", "10:00"); ("Y", "08:00", "08:30"); ("Z", "12:00", "12:30")]
  /\ timetable reflowed_XYZ
    = [("X", "10:00", "11:00"); ("Y", "08:00", "08:30"); ("Z", "08:30", "09:00")]
  /\ timetable (reflow_policy (select_day_items "trip-1" 1 tables_XYZ) "10:00")
    = [("X", "10:00", "11:00"); ("Y", "08:00", "08:30"); ("Z", "11:00", "11:30")].
Proof. vm_compute. auto. Qed.

(** After a generation the trip has version 1 and one snapshot of it.
    Pinning and unpinning an item writes two more snapshots, both of
    version 1: the versions are not strictly increasing. *)
Example versions_after_pin_unpin :
  snapshot_versions "trip-1" tables_generated = [1]
  /\ current_version "trip-1" tables_generated = Some 1
  /\ snapshot_versions "trip-1" tables_after_pin_unpin = [1; 1; 1]
  /\ current_version "trip-1" tables_after_pin_unpin = Some 1.
Proof. vm_compute. auto. Qed.

Lemma editor_versions_not_strictly_increasing :
  ~ Sorted Z.lt (snapshot_versions "trip-1" tables_after_pin_unpin).
Proof.
  intros H. vm_compute in H.
  inversion H as [| ? ? _ Hh]; subst. inversion Hh as [| ? ? Hlt]; subst. discriminate Hlt.
Qed.

Lemma editor_keeps_versions_witness :
  current_version "trip-1" tables_after_pin_unpin = Some 1
  /\ Sorted Z.le (snapshot_versions "trip-1" tables_after_pin_unpin)
  /\ highest (snapshot_versions "trip-1" tables_after_pin_unpin) 1.
Proof.
  destruct (editor_keeps_versions pin_unpin "trip-1" 1
              (World tables_generated None None 10%nat 0)
              (snd (perform_all pin_unpin (World tables_generated None None 10%nat 0)))
              (fst (perform_all pin_unpin (World tables_generated None None 10%nat 0))))
    as (Hc & Hs & _ & _ & Hh).
  - apply surjective_pairing.
  - vm_compute. reflexivity.
  - vm_compute. repeat constructor.
  - vm_compute. repeat constructor. discriminate.
  - split; [exact Hc |]. split; [exact Hs |]. apply Hh.
    split; [vm_compute; left; reflexivity |]. vm_compute. repeat constructor. discriminate.
Defined.

End EditorChecks.

(** ** Sorting, grouping and the [Map] of pinned items *)
Module ContainerFacts.
Import Db Spec Plan ItineraryGeneratorService.

Lemma insert_sorted_perm {A} (le : A -> A -> bool) x l :
  Permutation (insert_sorted le x l) (x :: l).
Proof.
  induction l as [| y l IH]; simpl; [reflexivity |].
  destruct (le x y); [reflexivity |].
  rewrite IH. apply perm_swap.
Qed.

Lemma sort_by_perm {A} (le : A -> A -> bool) l : Permutation (sort_by le l) l.
Proof.
  unfold sort_by. induction l as [| x l IH]; simpl; [reflexivity |].
  rewrite insert_sorted_perm. now constructor.
Qed.

Lemma map_get_set_eq {V} k (v : V) m : map_get Z.eqb k (map_set Z.eqb k v m) = Some v.
Proof.
  induction m as [| [k' v'] m IH]; simpl.
  - now rewrite Z.eqb_refl.
  - destruct (k =? k') eqn:E; simpl; [now rewrite Z.eqb_refl | now rewrite E].
Qed.

Lemma map_get_set_ne {V} k k' (v : V) m :
  k <> k' -> map_get Z.eqb k (map_set Z.eqb k' v m) = map_get Z.eqb k m.
Proof.
  intros Hne. induction m as [| [k2 v2] m IH]; simpl.
  - destruct (Z.eqb_spec k k'); [contradiction | reflexivity].
  - destruct (Z.eqb_spec k' k2) as [-> | E2]; simpl.
    + destruct (Z.eqb_spec k k2); [contradiction | reflexivity].
    + destruct (k =? k2); [reflexivity | exact IH].
Qed.

Lemma map_get_In {V} k (v : V) m : map_get Z.eqb k m = Some v -> In (k, v) m.
Proof.
  induction m as [| [k' v'] m IH]; simpl; [discriminate |].
  destruct (Z.eqb_spec k k') as [-> | E]; intros H.
  - left. congruence.
  - right. now apply IH.
Qed.

Lemma map_set_keys_in {V} k (v : V) m x :
  In x (List.map fst (map_set Z.eqb k v m)) -> x = k \/ In x (List.map fst m).
Proof.
  induction m as [| [k' v'] m IH]; simpl.
  - intros [<- | []]. now left.
  - destruct (Z.eqb_spec k k') as [-> | E]; simpl.
    + intros [<- | H]; auto.
    + intros [<- | H]; [auto |]. destruct (IH H) as [-> | H']; auto.
Qed.

Lemma map_set_keys {V} k (v : V) m :
  List.NoDup (List.map fst m) -> List.NoDup (List.map fst (map_set Z.eqb k v m)).
Proof.
  induction m as [| [k' v'] m IH]; simpl; intros Hn.
  - constructor; [intros [] | constructor].
  - inversion Hn as [| ? ? Hnot Hn']; subst.
    destruct (Z.eqb_spec k k') as [-> | E]; simpl.
    + now constructor.
    + constructor; [| now apply IH].
      intros Hin. apply map_set_keys_in in Hin as [-> | Hin]; [now apply E | now apply Hnot].
Qed.

(** ** [group_by_day] *)

Lemma group_fold_keys items :
  forall acc, List.NoDup (List.map fst acc) ->
              List.NoDup (List.map fst (fold_left group_step items acc)).
Proof.
  induction items as [| item items IH]; intros acc Hn; simpl; [exact Hn |].
  apply IH. now apply map_set_keys.
Qed.

Lemma group_by_day_keys items : List.NoDup (List.map fst (group_by_day items)).
Proof. apply (group_fold_keys items []). constructor. Qed.

(** An item stays in the list of its day once it is there. *)
Lemma group_fold_keeps items :
  forall acc x l,
    map_get Z.eqb (Item.day x) acc = Some l -> In x l ->
    exists l', map_get Z.eqb (Item.day x) (fold_left group_step items acc) = Some l' /\ In x l'.
Proof.
  induction items as [| item items IH]; intros acc x l Hg Hin; simpl; [eauto |].
  destruct (Z.eq_dec (Item.day x) (Item.day item)) as [E | E].
  - eapply IH.
    + unfold group_step. rewrite E. apply map_get_set_eq.
    + rewrite <- E, Hg. simpl. apply in_or_app. now left.
  - eapply IH; [| exact Hin].
    unfold group_step. rewrite map_get_set_ne by exact E. exact Hg.
Qed.

Lemma group_fold_has items :
  forall acc x, In x items ->
    exists l, map_get Z.eqb (Item.day x) (fold_left group_step items acc) = Some l /\ In x l.
Proof.
  induction items as [| item items IH]; intros acc x Hin; [contradiction |].
  simpl. destruct Hin as [-> | Hin]; [| now apply IH].
  eapply group_fold_keeps.
  - unfold group_step. apply map_get_set_eq.
  - apply in_or_app. right. now left.
Qed.

Lemma group_by_day_has items x :
  In x items -> exists l, In (Item.day x, l) (group_by_day items) /\ In x l.
Proof.
  intros Hin. destruct (group_fold_has items [] x Hin) as (l & Hg & Hl).
  exists l. split; [now apply map_get_In | exact Hl].
Qed.

(** ** [extractPinnedItems] *)

Lemma pinned_fold_other days k :
  forall acc, (forall day, In day days -> Day.day day <> k) ->
              map_get Z.eqb k (fold_left pinned_step days acc) = map_get Z.eqb k acc.
Proof.
  induction days as [| day days IH]; intros acc Hne; simpl; [reflexivity |].
  rewrite IH by (intros d Hd; apply Hne; now right).
  unfold pinned_step. destruct (List.filter _ _); [reflexivity |].
  apply map_get_set_ne. intros E. apply (Hne day); [now left | congruence].
Qed.

Lemma pinned_fold_get days :
  forall acc day item,
    List.NoDup (List.map Day.day days) -> In day days ->
    In item (Day.items day) -> Item.is_pinned item = true ->
    exists l, map_get Z.eqb (Day.day day) (fold_left pinned_step days acc) = Some l
              /\ In item l.
Proof.
  induction days as [| d days IH]; intros acc day item Hn Hin Hitem Hp; [contradiction |].
  inversion Hn as [| ? ? Hnot Hn']; subst. simpl.
  destruct Hin as [-> | Hin]; [| now apply IH].
  rewrite pinned_fold_other.
  - unfold pinned_step.
    assert (Hf : In item (List.filter Item.is_pinned (Day.items day)))
      by (apply filter_In; auto).
    destruct (List.filter Item.is_pinned (Day.items day)) as [| p ps] eqn:Ef; [contradiction |].
    rewrite map_get_set_eq. eauto.
  - intros d Hd E. apply Hnot. rewrite <- E. now apply in_map.
Qed.

Lemma extractPinnedItems_get itinerary day item :
  List.NoDup (List.map Day.day (Itinerary.days itinerary)) ->
  In day (Itinerary.days itinerary) ->
  In item (Day.items day) -> Item.is_pinned item = true ->
  exists l, map_get Z.eqb (Day.day day) (extractPinnedItems itinerary) = Some l /\ In item l.
Proof. intros Hn Hin Hitem Hp. now apply (pinned_fold_get _ [] day item). Qed.

End ContainerFacts.

(** ** Generation from end to end *)
Module GenerationFacts.
Import Db Spec DbFacts Plan PlanFacts ContainerFacts GeneratorFacts.
Import ItineraryGeneratorService ItineraryGeneration.

#[local] Instance same_items_refl : Reflexive same_items.
Proof. intros d. reflexivity. Qed.

#[local] Instance same_items_trans : Transitive same_items.
Proof. intros d1 d2 d3 H1 H2. unfold same_items in *. congruence. Qed.

Lemma getTripWithPreferences_ok tripId userId guest (w w' : world tables) tp :
  TripService.getTripWithPreferences tripId userId guest w = (Ok tp, w') ->
  trip_preferences (db w) !! tripId = Some (snd tp) /\ db w' = db w.
Proof.
  intros H. split; [| symmetry; exact (getTripWithPreferences_reads _ _ _ _ _ _ H)].
  unfold TripService.getTripWithPreferences in H.
  apply bind_ok in H as (trip & w1 & Hg & H).
  pose proof (getTripById_reads _ _ _ _ _ _ Hg) as Hd1.
  apply bind_ok in H as (prefs & w2 & Hq & H).
  apply (query_read_ok (fun d => trip_preferences d !! tripId)) in Hq as (-> & _).
  destruct (trip_preferences (db w1) !! tripId) as [p |] eqn:Ep; inversion H; subst.
  simpl. now rewrite Hd1.
Qed.

Lemma resolve_pois_reads ids : forall pois, preserves eq (resolve_pois ids pois).
Proof.
  induction ids as [| poiId ids IH]; intros pois; cbn [resolve_pois].
  - repeat preserves_step.
  - repeat first [ apply IH | apply getPOIById_reads | preserves_step ].
Qed.

Section Generate.
Variable calculateDistance : Q -> Q -> Q -> Q -> Q.

Lemma place_pois_reads {T} dayNum date endTime pois :
  forall items currentTime,
    preserves (T:=T) eq (place_pois calculateDistance dayNum date endTime pois items currentTime).
Proof.
  induction pois as [| poi rest IH]; intros items currentTime; cbn [place_pois].
  - repeat preserves_step.
  - repeat first [ apply IH | preserves_step ].
Qed.

Lemma generateDayItems_reads {T} dayNum date pois preferences pinnedItems :
  preserves (T:=T) eq
    (generateDayItems calculateDistance dayNum date pois preferences pinnedItems).
Proof.
  unfold generateDayItems.
  repeat first [ apply place_pois_reads | preserves_step ].
Qed.

Lemma days_loop_reads {T} preferences poisPerDay pinnedItems dayNums :
  forall days,
    preserves (T:=T) eq
      (days_loop calculateDistance preferences poisPerDay pinnedItems dayNums days).
Proof.
  induction dayNums as [| dayNum rest IH]; intros days; cbn [days_loop].
  - repeat preserves_step.
  - repeat first [ apply IH | apply generateDayItems_reads | preserves_step ].
Qed.

Lemma generateDays_reads {T} pois preferences existing preservePinned :
  preserves (T:=T) eq (generateDays calculateDistance pois preferences existing preservePinned).
Proof.
  unfold generateDays, distributePOIs.
  repeat first [ apply days_loop_reads | preserves_step ].
Qed.

End Generate.

(** A save that goes through has inserted every item of every day. *)
Lemma saveItinerary_inserts tripId days currentVersion (w w' : world tables) itineraryId
    day item :
  saveItinerary tripId days currentVersion w = (Ok itineraryId, w') ->
  In day days -> In item (Day.items day) ->
  In (saved_row tripId item) (itinerary_items (db w')).
Proof.
  unfold saveItinerary. intros H Hday Hitem.
  apply bind_ok in H as (iid & w1 & _ & H).
  apply bind_ok in H as (u1 & w2 & _ & H).
  apply bind_ok in H as (u2 & w3 & Hloop & H).
  apply bind_ok in H as (u3 & w4 & Hup & H). inversion H; subst; clear H.
  apply query_ok in Hup as (Hup & _). injection Hup as _ Hup. rewrite <- Hup. simpl.
  set (I := fun d : tables => In (saved_row tripId item) (itinerary_items d)).
  assert (Hkeep : forall row (wa wb : world tables) ua,
             query (insert_item row) wa = (Ok ua, wb) -> I (db wa) -> I (db wb)).
  { intros row wa wb ua Hq Hi. apply query_ok in Hq as (Hq & _).
    unfold insert_item in Hq. destruct (existsb _ _); [discriminate Hq |].
    injection Hq as _ Hq. unfold I. rewrite <- Hq. simpl. apply in_or_app. now left. }
  revert Hloop. apply (ReplanFacts.for_each_ok_establishes I _ _ day Hday).
  - intros wa ua wb. apply (ReplanFacts.for_each_ok_establishes I _ _ item Hitem).
    + intros wc uc wd Hq. apply query_ok in Hq as (Hq & _).
      unfold insert_item in Hq. destruct (existsb _ _); [discriminate Hq |].
      injection Hq as _ Hq. unfold I. rewrite <- Hq. simpl.
      apply in_or_app. right. now left.
    + intros x wc uc wd _. apply Hkeep.
  - intros x wa ua wb _. apply ReplanFacts.for_each_ok_keeps.
    intros y wc uc wd _. apply Hkeep.
Qed.

Lemma insert_version_same_items row d a d' :
  ItineraryVersionService.insert_version row d = (Ok a, d') -> same_items d d'.
Proof.
  unfold ItineraryVersionService.insert_version.
  destruct (existsb _ _); intros H; inversion H. reflexivity.
Qed.

Lemma createSnapshot_same_items tripId changeType changedBy previousVersion :
  preserves same_items
    (ItineraryVersionService.createSnapshot tripId changeType changedBy previousVersion).
Proof.
  unfold ItineraryVersionService.createSnapshot.
  repeat first [ apply (reads_preserves same_items); apply getItineraryByTripId_reads
               | apply preserves_query;
                 [ typeclasses eauto .. | intros ? ? ?; apply insert_version_same_items ]
               | preserves_step ].
Qed.

(** Every stored item of the trip is in the day of its number in the
    itinerary that is read, and no two days of it have the same number. *)
Lemma itinerary_days_hold tripId (w w' : world tables) itinerary item :
  getItineraryByTripId tripId w = (Ok (Some itinerary), w') ->
  In item (itinerary_items (db w)) -> Item.trip_id item = tripId ->
  List.NoDup (List.map Day.day (Itinerary.days itinerary))
  /\ exists day, In day (Itinerary.days itinerary)
                 /\ Day.day day = Item.day item /\ In item (Day.items day).
Proof.
  intros H Hin Htrip.
  apply getItineraryByTripId_ok in H as (_ & row & prefs & _ & _ & _ & _ & Hdays).
  rewrite Hdays. split.
  - eapply Permutation_NoDup.
    + apply Permutation_map. symmetry. apply sort_by_perm.
    + rewrite List.map_map.
      erewrite List.map_ext; [apply group_by_day_keys |].
      intros [k l]. reflexivity.
  - assert (Hsel : In item (select_trip_items tripId (db w))).
    { unfold select_trip_items. eapply Permutation_in; [symmetry; apply sort_by_perm |].
      apply filter_In. split; [exact Hin |]. rewrite Htrip. apply String.eqb_refl. }
    destruct (group_by_day_has _ _ Hsel) as (l & Hg & Hl).
    eexists. split.
    + eapply Permutation_in; [symmetry; apply sort_by_perm |].
      apply in_map_iff. exists (Item.day item, l). split; [reflexivity | exact Hg].
    + simpl. auto.
Qed.

Section Pinned.
Variable calculateDistance : Q -> Q -> Q -> Q -> Q.

(** C4, as the code has it.  A generation that asks for it
    ([regenerate_mode = incremental], [preserve_pinned = true]) on a trip
    that has an itinerary keeps every pinned item of the trip whose day is
    one of the days 1..N it generates: after it, [itinerary_items] has a
    row with the same id, day, start and end time, still pinned.  (A full
    generation, or one without [preserve_pinned], deletes every item the
    trip had; so does this one for pinned items on days after N.) *)
Theorem incremental_generate_keeps_pinned tripId request userId guestSessionId
    (w w' : world tables) result preferences n item :
  generateItinerary calculateDistance tripId request userId guestSessionId w = (Ok result, w') ->
  regenerate_mode request = Some "incremental" ->
  preserve_pinned request = Some true ->
  is_Some (itineraries (db w) !! tripId) ->
  trip_preferences (db w) !! tripId = Some preferences ->
  numDays_of preferences = Some n ->
  In item (itinerary_items (db w)) ->
  Item.trip_id item = tripId ->
  Item.is_pinned item = true ->
  1 <= Item.day item <= n ->
  exists row, In row (itinerary_items (db w'))
              /\ position row = position item
              /\ Item.trip_id row = tripId
              /\ Item.is_pinned row = true.
Proof.
  intros H Hmode Hkeep [irow Hirow] Hprefs Hn Hin Htrip Hpin Hday.
  unfold generateItinerary in H.
  apply bind_ok in H as (tp & w1 & Htp & H).
  apply getTripWithPreferences_ok in Htp as (Hp1 & Hd1).
  rewrite Hprefs in Hp1. injection Hp1 as Hp1. rewrite <- Hp1 in H. clear Hp1.
  apply bind_ok in H as (pois & w2 & Hres & H).
  pose proof (resolve_pois_reads _ _ _ _ _ Hres) as Hd2. simpl in Hd2.
  destruct pois as [| poi pois]; [discriminate H |].
  apply bind_ok in H as (existing & w3 & Hex & H).
  unfold is_incremental in Hex, H. rewrite Hmode in Hex, H. simpl in Hex, H.
  pose proof (getItineraryByTripId_reads _ _ _ _ Hex) as Hd3.
  assert (Hin2 : In item (itinerary_items (db w2))) by (rewrite <- Hd2, Hd1; exact Hin).
  destruct existing as [itinerary |].
  2: { apply getItineraryByTripId_ok in Hex as (_ & Hnone).
       rewrite <- Hd2, Hd1, Hirow in Hnone. discriminate Hnone. }
  destruct (itinerary_days_hold _ _ _ _ _ Hex Hin2 Htrip) as (Hnodup & day & Hday_in & Hday_n & Hitem).
  destruct (extractPinnedItems_get itinerary day item Hnodup Hday_in Hitem Hpin)
    as (kept & Hget & Hkept).
  apply bind_ok in H as (days & w4 & Hgen & H).
  rewrite Hkeep in Hgen. simpl in Hgen.
  pose proof (generateDays_reads calculateDistance _ _ _ _ _ _ _ Hgen) as Hd4.
  apply generateDays_days in Hgen as (n' & Hn' & Hnums & Hforall).
  rewrite Hn in Hn'. injection Hn' as <-.
  assert (Hnum : In (Item.day item) (List.map Day.day days)).
  { rewrite Hnums. apply list_elem_of_In. apply elem_of_seqZ. lia. }
  apply in_map_iff in Hnum as (newDay & HnewN & HnewIn).
  rewrite List.Forall_forall in Hforall. destruct (Hforall newDay HnewIn) as (more & Hitems).
  rewrite HnewN, <- Hday_n, Hget in Hitems. simpl in Hitems.
  assert (HitemNew : In item (Day.items newDay))
    by (rewrite Hitems; apply in_or_app; now left).
  apply bind_ok in H as (itineraryId & w5 & Hsave & H).
  pose proof (saveItinerary_inserts _ _ _ _ _ _ newDay item Hsave HnewIn HitemNew) as Hsaved.
  apply bind_ok in H as (previousVersion & w6 & Hprev & H).
  assert (Hd6 : db w5 = db w6).
  { assert (Hp : preserves eq
              (catch_default
                 (v <- ItineraryVersionService.getVersion tripId (Itinerary.version itinerary) ;;
                  ret (Some v)) None))
      by (repeat first [ apply getVersion_reads | preserves_step ]).
    exact (Hp _ _ _ Hprev). }
  apply bind_ok in H as (snapshot & w7 & Hsnap & H). injection H as _ Hw. rewrite <- Hw.
  apply createSnapshot_same_items in Hsnap. unfold same_items in Hsnap.
  exists (saved_row tripId item). rewrite Hsnap, <- Hd6.
  split; [exact Hsaved |]. repeat split; assumption.
Qed.

End Pinned.

End GenerationFacts.

Module PinChecks.
Import Db Spec DbFacts Plan PlanFacts ItineraryGeneratorService ItineraryGeneration.
Import GenerationFacts GenerationScenario ReplanScenario EditorScenario PinScenario.

(** A full generation deletes the pinned lunch: the run goes through, the
    lunch was pinned before it, and no row has its position after it. *)
Lemma full_generate_drops_pinned :
  is_ok (fst full_run) = true
  /\ In lunch (itinerary_items tables_lunch)
  /\ Item.is_pinned lunch = true
  /\ ~ In (position lunch) (positions (db (snd full_run))).
Proof.
  split; [vm_compute; reflexivity |]. split; [left; reflexivity |].
  split; [reflexivity |].
  vm_compute. intros [H | [H | []]]; discriminate H.
Qed.

Example full_generate_positions :
  positions (db (snd full_run))
  = [("uuid-0", 1, "10:15", "12:15"); ("uuid-2", 1, "12:50", "14:20")].
Proof. vm_compute. reflexivity. Qed.

(** The incremental generation keeps the lunch of day 1; the pinned temple
    of day 2 is past the one day that is generated and goes. *)
Example incremental_generate_positions :
  positions (db (snd incremental_run))
  = [("item-lunch", 1, "12:00", "13:00");
     ("uuid-0", 1, "10:15", "12:15"); ("uuid-2", 1, "12:50", "14:20")].
Proof. vm_compute. reflexivity. Qed.

Lemma incremental_generate_keeps_pinned_witness :
  exists row, In row (itinerary_items (db (snd incremental_run)))
              /\ position row = position lunch
              /\ Item.trip_id row = "trip-1"
              /\ Item.is_pinned row = true.
Proof.
  unfold incremental_run.
  destruct (generateItinerary flat "trip-1" request_incremental None None
              (healthy tables_lunch)) as [[result | e] w'] eqn:E.
  - apply (incremental_generate_keeps_pinned flat "trip-1" request_incremental None None
             (healthy tables_lunch) w' result prefs_march 1 lunch E).
    + reflexivity.
    + reflexivity.
    + eexists. vm_compute. reflexivity.
    + vm_compute. reflexivity.
    + reflexivity.
    + left. reflexivity.
    + reflexivity.
    + reflexivity.
    + simpl. lia.
  - vm_compute in E. discriminate E.
Defined.

End PinChecks.

(** A run that is known to go through is not an error: the case of an
    error is closed by evaluating the run. *)
Module RunTactics.
Import Db.

Ltac not_an_error E :=
  lazymatch type of E with
  | ?run = (Err _, _) =>
      let Hok := fresh "Hok" in
      assert (Hok : is_ok (fst run) = true) by (vm_compute; reflexivity);
      rewrite E in Hok; discriminate Hok
  end.

End RunTactics.

(** ** Times of day *)
Module TimeFacts.
Import Js TimeOfDay ItineraryEditorService Spec.

Lemma in_range_digit lo hi c :
  in_range lo hi c = true ->
  (nat_of_ascii lo <= nat_of_ascii c <= nat_of_ascii hi)%nat.
Proof.
  unfold in_range. intros H. apply andb_prop in H as (H1 & H2).
  apply Nat.leb_le in H1, H2. lia.
Qed.

Lemma ascii_between c (lo hi : nat) :
  (lo <= nat_of_ascii c <= hi)%nat ->
  In c (List.map ascii_of_nat (seq lo (S hi - lo))).
Proof.
  intros H. apply in_map_iff. exists (nat_of_ascii c). split.
  - apply ascii_nat_embedding.
  - apply in_seq. lia.
Qed.

Lemma hour_text h1 h2 :
  (in_range "0" "1" h1 && in_range "0" "9" h2) || (Ascii.eqb h1 "2" && in_range "0" "3" h2) = true ->
  exists h, 0 <= h < 24
    /\ String h1 (String h2 EmptyString) = padStart2 (toString (Some h))
    /\ Number (Some (String h1 (String h2 EmptyString))) = Some h
    /\ Ascii.eqb h1 ":" = false /\ Ascii.eqb h2 ":" = false.
Proof.
  intros H. apply orb_prop in H as [H | H]; apply andb_prop in H as (H1 & H2).
  - apply in_range_digit, ascii_between in H1, H2. simpl in H1, H2.
    repeat (destruct H1 as [<- | H1]; [| ]); try contradiction;
    repeat (destruct H2 as [<- | H2]; [| ]); try contradiction;
    (eexists; split; [| split; [| split; [vm_compute; reflexivity | split; reflexivity]]];
      [| vm_compute; reflexivity]; lia).
  - apply Ascii.eqb_eq in H1. subst h1.
    apply in_range_digit, ascii_between in H2. simpl in H2.
    repeat (destruct H2 as [<- | H2]; [| ]); try contradiction;
    (eexists; split; [| split; [| split; [vm_compute; reflexivity | split; reflexivity]]];
      [| vm_compute; reflexivity]; lia).
Qed.

Lemma minute_text m1 m2 :
  in_range "0" "5" m1 && in_range "0" "9" m2 = true ->
  exists m, 0 <= m < 60
    /\ String m1 (String m2 EmptyString) = padStart2 (toString (Some m))
    /\ Number (Some (String m1 (String m2 EmptyString))) = Some m
    /\ Ascii.eqb m1 ":" = false /\ Ascii.eqb m2 ":" = false.
Proof.
  intros H. apply andb_prop in H as (H1 & H2).
  apply in_range_digit, ascii_between in H1, H2. simpl in H1, H2.
  repeat (destruct H1 as [<- | H1]; [| ]); try contradiction;
  repeat (destruct H2 as [<- | H2]; [| ]); try contradiction;
  (eexists; split; [| split; [| split; [vm_compute; reflexivity | split; reflexivity]]];
    [| vm_compute; reflexivity]; lia).
Qed.

(** Below 100, a number is printed with two digits and read back as itself. *)
Lemma small_nat_cases (P : Z -> Prop) (bound : nat) :
  (forall k : nat, (k < bound)%nat -> P (Z.of_nat k)) ->
  forall z, 0 <= z < Z.of_nat bound -> P z.
Proof.
  intros H z Hz. rewrite <- (Z2Nat.id z) by lia. apply H. lia.
Qed.

Lemma text_hour h :
  0 <= h < 24 ->
  exists h1 h2,
    padStart2 (toString (Some h)) = String h1 (String h2 EmptyString)
    /\ (in_range "0" "1" h1 && in_range "0" "9" h2)
       || (Ascii.eqb h1 "2" && in_range "0" "3" h2) = true
    /\ Number (Some (String h1 (String h2 EmptyString))) = Some h
    /\ Ascii.eqb h1 ":" = false /\ Ascii.eqb h2 ":" = false.
Proof.
  revert h. apply (small_nat_cases _ 24). intros k Hk.
  do 24 (destruct k as [| k]; [eexists _, _; repeat split; vm_compute; reflexivity |]). lia.
Qed.

Lemma text_minute m :
  0 <= m < 60 ->
  exists m1 m2,
    padStart2 (toString (Some m)) = String m1 (String m2 EmptyString)
    /\ in_range "0" "5" m1 && in_range "0" "9" m2 = true
    /\ Number (Some (String m1 (String m2 EmptyString))) = Some m
    /\ Ascii.eqb m1 ":" = false /\ Ascii.eqb m2 ":" = false.
Proof.
  revert m. apply (small_nat_cases _ 60). intros k Hk.
  do 60 (destruct k as [| k]; [eexists _, _; repeat split; vm_compute; reflexivity |]). lia.
Qed.

(** The texts the editor's pattern accepts are the clock texts. *)
Lemma timeRegex_clock s :
  timeRegex_test s = true <-> exists h m, 0 <= h < 24 /\ 0 <= m < 60 /\ s = clock_text h m.
Proof.
  split.
  - unfold timeRegex_test. intros H.
    destruct s as [| h1 [| h2 [| c [| m1 [| m2 [| x rest]]]]]]; simpl in H; try discriminate.
    apply andb_prop in H as (H & Hm2). apply andb_prop in H as (H & Hm1).
    apply andb_prop in H as (Hh & Hc). apply Ascii.eqb_eq in Hc. subst c.
    destruct (hour_text h1 h2 Hh) as (h & Hhr & Hht & _).
    assert (Hm : in_range "0" "5" m1 && in_range "0" "9" m2 = true) by (now rewrite Hm1, Hm2).
    destruct (minute_text m1 m2 Hm) as (m & Hmr & Hmt & _).
    exists h, m. split; [exact Hhr |]. split; [exact Hmr |].
    unfold clock_text. rewrite <- Hht, <- Hmt. reflexivity.
  - intros (h & m & Hh & Hm & ->). unfold clock_text.
    destruct (text_hour h Hh) as (h1 & h2 & -> & Hhc & _).
    destruct (text_minute m Hm) as (m1 & m2 & -> & Hmc & _).
    apply andb_prop in Hmc as (Hm1 & Hm2).
    unfold timeRegex_test. cbv [String.append list_ascii_of_string].
    rewrite Hhc, Hm1, Hm2. reflexivity.
Qed.

(** A clock text splits at its colon into the hour and the minute. *)
Lemma clock_text_parts h m :
  0 <= h < 24 -> 0 <= m < 60 ->
  exists sh sm, split_colon (clock_text h m) = [sh; sm]
                /\ Number (Some sh) = Some h /\ Number (Some sm) = Some m.
Proof.
  intros Hh Hm. unfold clock_text.
  destruct (text_hour h Hh) as (h1 & h2 & -> & _ & Nh & Ch1 & Ch2).
  destruct (text_minute m Hm) as (m1 & m2 & -> & _ & Nm & Cm1 & Cm2).
  exists (String h1 (String h2 EmptyString)), (String m1 (String m2 EmptyString)).
  split; [| split; assumption].
  unfold split_colon. cbv [String.append]. cbn [split_colon_go].
  rewrite Ch1, Ch2, Cm1, Cm2. cbn. reflexivity.
Qed.

(** [addMinutes] on a clock text is clock arithmetic: the minutes are added
    and the day wraps at 24:00. *)
Lemma addMinutes_clock_text h m n :
  0 <= h < 24 -> 0 <= m < 60 -> 0 <= n ->
  addMinutes (clock_text h m) n =
    clock_text (((h * 60 + m + n) / 60) mod 24) ((h * 60 + m + n) mod 60).
Proof.
  intros Hh Hm Hn. unfold addMinutes.
  destruct (clock_text_parts h m Hh Hm) as (sh & sm & -> & Nh & Nm).
  change ([sh; sm] !! 0%nat) with (Some sh). change ([sh; sm] !! 1%nat) with (Some sm).
  rewrite Nh, Nm. cbn [option_map].
  unfold jsmod, floor_div, clock_text.
  rewrite !Z.rem_mod_nonneg by (try apply Z.div_pos; lia). reflexivity.
Qed.

Lemma parseTime_clock_text h m :
  0 <= h < 24 -> 0 <= m < 60 ->
  ReplanApplyService.parseTime (clock_text h m) = Some ((h * 60 + m) * 60 * 1000).
Proof.
  intros Hh Hm. unfold ReplanApplyService.parseTime.
  destruct (clock_text_parts h m Hh Hm) as (sh & sm & -> & Nh & Nm).
  change ([sh; sm] !! 0%nat) with (Some sh). change ([sh; sm] !! 1%nat) with (Some sm).
  now rewrite Nh, Nm.
Qed.

(** Adding minutes to a time of day.  For a text [s] the editor's pattern
    [HH:mm] accepts and [n >= 0] minutes, [addMinutes s n] is again such a
    text, and it is the time of day [n] minutes after [s], the day wrapping
    at 24:00: no date is carried. *)
Theorem addMinutes_wraps_at_midnight s n :
  timeRegex_test s = true -> 0 <= n ->
  exists h m,
    0 <= h < 24 /\ 0 <= m < 60 /\ s = clock_text h m
    /\ addMinutes s n = clock_text (((h * 60 + m + n) / 60) mod 24) ((h * 60 + m + n) mod 60)
    /\ timeRegex_test (addMinutes s n) = true.
Proof.
  intros Hs Hn. apply timeRegex_clock in Hs as (h & m & Hh & Hm & ->).
  exists h, m. rewrite addMinutes_clock_text by assumption.
  repeat split; try lia.
  apply timeRegex_clock. eexists _, _. split; [| split; [| reflexivity]].
  - apply Z.mod_pos_bound. lia.
  - apply Z.mod_pos_bound. lia.
Qed.

(** [calculateDuration] undoes [addMinutes] up to the wrap at midnight: from
    a start [s] of [t] minutes after 00:00, the duration to
    [addMinutes s n] is [(t + n) mod 1440 - t]; it is [n] exactly when the
    end falls on the same day, and negative by a multiple of a day
    otherwise. *)
Theorem duration_of_added_minutes s n :
  timeRegex_test s = true -> 0 <= n ->
  exists t,
    0 <= t < 1440
    /\ ReplanApplyService.parseTime s = Some (t * 60 * 1000)
    /\ ReplanApplyService.calculateDuration s (addMinutes s n) = Some ((t + n) mod 1440 - t)
    /\ (t + n < 1440 -> ReplanApplyService.calculateDuration s (addMinutes s n) = Some n).
Proof.
  intros Hs Hn. apply timeRegex_clock in Hs as (h & m & Hh & Hm & ->).
  exists (h * 60 + m). split; [lia |]. split; [now apply parseTime_clock_text |].
  assert (Hd : ReplanApplyService.calculateDuration (clock_text h m)
                 (addMinutes (clock_text h m) n)
               = Some ((h * 60 + m + n) mod 1440 - (h * 60 + m))).
  { unfold ReplanApplyService.calculateDuration.
    rewrite addMinutes_clock_text by assumption.
    rewrite !parseTime_clock_text by (try apply Z.mod_pos_bound; lia).
    f_equal.
    replace 1440 with (60 * 24) by reflexivity.
    rewrite (Z.rem_mul_r (h * 60 + m + n) 60 24) by lia.
    set (a := (h * 60 + m + n) / 60 mod 24). set (b := (h * 60 + m + n) mod 60).
    replace ((a * 60 + b) * 60 * 1000 - (h * 60 + m) * 60 * 1000)
      with ((b + 60 * a - (h * 60 + m)) * (1000 * 60)) by ring.
    apply Z.div_mul. lia. }
  split; [exact Hd |].
  intros Hlt. rewrite Hd. f_equal. rewrite Z.mod_small by lia. lia.
Qed.
End TimeFacts.

Module TimeChecks.
Import RunTactics.
Import Js TimeOfDay ItineraryEditorService Spec TimeFacts.

(** Half past eleven at night and an hour: half past midnight. *)
Lemma addMinutes_wraps_at_midnight_witness :
  exists h m,
    0 <= h < 24 /\ 0 <= m < 60 /\ "23:30" = clock_text h m
    /\ addMinutes "23:30" 60 = clock_text (((h * 60 + m + 60) / 60) mod 24) ((h * 60 + m + 60) mod 60)
    /\ timeRegex_test (addMinutes "23:30" 60) = true.
Proof. apply (addMinutes_wraps_at_midnight "23:30" 60); [reflexivity | lia]. Defined.

Example addMinutes_past_midnight : addMinutes "23:30" 60 = "00:30".
Proof. vm_compute. reflexivity. Qed.

Lemma duration_of_added_minutes_witness :
  exists t,
    0 <= t < 1440
    /\ ReplanApplyService.parseTime "23:30" = Some (t * 60 * 1000)
    /\ ReplanApplyService.calculateDuration "23:30" (addMinutes "23:30" 60)
       = Some ((t + 60) mod 1440 - t)
    /\ (t + 60 < 1440 ->
        ReplanApplyService.calculateDuration "23:30" (addMinutes "23:30" 60) = Some 60).
Proof. apply (duration_of_added_minutes "23:30" 60); [reflexivity | lia]. Defined.

(** The item that runs past midnight gets a negative duration. *)
Example duration_past_midnight :
  ReplanApplyService.calculateDuration "23:30" (addMinutes "23:30" 60) = Some (-1380).
Proof. vm_compute. reflexivity. Qed.

End TimeChecks.

(** ** Bookings: the state history and the orchestrator *)
Module BookingHistoryFacts.
Import Db Spec DbFacts Booking BookingFacts.

(** A status change along an edge, in a session with no forced failure:
    the row is updated, one history row is appended, the updated booking is
    returned. *)
Lemma updateBookingStatus_edge bookingId b newStatus reason updatedBy updates (w : world tables) :
  fail_in w = None ->
  bookings (db w) !! bookingId = Some b ->
  transition (Some (status b)) newStatus ->
  updateBookingStatus bookingId newStatus reason updatedBy updates w =
    (Ok (apply_updates newStatus updates b),
     with_db w
       {| bookings := alter (apply_updates newStatus updates) bookingId (bookings (db w));
          booking_state_history :=
            (booking_state_history (db w) ++
               [{| booking_id := bookingId; from_status := Some (status b);
                   to_status := newStatus; reason := or_null reason;
                   changed_by := or_null updatedBy |}])%list;
          booking_idempotency := booking_idempotency (db w) |}).
Proof.
  intros Hf Hb Ht. unfold updateBookingStatus, bind at 1.
  rewrite (getBookingById_healthy w bookingId b Hf Hb).
  unfold bind at 1. unfold validateStateTransition.
  apply includes_transition in Ht. rewrite Ht. simpl.
  unfold bind at 1. rewrite query_healthy by exact Hf. simpl.
  unfold bind at 1. unfold addStateHistory. rewrite query_healthy by exact Hf. simpl.
  rewrite getBookingById_healthy with (b := apply_updates newStatus updates b).
  - reflexivity.
  - exact Hf.
  - simpl. rewrite lookup_alter_eq, Hb. reflexivity.
Qed.

Lemma updateBookingStatus_off_graph bookingId b newStatus reason updatedBy updates
    (w : world tables) :
  fail_in w = None ->
  bookings (db w) !! bookingId = Some b ->
  ~ transition (Some (status b)) newStatus ->
  updateBookingStatus bookingId newStatus reason updatedBy updates w =
    (Err (ValidationError ("Invalid state transition from " ++ status_text (status b)
                           ++ " to " ++ status_text newStatus)), w).
Proof.
  intros Hf Hb Hn. unfold updateBookingStatus, bind.
  rewrite (getBookingById_healthy w bookingId b Hf Hb).
  unfold validateStateTransition.
  destruct (includes (validTransitions (Some (status b))) newStatus) eqn:E.
  - exfalso. apply Hn. now apply includes_transition.
  - reflexivity.
Qed.


Lemma history_of_snoc bookingId d d' row :
  booking_state_history d' = (booking_state_history d ++ [row])%list ->
  history_of bookingId d' =
    (history_of bookingId d ++ if String.eqb (booking_id row) bookingId then [row] else [])%list.
Proof.
  intros H. unfold history_of. rewrite H, List.filter_app. simpl.
  destruct (String.eqb (booking_id row) bookingId); reflexivity.
Qed.

Lemma last_status_snoc from rows h : last_status from (rows ++ [h]) = Some (to_status h).
Proof. unfold last_status. rewrite fold_left_app. reflexivity. Qed.

Lemma chained_snoc rows : forall from h,
  chained from rows ->
  from_status h = last_status from rows ->
  transition (last_status from rows) (to_status h) ->
  chained from (rows ++ [h]).
Proof.
  induction rows as [| r rows IH]; intros from h Hc Hf Ht; simpl in *.
  - auto.
  - destruct Hc as (H1 & H2 & H3). repeat split; auto.
Qed.

(** The history invariant is kept by the two operations of [BookingService]
    that write, whenever they return a booking: the history of every
    booking stays a path of the transition graph from [null] to the
    booking's status, which is what [getBookingStateHistory] then reads. *)
Theorem history_stays_consistent (w : world tables) :
  history_consistent (db w) ->
  (forall tripId request userId b w',
     createBooking tripId request userId w = (Ok b, w') -> history_consistent (db w'))
  /\ (forall bookingId newStatus reason updatedBy updates b w',
        updateBookingStatus bookingId newStatus reason updatedBy updates w = (Ok b, w') ->
        history_consistent (db w')).
Proof.
  intros Hinv. split.
  - intros tripId request userId b w' H. unfold createBooking in H.
    apply bind_ok in H as (existing & wa & Hq & H).
    pose proof Hq as Hqd. apply query_ok in Hqd as (Hqd & _). injection Hqd as _ Hda.
    destruct existing as [b0 |].
    { inversion H; subst. rewrite <- Hda. exact Hinv. }
    apply bind_ok in H as (u1 & wb & Hv & H).
    apply validateStateTransition_ok in Hv as (_ & ->).
    apply bind_ok in H as (bookingId & wc & Hu1 & H).
    apply bind_ok in H as (conf & wd & Hu2 & H).
    apply bind_ok in H as (u2 & we & Hins & H).
    apply bind_ok in H as (u3 & wf & Hhist & H).
    apply bind_ok in H as (u4 & wg & Hidem & H).
    apply getBookingById_ok in H as (_ & Hd1).
    inversion Hu1; subst; clear Hu1. inversion Hu2; subst; clear Hu2. simpl in *.
    apply query_ok in Hins as (Hins & _). simpl in Hins.
    unfold insert_booking in Hins. simpl in Hins.
    destruct (bookings (db wa) !! uuid_of (next_uuid wa)) eqn:Efresh; [discriminate Hins |].
    injection Hins as _ He.
    apply query_ok in Hhist as (Hhist & _). injection Hhist as _ Hf.
    apply query_ok in Hidem as (Hidem & _). unfold insert_idempotency in Hidem.
    destruct (booking_idempotency (db wf) !! idempotency_key request); [discriminate Hidem |].
    injection Hidem as _ Hg.
    rewrite Hd1, <- Hg, <- Hf, <- He. clear Hd1 Hg Hf He. rewrite <- Hda in Efresh |- *.
    set (newId := uuid_of (next_uuid wa)) in *. clearbody newId.
    intros bid. simpl.
    erewrite (history_of_snoc bid (db w)) by (simpl; reflexivity). simpl.
    specialize (Hinv bid).
    destruct (String.eqb_spec newId bid) as [<- | Hne].
    + rewrite lookup_insert_eq. rewrite Efresh in Hinv. rewrite Hinv. simpl.
      repeat split; constructor.
    + rewrite lookup_insert_ne by exact Hne. rewrite app_nil_r. exact Hinv.
  - intros bookingId newStatus reason updatedBy updates b w' H.
    unfold updateBookingStatus in H.
    apply bind_ok in H as (b0 & w1 & Hg & H).
    apply getBookingById_ok in Hg as (Hb & Hd1).
    apply bind_ok in H as (u & w2 & Hv & H).
    apply validateStateTransition_ok in Hv as (Ht & ->).
    apply bind_ok in H as (u2 & w3 & Hup & H).
    apply query_ok in Hup as (Hup & _). injection Hup as _ Hd3.
    apply bind_ok in H as (u3 & w4 & Hh & H).
    apply query_ok in Hh as (Hh & _). injection Hh as _ Hd4.
    apply getBookingById_ok in H as (_ & Hd5).
    rewrite Hd5, <- Hd4, <- Hd3, Hd1. clear Hd5 Hd4 Hd3.
    intros bid. simpl.
    erewrite (history_of_snoc bid (db w)) by (simpl; reflexivity). simpl.
    pose proof (Hinv bid) as Hbid.
    destruct (String.eqb_spec bookingId bid) as [<- | Hne].
    + rewrite lookup_alter_eq, Hb. simpl. rewrite Hb in Hbid. destruct Hbid as (Hc & Hl).
      split; [| apply last_status_snoc].
      apply chained_snoc; [exact Hc | simpl; now rewrite Hl | simpl; now rewrite Hl].
    + rewrite lookup_alter_ne by exact Hne. rewrite app_nil_r. exact Hbid.
Qed.

Lemma pending_to_pending_refused : ~ transition (Some pending) pending.
Proof. intros H. inversion H. Qed.

Section Orchestrated.
Variable getProvider : string -> option ProviderAdapter.




(** Replaying an orchestrated booking that is settled.  The idempotency key
    of the request resolves to a booking that is neither pending nor
    failed (so confirmed, canceled or refunded).  The orchestrator does not
    stop at the booking its replay finds: it calls the provider again,
    whatever the provider does it ends by asking for the transition to
    [failed], and throws that refusal.  Nothing is written. *)
Theorem settled_booking_replay_is_refused tripId request userId provider b (w : world tables) :
  getProvider (req_provider_id request) = Some provider ->
  fail_in w = None ->
  booking_idempotency (db w) !! idempotency_key request = Some (id b) ->
  bookings (db w) !! id b = Some b ->
  status b <> pending -> status b <> failed ->
  orchestrator_createBooking getProvider tripId request userId w =
    (Err (ValidationError ("Invalid state transition from " ++ status_text (status b)
                           ++ " to failed")), w).
Proof.
  intros Hp Hf Hk Hb Hn1 Hn2.
  unfold orchestrator_createBooking. rewrite Hp. unfold bind at 1.
  unfold createBooking, bind at 1.
  rewrite (getBookingByIdempotencyKey_healthy w _ Hf), Hk, Hb. cbn [ret].
  assert (Hfailed : forall e,
            (updateBookingStatus (id b) failed (Some (error_message e)) (Some "system")
               no_updates ;;; @throw tables Booking e) w
            = (Err (ValidationError ("Invalid state transition from " ++ status_text (status b)
                                     ++ " to failed")), w)).
  { intros e. unfold bind.
    rewrite (updateBookingStatus_off_graph (id b) b failed _ _ _ w Hf Hb); [reflexivity |].
    intros H. inversion H. congruence. }
  unfold try_catch. unfold bind at 1, lift at 1.
  destruct (provider_createBooking provider _) as [response | e].
  - unfold bind at 1.
    rewrite (updateBookingStatus_off_graph (id b) b _ _ _ _ w Hf Hb).
    + apply Hfailed.
    + intros H. destruct (resp_status response); simpl in H; inversion H; congruence.
  - apply Hfailed.
Qed.


(** Retrying a failed booking.  The booking goes failed -> pending, the
    provider is asked again, and the retry ends in one of two ways: when the
    provider confirms, the booking is returned [confirmed] with the
    provider's data; in every other case (no such provider, the provider
    throws, or it answers with a status that is not [confirmed]) the error
    is thrown and the booking is [failed] again.  Two history rows are
    written either way. *)
Theorem retry_ends_confirmed_or_failed bookingId b userId (w : world tables) :
  fail_in w = None ->
  bookings (db w) !! bookingId = Some b ->
  status b = failed ->
  let retried := apply_updates pending no_updates b in
  let first_row := history_row bookingId (Some failed) pending (Some "Retrying booking")
                     (or_system userId) in
  (forall response,
     retry_outcome getProvider b (clock w) = Ok response ->
     resp_status response = confirmed ->
     exists w2,
       retryBooking getProvider bookingId userId w
         = (Ok (apply_updates confirmed (updates_of response) retried), w2)
       /\ bookings (db w2) !! bookingId
          = Some (apply_updates confirmed (updates_of response) retried)
       /\ booking_state_history (db w2) =
            (booking_state_history (db w) ++
               [first_row;
                history_row bookingId (Some pending) confirmed (Some "Retry successful")
                  (or_system userId)])%list)
  /\
  (forall error,
     unconfirmed (retry_outcome getProvider b (clock w)) = Some error ->
     exists w2,
       retryBooking getProvider bookingId userId w = (Err error, w2)
       /\ bookings (db w2) !! bookingId = Some (apply_updates failed no_updates retried)
       /\ booking_state_history (db w2) =
            (booking_state_history (db w) ++
               [first_row;
                history_row bookingId (Some pending) failed (Some (error_message error))
                  (or_system userId)])%list).
Proof.
  intros Hf Hb Hs retried first_row.
  set (d1 := {| bookings := alter (apply_updates pending no_updates) bookingId (bookings (db w));
                booking_state_history := (booking_state_history (db w) ++ [first_row])%list;
                booking_idempotency := booking_idempotency (db w) |}).
  assert (Hstart :
            retryBooking getProvider bookingId userId w
            = try_catch
                (match getProvider (provider_id b) with
                 | None => throw (NotFoundError "Provider" (provider_id b))
                 | Some provider =>
                     providerResponse <- lift (provider_createBooking provider
                                                 (sent_for_retry b (clock w))) ;;
                     updateBookingStatus bookingId
                       (confirmed_or_pending (resp_status providerResponse))
                       (Some "Retry successful") (or_system userId)
                       (updates_of providerResponse) ;;;
                     getBookingById bookingId
                 end)
                (fun error =>
                   updateBookingStatus bookingId failed (Some (error_message error))
                     (or_system userId) no_updates ;;;
                   throw error) (with_db w d1)).
  { unfold retryBooking, bind at 1.
    rewrite (getBookingById_healthy w bookingId b Hf Hb). rewrite Hs. cbn [BookingStatus_eqb negb].
    unfold bind at 1, now at 1. unfold bind at 1.
    rewrite (updateBookingStatus_edge bookingId b pending _ _ no_updates w Hf Hb)
      by (rewrite Hs; constructor).
    rewrite Hs. reflexivity. }
  rewrite Hstart. clear Hstart.
  assert (Hf1 : fail_in (with_db w d1) = None) by exact Hf.
  assert (Hb1 : bookings (db (with_db w d1)) !! bookingId = Some retried).
  { simpl. rewrite lookup_alter_eq, Hb. reflexivity. }
  assert (Hs1 : status retried = pending) by reflexivity.
  assert (Hfailed : forall e,
            exists w2,
              (updateBookingStatus bookingId failed (Some (error_message e)) (or_system userId)
                 no_updates ;;; @throw tables Booking e) (with_db w d1) = (Err e, w2)
              /\ bookings (db w2) !! bookingId = Some (apply_updates failed no_updates retried)
              /\ booking_state_history (db w2) =
                   (booking_state_history (db w) ++
                      [first_row;
                       history_row bookingId (Some pending) failed (Some (error_message e))
                         (or_system userId)])%list).
  { intros e. unfold bind at 1.
    rewrite (updateBookingStatus_edge bookingId retried failed _ _ no_updates _ Hf1 Hb1)
      by (rewrite Hs1; constructor).
    eexists. split; [reflexivity |]. split.
    - simpl. rewrite !lookup_alter_eq, Hb. reflexivity.
    - simpl. rewrite <- app_assoc. reflexivity. }
  unfold retry_outcome. split.
  - intros response Hr Hst. unfold try_catch.
    destruct (getProvider (provider_id b)) as [provider |]; [| discriminate Hr].
    unfold bind at 1, lift at 1. rewrite Hr, Hst. cbn [confirmed_or_pending]. unfold bind at 1.
    rewrite (updateBookingStatus_edge bookingId retried confirmed _ _ _ _ Hf1 Hb1)
      by (rewrite Hs1; constructor).
    rewrite getBookingById_healthy
      with (b := apply_updates confirmed (updates_of response) retried).
    + eexists. split; [reflexivity |]. split.
      * simpl. rewrite !lookup_alter_eq, Hb. reflexivity.
      * simpl. rewrite <- app_assoc. reflexivity.
    + exact Hf.
    + simpl. rewrite !lookup_alter_eq, Hb. reflexivity.
  - intros error Hun. unfold try_catch.
    destruct (getProvider (provider_id b)) as [provider |].
    + unfold bind at 1, lift at 1.
      destruct (provider_createBooking provider _) as [response | e]; simpl in Hun.
      * unfold bind at 1.
        assert (Hst : confirmed_or_pending (resp_status response) = pending)
          by (destruct (resp_status response); [reflexivity | discriminate Hun | reflexivity ..]).
        assert (Herr : error = ValidationError "Invalid state transition from pending to pending")
          by (destruct (resp_status response); congruence).
        rewrite Hst.
        rewrite (updateBookingStatus_off_graph bookingId retried pending _ _ _ _ Hf1 Hb1)
          by (rewrite Hs1; exact pending_to_pending_refused).
        subst error. apply Hfailed.
      * injection Hun as <-. apply Hfailed.
    + simpl in Hun. injection Hun as <-. apply Hfailed.
Qed.

(** Cancelling a confirmed booking.  When the provider's cancellation
    throws, the orchestrator throws an [ExternalServiceError] and nothing
    is written: the booking stays confirmed.  When it goes through, or no
    provider is registered for the booking, the booking is returned
    [canceled] and one history row confirmed -> canceled is written, with
    the reason given or ['Booking canceled by user']. *)
Theorem cancel_of_a_confirmed_booking bookingId b reason userId (w : world tables) :
  fail_in w = None ->
  bookings (db w) !! bookingId = Some b ->
  status b = confirmed ->
  (forall provider e,
     getProvider (provider_id b) = Some provider ->
     provider_cancelBooking provider (external_booking_id b) = Err e ->
     cancelBooking getProvider bookingId reason userId w
     = (Err (ExternalServiceError "Provider" "Failed to cancel booking"), w))
  /\
  ((getProvider (provider_id b) = None
    \/ exists provider, getProvider (provider_id b) = Some provider
                        /\ provider_cancelBooking provider (external_booking_id b) = Ok tt) ->
   exists w2,
     cancelBooking getProvider bookingId reason userId w
       = (Ok (apply_updates canceled no_updates b), w2)
     /\ bookings (db w2) !! bookingId = Some (apply_updates canceled no_updates b)
     /\ booking_state_history (db w2) =
          (booking_state_history (db w) ++
             [history_row bookingId (Some confirmed) canceled
                (match Booking.or_null reason with
                 | Some r => Some r
                 | None => Some "Booking canceled by user"
                 end) (or_system userId)])%list).
Proof.
  intros Hf Hb Hs. split.
  - intros provider e Hp He. unfold cancelBooking, bind at 1.
    rewrite (getBookingById_healthy w bookingId b Hf Hb), Hs. cbn [BookingStatus_eqb negb].
    unfold try_catch, bind at 1. rewrite Hp. unfold lift. rewrite He. reflexivity.
  - intros Hgo. unfold cancelBooking, bind at 1.
    rewrite (getBookingById_healthy w bookingId b Hf Hb), Hs. cbn [BookingStatus_eqb negb].
    unfold try_catch, bind at 1.
    assert (Hstep : (match getProvider (provider_id b) with
                     | Some provider => lift (provider_cancelBooking provider (external_booking_id b))
                     | None => ret tt
                     end) w = (Ok tt, w)).
    { destruct Hgo as [-> | (provider & -> & Hc)]; [reflexivity |].
      unfold lift. now rewrite Hc. }
    rewrite Hstep. unfold bind at 1.
    rewrite (updateBookingStatus_edge bookingId b canceled _ _ no_updates w Hf Hb)
      by (rewrite Hs; constructor).
    rewrite getBookingById_healthy with (b := apply_updates canceled no_updates b).
    + eexists. split; [reflexivity |]. split.
      * simpl. rewrite lookup_alter_eq, Hb. reflexivity.
      * simpl. rewrite Hs. reflexivity.
    + exact Hf.
    + simpl. rewrite lookup_alter_eq, Hb. reflexivity.
Qed.

End Orchestrated.
End BookingHistoryFacts.

Module BookingHistoryChecks.
Import RunTactics.
Import Db Spec DbFacts Booking BookingFacts BookingScenario OrchestratorScenario.
Import BookingHistoryFacts.

(** The tables of the K1 booking are consistent, and stay so when the
    booking is confirmed. *)
Lemma history_stays_consistent_witness :
  exists b w',
    updateBookingStatus "uuid-0" confirmed None None no_updates world_K1 = (Ok b, w')
    /\ history_consistent (db w').
Proof.
  assert (Hinv : history_consistent (db world_K1)).
  { intros bid. destruct (String.eqb_spec "uuid-0" bid) as [<- | Hne].
    - vm_compute. repeat split; constructor.
    - change (bookings (db world_K1)) with ({[ "uuid-0" := booking_K1 ]} : gmap string Booking).
      rewrite lookup_singleton_ne by exact Hne.
      apply String.eqb_neq in Hne. unfold history_of.
      cbn [db world_K1 tables_K1 booking_state_history List.filter booking_id].
      now rewrite Hne. }
  destruct (updateBookingStatus "uuid-0" confirmed None None no_updates world_K1)
    as [[b | e] w'] eqn:E.
  - exists b, w'. split; [reflexivity |].
    exact (proj2 (history_stays_consistent world_K1 Hinv) _ _ _ _ _ _ _ E).
  - not_an_error E.
Defined.



(** The replay of the confirmed K1 booking, with a provider that would
    confirm again. *)
Lemma settled_booking_replay_is_refused_witness :
  orchestrator_createBooking one_provider "trip-1" request_K1 None (healthy tables_confirmed)
  = (Err (ValidationError "Invalid state transition from confirmed to failed"),
     healthy tables_confirmed).
Proof.
  apply (settled_booking_replay_is_refused one_provider "trip-1" request_K1 None
           confirming_provider (booking_in confirmed) (healthy tables_confirmed));
    first [reflexivity | discriminate].
Defined.

(** The failed K1 booking retried: with a provider that confirms, and with
    one that answers [pending]. *)
Lemma retry_ends_confirmed_or_failed_witness :
  (exists b w2, retryBooking one_provider "uuid-0" None (world_in failed) = (Ok b, w2)
                /\ status b = confirmed
                /\ List.map to_status (booking_state_history (db w2))
                   = [pending; pending; confirmed])
  /\ (exists w2, retryBooking (only pending_provider) "uuid-0" None (world_in failed)
                 = (Err (ValidationError "Invalid state transition from pending to pending"), w2)
                 /\ option_map status (bookings (db w2) !! "uuid-0") = Some failed).
Proof.
  split.
  - destruct (retry_ends_confirmed_or_failed one_provider "uuid-0" (booking_in failed) None
                (world_in failed) eq_refl eq_refl eq_refl) as (Hgo & _).
    destruct (Hgo _ eq_refl eq_refl) as (w2 & Hrun & _ & Hh).
    eexists _, w2. split; [exact Hrun |]. rewrite Hh. split; reflexivity.
  - destruct (retry_ends_confirmed_or_failed (only pending_provider) "uuid-0"
                (booking_in failed) None (world_in failed) eq_refl eq_refl eq_refl)
      as (_ & Hstop).
    destruct (Hstop _ eq_refl) as (w2 & Hrun & Hb & _).
    exists w2. split; [exact Hrun |]. rewrite Hb. reflexivity.
Defined.

Lemma cancel_of_a_confirmed_booking_witness :
  cancelBooking (only failing_provider) "uuid-0" None None (healthy tables_confirmed)
  = (Err (ExternalServiceError "Provider" "Failed to cancel booking"), healthy tables_confirmed)
  /\ exists w2,
       cancelBooking one_provider "uuid-0" None None (healthy tables_confirmed)
       = (Ok (apply_updates canceled no_updates (booking_in confirmed)), w2)
       /\ List.map to_status (booking_state_history (db w2)) = [pending; confirmed; canceled].
Proof.
  split.
  - destruct (cancel_of_a_confirmed_booking (only failing_provider) "uuid-0"
                (booking_in confirmed) None None (healthy tables_confirmed)
                eq_refl eq_refl eq_refl) as (Hfail & _).
    exact (Hfail failing_provider simulated_failure eq_refl eq_refl).
  - destruct (cancel_of_a_confirmed_booking one_provider "uuid-0"
                (booking_in confirmed) None None (healthy tables_confirmed)
                eq_refl eq_refl eq_refl) as (_ & Hgo).
    destruct Hgo as (w2 & Hrun & _ & Hh).
    + right. exists confirming_provider. split; reflexivity.
    + exists w2. split; [exact Hrun |]. rewrite Hh. reflexivity.
Defined.

End BookingHistoryChecks.

(** ** Version snapshots: the diff and the rollback *)
Module VersionFacts.
Import Db Spec DbFacts Plan PlanFacts ItineraryVersionService.

(** *** The [Map] of the items by id *)

Lemma map_get_set_same {V} k (v : V) m :
  map_get String.eqb k (map_set String.eqb k v m) = Some v.
Proof.
  induction m as [| [k' v'] m IH]; simpl.
  - now rewrite String.eqb_refl.
  - destruct (String.eqb k k') eqn:E; simpl; [now rewrite String.eqb_refl | now rewrite E].
Qed.

Lemma map_get_set_other {V} k k' (v : V) m :
  k <> k' -> map_get String.eqb k (map_set String.eqb k' v m) = map_get String.eqb k m.
Proof.
  intros Hne. induction m as [| [k2 v2] m IH]; simpl.
  - destruct (String.eqb_spec k k'); [contradiction | reflexivity].
  - destruct (String.eqb_spec k' k2) as [-> | E2]; simpl.
    + destruct (String.eqb_spec k k2); [contradiction | reflexivity].
    + destruct (String.eqb k k2); [reflexivity | exact IH].
Qed.

Lemma map_set_keys_in_text {V} k (v : V) m x :
  In x (List.map fst (map_set String.eqb k v m)) <-> x = k \/ In x (List.map fst m).
Proof.
  induction m as [| [k' v'] m IH]; simpl.
  - intuition.
  - destruct (String.eqb_spec k k') as [-> | E]; simpl; [intuition |].
    rewrite IH. intuition.
Qed.

Lemma map_set_keys_text {V} k (v : V) m :
  List.NoDup (List.map fst m) -> List.NoDup (List.map fst (map_set String.eqb k v m)).
Proof.
  induction m as [| [k' v'] m IH]; simpl; intros Hn.
  - constructor; [intros [] | constructor].
  - inversion Hn as [| ? ? Hnot Hn']; subst.
    destruct (String.eqb_spec k k') as [-> | E]; simpl.
    + now constructor.
    + constructor; [| now apply IH].
      rewrite map_set_keys_in_text. intros [-> | Hin]; [now apply E | now apply Hnot].
Qed.

Lemma map_get_key {V} k (m : list (string * V)) :
  (exists v, map_get String.eqb k m = Some v) <-> In k (List.map fst m).
Proof.
  induction m as [| [k' v'] m IH]; simpl.
  - split; [intros (v & H); discriminate | intros []].
  - destruct (String.eqb_spec k k') as [-> | E].
    + split; [auto | eauto].
    + rewrite IH. split; [auto | intros [H | H]; [congruence | exact H]].
Qed.

(** With no key twice, every entry is what [get] returns for its key. *)
Lemma map_get_entry {V} k (v : V) m :
  List.NoDup (List.map fst m) -> In (k, v) m -> map_get String.eqb k m = Some v.
Proof.
  induction m as [| [k' v'] m IH]; simpl; intros Hn Hin; [contradiction |].
  inversion Hn as [| ? ? Hnot Hn']; subst.
  destruct Hin as [H | Hin].
  - inversion H; subst. now rewrite String.eqb_refl.
  - destruct (String.eqb_spec k k') as [-> | E]; [| now apply IH].
    exfalso. apply Hnot. apply in_map_iff. exists (k', v). auto.
Qed.

Lemma collect_fold_keys items :
  forall m : list (string * Item.t),
    List.NoDup (List.map fst m) ->
    List.NoDup (List.map fst
      (fold_left (fun m item => map_set String.eqb (Item.id item) item m) items m)).
Proof.
  induction items as [| item items IH]; intros m Hn; simpl; [exact Hn |].
  apply IH. now apply map_set_keys_text.
Qed.

Lemma collect_items_keys days : List.NoDup (List.map fst (collect_items days)).
Proof.
  unfold collect_items.
  assert (H : forall m : list (string * Item.t),
            List.NoDup (List.map fst m) ->
            List.NoDup (List.map fst
              (fold_left (fun m day =>
                 fold_left (fun m item => map_set String.eqb (Item.id item) item m)
                   (Day.items day) m) days m))).
  { induction days as [| day days IH]; intros m Hn; simpl; [exact Hn |].
    apply IH. now apply collect_fold_keys. }
  apply H. constructor.
Qed.

(** The keys of the [Map] are the ids of the items of the days. *)
Lemma collect_fold_ids items :
  forall (m : list (string * Item.t)) x,
    In x (List.map fst
            (fold_left (fun m item => map_set String.eqb (Item.id item) item m) items m))
    <-> In x (List.map fst m) \/ In x (List.map Item.id items).
Proof.
  induction items as [| item items IH]; intros m x; simpl; [intuition |].
  rewrite IH, map_set_keys_in_text. intuition.
Qed.

Lemma collect_items_ids days x :
  In x (List.map fst (collect_items days)) <-> In x (List.map Item.id (items_of days)).
Proof.
  unfold collect_items, items_of.
  assert (H : forall m : list (string * Item.t),
            In x (List.map fst
              (fold_left (fun m day =>
                 fold_left (fun m item => map_set String.eqb (Item.id item) item m)
                   (Day.items day) m) days m))
            <-> In x (List.map fst m) \/ In x (List.map Item.id (flat_map Day.items days))).
  { induction days as [| day days IH]; intros m; simpl; [intuition |].
    rewrite IH, collect_fold_ids, List.map_app, in_app_iff. intuition. }
  rewrite H. simpl. intuition.
Qed.

Lemma has_key_ids days x :
  has_key (collect_items days) x = true <-> In x (List.map Item.id (items_of days)).
Proof.
  rewrite <- collect_items_ids, <- map_get_key. unfold has_key.
  destruct (map_get String.eqb x (collect_items days)) as [v |].
  - split; eauto.
  - split; [discriminate | intros (v & H); discriminate].
Qed.

Lemma item_changes_same item : item_changes item item = [].
Proof.
  unfold item_changes. now rewrite !String.eqb_refl, Bool.eqb_reflx.
Qed.

Lemma flat_map_nil {A B} (f : A -> list B) l :
  (forall x, In x l -> f x = []) -> flat_map f l = [].
Proof.
  induction l as [| x l IH]; intros H; simpl; [reflexivity |].
  rewrite (H x (or_introl eq_refl)), IH; [reflexivity |]. intros y Hy. apply H. now right.
Qed.

Lemma filter_nil {A} (f : A -> bool) l :
  (forall x, In x l -> f x = false) -> List.filter f l = [].
Proof.
  induction l as [| x l IH]; intros H; simpl; [reflexivity |].
  rewrite (H x (or_introl eq_refl)). apply IH. intros y Hy. apply H. now right.
Qed.

(** The diff of a snapshot with itself is empty: nothing added, removed,
    moved or modified, whatever the days hold (items met twice
    included). *)
Theorem calculateDiff_same days : calculateDiff days days = empty_diff.
Proof.
  unfold calculateDiff, empty_diff.
  pose proof (collect_items_keys days) as Hn.
  set (m := collect_items days) in *.
  assert (Hkey : forall e, In e m -> has_key m (fst e) = true).
  { intros [k v] Hin. unfold has_key. simpl. now rewrite (map_get_entry k v m Hn Hin). }
  f_equal.
  - rewrite filter_nil; [reflexivity |]. intros e He. now rewrite Hkey.
  - rewrite filter_nil; [reflexivity |]. intros e He. now rewrite Hkey.
  - apply flat_map_nil. intros [k v] Hin. rewrite (map_get_entry k v m Hn Hin).
    now rewrite !Z.eqb_refl.
  - apply flat_map_nil. intros [k v] Hin. rewrite (map_get_entry k v m Hn Hin).
    now rewrite item_changes_same.
Qed.

(** The added items of a diff are the ids of the new snapshot that the old
    one does not have, and the removed items the ids of the old snapshot
    that the new one does not have. *)
Theorem diff_lists_the_id_differences oldDays newDays itemId :
  (In itemId (Diff.added_items (calculateDiff oldDays newDays))
   <-> In itemId (List.map Item.id (items_of newDays))
       /\ ~ In itemId (List.map Item.id (items_of oldDays)))
  /\ (In itemId (Diff.removed_items (calculateDiff oldDays newDays))
      <-> In itemId (List.map Item.id (items_of oldDays))
          /\ ~ In itemId (List.map Item.id (items_of newDays))).
Proof.
  assert (H : forall a b,
            In itemId (List.map fst
              (List.filter (fun e : string * Item.t => negb (has_key (collect_items a) (fst e)))
                 (collect_items b)))
            <-> In itemId (List.map Item.id (items_of b))
                /\ ~ In itemId (List.map Item.id (items_of a))).
  { intros a b. rewrite <- (collect_items_ids b), <- (has_key_ids a).
    rewrite !in_map_iff. split.
    - intros ([k v] & <- & Hin). apply filter_In in Hin as (Hin & Hk). simpl in *.
      split; [exists (k, v); auto |]. intros Hc. rewrite Hc in Hk. discriminate.
    - intros (([k v] & <- & Hin) & Hk). exists (k, v). split; [reflexivity |].
      apply filter_In. split; [exact Hin |]. simpl in *.
      destruct (has_key (collect_items a) k); [now contradiction Hk | reflexivity]. }
  split; apply H.
Qed.


(** *** The rollback *)

Lemma set_items_id (d : tables) : set_items (fun rows => rows) d = d.
Proof. destruct d; reflexivity. Qed.

Lemma set_items_ext f g (d : tables) :
  (forall rows, f rows = g rows) -> set_items f d = set_items g d.
Proof. intros H. unfold set_items. now rewrite H. Qed.

Lemma insert_item_ok row d u d' :
  insert_item row d = (Ok u, d') -> d' = set_items (fun rows => rows ++ [row])%list d.
Proof.
  unfold insert_item. destruct (existsb _ _); intros H; inversion H. reflexivity.
Qed.

(** A loop of inserts that goes through has appended its rows, in order. *)
Lemma for_each_insert {A} (g : A -> Item.t) (l : list A) :
  forall (w w' : world tables) u,
    for_each l (fun x => query (insert_item (g x))) w = (Ok u, w') ->
    db w' = set_items (fun rows => rows ++ List.map g l)%list (db w).
Proof.
  induction l as [| x l IH]; intros w w' u H.
  - inversion H; subst. rewrite <- (set_items_id (db w')) at 1.
    apply set_items_ext. intros rows. simpl. now rewrite app_nil_r.
  - cbn [for_each] in H. apply bind_ok in H as (u1 & w1 & H1 & H2).
    apply query_ok in H1 as (H1 & _). apply insert_item_ok in H1.
    rewrite (IH _ _ _ H2), H1. unfold set_items. simpl. now rewrite <- app_assoc.
Qed.

Lemma for_each_days_insert (g : Item.t -> Item.t) (days : list Day.t) :
  forall (w w' : world tables) u,
    for_each days (fun day => for_each (Day.items day) (fun item => query (insert_item (g item))))
      w = (Ok u, w') ->
    db w' = set_items (fun rows => rows ++ List.map g (items_of days))%list (db w).
Proof.
  induction days as [| day days IH]; intros w w' u H.
  - inversion H; subst. rewrite <- (set_items_id (db w')) at 1.
    apply set_items_ext. intros rows. simpl. now rewrite app_nil_r.
  - cbn [for_each] in H. apply bind_ok in H as (u1 & w1 & H1 & H2).
    apply for_each_insert in H1. rewrite (IH _ _ _ H2), H1.
    unfold set_items, items_of. simpl. now rewrite List.map_app, app_assoc.
Qed.

Lemma getVersion_ok tripId version (w w' : world tables) target :
  getVersion tripId version w = (Ok target, w') ->
  In target (itinerary_versions (db w))
  /\ Version.trip_id target = tripId /\ Version.version target = version /\ db w' = db w.
Proof.
  intros H. pose proof (getVersion_reads tripId version _ _ _ H) as Hd.
  unfold getVersion in H. apply bind_ok in H as (rows & w1 & Hq & H).
  apply (query_read_ok
    (fun d => List.filter (fun r => String.eqb (Version.trip_id r) tripId
                                    && (Version.version r =? version))
                (itinerary_versions d))) in Hq as (-> & _).
  destruct (List.filter _ _) as [| row rest] eqn:E; inversion H; subst.
  assert (Hin : In target (List.filter (fun r => String.eqb (Version.trip_id r) tripId
                                                 && (Version.version r =? version))
                             (itinerary_versions (db w)))) by (rewrite E; now left).
  apply filter_In in Hin as (Hin & Hc). apply andb_prop in Hc as (Ht & Hv).
  apply String.eqb_eq in Ht. apply Z.eqb_eq in Hv. auto.
Qed.

(** A rollback to the version the itinerary has, or to a later one, never
    goes through and writes nothing, whatever snapshots there are. *)
Theorem rollback_to_current_version_is_refused tripId targetVersion userId guestSessionId row
    (w w' : world tables) r :
  itineraries (db w) !! tripId = Some row ->
  ItineraryRow.version row <= targetVersion ->
  rollbackToVersion tripId targetVersion userId guestSessionId w = (r, w') ->
  is_ok r = false /\ db w' = db w.
Proof.
  intros Hrow Hle H. unfold rollbackToVersion in H.
  apply bind_inv in H as [(target & w1 & Hv & H) | (e & Hv & ->)].
  2: { split; [reflexivity |]. symmetry. exact (getVersion_reads _ _ _ _ _ Hv). }
  apply getVersion_ok in Hv as (_ & _ & Hver & Hd1).
  apply bind_inv in H as [(found & w2 & Hg & H) | (e & Hg & ->)].
  2: { split; [reflexivity |]. rewrite <- Hd1. symmetry.
       exact (getItineraryByTripId_reads _ _ _ _ Hg). }
  apply getItineraryByTripId_ok in Hg as (Hd2 & Hfound).
  destruct found as [current |].
  - destruct Hfound as (row' & prefs & Hrow' & _ & Hcur & _).
    rewrite Hd1, Hrow in Hrow'. injection Hrow' as <-.
    rewrite Hcur, Hver in H.
    destruct (Z.leb_spec (ItineraryRow.version row) targetVersion); [| lia].
    inversion H; subst. split; [reflexivity | congruence].
  - inversion H; subst. split; [reflexivity | congruence].
Qed.


Lemma createSnapshot_ok tripId changeType changedBy previousVersion (w w' : world tables) snap :
  createSnapshot tripId changeType changedBy previousVersion w = (Ok snap, w') ->
  db w' = set_versions (fun rows => rows ++ [snap])%list (db w)
  /\ Version.trip_id snap = tripId
  /\ Version.change_type snap = changeType
  /\ Spec.current_version tripId (db w) = Some (Version.version snap).
Proof.
  intros H. unfold createSnapshot in H.
  apply bind_ok in H as (found & w1 & Hg & H).
  apply getItineraryByTripId_ok in Hg as (Hd1 & Hfound).
  destruct found as [itinerary |]; [| discriminate H].
  destruct Hfound as (row & prefs & Hrow & _ & Hver & _).
  apply bind_ok in H as (versionId & w2 & Hu & H). inversion Hu; subst w2; clear Hu.
  apply bind_ok in H as (u & w3 & Hq & H). inversion H; subst; clear H.
  apply query_ok in Hq as (Hq & _). simpl in Hq. unfold insert_version in Hq.
  destruct (existsb _ _); [discriminate Hq |]. injection Hq as _ Hq.
  rewrite <- Hq, Hd1. simpl. repeat split.
  unfold Spec.current_version. now rewrite Hrow, Hver.
Qed.

Lemma filter_filter_negb {A} (f : A -> bool) l :
  List.filter f (List.filter (fun x => negb (f x)) l) = [].
Proof.
  apply filter_nil. intros x Hx. apply filter_In in Hx as (_ & Hx).
  now destruct (f x).
Qed.

Lemma filter_all {A} (f : A -> bool) l :
  (forall x, In x l -> f x = true) -> List.filter f l = l.
Proof.
  induction l as [| x l IH]; intros H; simpl; [reflexivity |].
  rewrite (H x (or_introl eq_refl)), IH; [reflexivity |]. intros y Hy. apply H. now right.
Qed.

Lemma filter_twice {A} (f : A -> bool) l : List.filter f (List.filter f l) = List.filter f l.
Proof. apply filter_all. intros x Hx. now apply filter_In in Hx. Qed.

(** A rollback that goes through.  Some snapshot of the trip with the
    target version was found; after the rollback the rows of the trip are
    the items of that snapshot, in the order of its days, the itinerary has
    the target version, the rows of other trips are untouched, and one
    snapshot of type ['edit'] with the target version has been appended. *)
Theorem rollback_restores_the_snapshot tripId targetVersion userId guestSessionId
    (w w' : world tables) result :
  rollbackToVersion tripId targetVersion userId guestSessionId w = (Ok result, w') ->
  exists target snap,
    In target (itinerary_versions (db w))
    /\ Version.trip_id target = tripId /\ Version.version target = targetVersion
    /\ trip_rows tripId (db w')
       = List.map (restored_row tripId) (items_of (Version.snapshot_days target))
    /\ other_rows tripId (db w') = other_rows tripId (db w)
    /\ Spec.current_version tripId (db w') = Some targetVersion
    /\ itinerary_versions (db w') = (itinerary_versions (db w) ++ [snap])%list
    /\ Version.version snap = targetVersion /\ Version.change_type snap = "edit".
Proof.
  intros H. unfold rollbackToVersion in H.
  apply bind_ok in H as (target & w1 & Hv & H).
  apply getVersion_ok in Hv as (Hin & Htrip & Hver & Hd1).
  apply bind_ok in H as (found & w2 & Hg & H).
  apply getItineraryByTripId_ok in Hg as (Hd2 & Hfound).
  destruct found as [current |]; [| discriminate H].
  destruct Hfound as (row & prefs & Hrow & _).
  destruct (Itinerary.version current <=? Version.version target); [discriminate H |].
  apply bind_ok in H as (u3 & w3 & Hdel & H).
  apply query_ok in Hdel as (Hdel & _). injection Hdel as _ Hd3.
  apply bind_ok in H as (u4 & w4 & Hins & H).
  apply for_each_days_insert in Hins.
  apply bind_ok in H as (u5 & w5 & Hup & H).
  apply query_ok in Hup as (Hup & _). injection Hup as _ Hd5.
  apply bind_ok in H as (snap & w6 & Hsnap & H).
  apply createSnapshot_ok in Hsnap as (Hd6 & _ & Htype & Hcur).
  pose proof (getItineraryByTripId_reads _ _ _ _ H) as Hd7. simpl in Hd7.
  assert (Hitems : itinerary_items (db w') =
            (other_rows tripId (db w) ++
             List.map (restored_row tripId) (items_of (Version.snapshot_days target)))%list).
  { rewrite <- Hd7, Hd6, <- Hd5, Hins, <- Hd3, Hd2, Hd1. reflexivity. }
  assert (Hrestored : forall x,
            In x (List.map (restored_row tripId) (items_of (Version.snapshot_days target))) ->
            String.eqb (Item.trip_id x) tripId = true).
  { intros x Hx. apply in_map_iff in Hx as (item & <- & _). simpl. apply String.eqb_refl. }
  assert (Hits : itineraries (db w5) !! tripId
                 = Some {| ItineraryRow.id := ItineraryRow.id row;
                           ItineraryRow.version := Version.version target |}).
  { rewrite <- Hd5, Hins, <- Hd3, Hd2. simpl. rewrite Hrow.
    apply lookup_insert_eq. }
  exists target, snap. repeat split; try assumption.
  - unfold trip_rows. rewrite Hitems, List.filter_app. unfold other_rows.
    rewrite filter_filter_negb. simpl. now apply filter_all.
  - unfold other_rows at 1. rewrite Hitems, List.filter_app. unfold other_rows.
    rewrite filter_twice.
    rewrite (filter_nil (fun r => negb (String.eqb (Item.trip_id r) tripId))
               (List.map (restored_row tripId) (items_of (Version.snapshot_days target)))).
    + now rewrite app_nil_r.
    + intros x Hx. now rewrite (Hrestored x Hx).
  - unfold Spec.current_version. rewrite <- Hd7, Hd6. simpl. rewrite Hits. simpl. now rewrite Hver.
  - rewrite <- Hd7, Hd6, <- Hd5, Hins, <- Hd3, Hd2, Hd1. reflexivity.
  - unfold Spec.current_version in Hcur. rewrite Hits in Hcur. simpl in Hcur.
    injection Hcur as Hcur. congruence.
Qed.

End VersionFacts.

Module VersionChecks.
Import RunTactics.
Import Db Spec DbFacts Plan PlanFacts ItineraryVersionService VersionFacts.
Import EditorScenario RollbackScenario.

Lemma rollback_to_current_version_is_refused_witness :
  is_ok (fst (rollbackToVersion "trip-1" 1 None None (healthy tables_generated))) = false
  /\ db (snd (rollbackToVersion "trip-1" 1 None None (healthy tables_generated)))
     = tables_generated.
Proof.
  destruct (rollbackToVersion "trip-1" 1 None None (healthy tables_generated))
    as [r w'] eqn:E.
  apply (rollback_to_current_version_is_refused "trip-1" 1 None None
           {| ItineraryRow.id := "itin-1"; ItineraryRow.version := 1 |}
           (healthy tables_generated) w' r).
  - vm_compute. reflexivity.
  - simpl. lia.
  - exact E.
Defined.

Example rollback_to_current_version_error :
  fst (rollbackToVersion "trip-1" 1 None None (healthy tables_generated))
  = Err (ValidationError "Cannot rollback to current or future version").
Proof. vm_compute. reflexivity. Qed.

(** The plan at version 2 rolled back to version 1: the three items of the
    generated day are back, the item of the other trip has not moved. *)
Lemma rollback_restores_the_snapshot_witness :
  exists target snap,
    In target (itinerary_versions tables_version_2)
    /\ Version.trip_id target = "trip-1" /\ Version.version target = 1
    /\ trip_rows "trip-1" (db (snd rolled_back))
       = List.map (restored_row "trip-1") (items_of (Version.snapshot_days target))
    /\ other_rows "trip-1" (db (snd rolled_back)) = other_rows "trip-1" tables_version_2
    /\ Spec.current_version "trip-1" (db (snd rolled_back)) = Some 1
    /\ itinerary_versions (db (snd rolled_back))
       = (itinerary_versions tables_version_2 ++ [snap])%list
    /\ Version.version snap = 1 /\ Version.change_type snap = "edit".
Proof.
  unfold rolled_back.
  destruct (rollbackToVersion "trip-1" 1 None None world_version_2) as [[result | e] w'] eqn:E.
  - exact (rollback_restores_the_snapshot "trip-1" 1 None None world_version_2 w' result E).
  - not_an_error E.
Defined.

Example rolled_back_rows :
  List.map position (itinerary_items (db (snd rolled_back)))
  = [("item-w", 1, "09:00", "09:45"); ("item-x", 1, "09:00", "10:00");
     ("item-y", 1, "08:00", "08:30"); ("item-z", 1, "12:00", "12:30")].
Proof. vm_compute. reflexivity. Qed.

End VersionChecks.

(** ** The text order of times *)
Module TextOrderFacts.
Import Plan Spec.

Lemma ascii_compare_lt_trans a b c :
  Ascii.compare a b = Lt -> Ascii.compare b c = Lt -> Ascii.compare a c = Lt.
Proof.
  unfold Ascii.compare. rewrite !N.compare_lt_iff. lia.
Qed.

Lemma ascii_compare_refl a : Ascii.compare a a = Eq.
Proof. unfold Ascii.compare. apply N.compare_refl. Qed.

Lemma string_compare_refl s : String.compare s s = Eq.
Proof. induction s as [| c s IH]; simpl; [reflexivity |]. now rewrite ascii_compare_refl. Qed.

Lemma string_compare_lt_trans a : forall b c,
  String.compare a b = Lt -> String.compare b c = Lt -> String.compare a c = Lt.
Proof.
  induction a as [| x a IH]; intros [| y b] [| z c]; simpl; try discriminate; auto.
  destruct (Ascii.compare x y) eqn:Exy; try discriminate;
  destruct (Ascii.compare y z) eqn:Eyz; try discriminate; intros H1 H2.
  - apply Ascii.compare_eq_iff in Exy, Eyz. subst. rewrite ascii_compare_refl. eauto.
  - apply Ascii.compare_eq_iff in Exy. subst. now rewrite Eyz.
  - apply Ascii.compare_eq_iff in Eyz. subst. now rewrite Exy.
  - now rewrite (ascii_compare_lt_trans x y z Exy Eyz).
Qed.

Lemma text_lt_compare a b : text_lt a b = true <-> String.compare a b = Lt.
Proof. unfold text_lt, String.ltb. destruct (String.compare a b); split; easy. Qed.

Lemma text_le_compare a b : text_le a b = true <-> String.compare a b <> Gt.
Proof.
  unfold text_le, String.leb.
  destruct (String.compare a b); split; intros H; try reflexivity; try discriminate.
  now contradiction H.
Qed.

(** [b < a] is false exactly when [a <= b]. *)
Lemma text_lt_false a b : text_lt b a = false <-> text_le a b = true.
Proof.
  unfold text_lt, text_le, String.ltb, String.leb. rewrite (String.compare_antisym a b).
  destruct (String.compare b a); simpl; split; easy.
Qed.

Lemma text_le_trans a b c : text_le a b = true -> text_le b c = true -> text_le a c = true.
Proof.
  rewrite !text_le_compare. intros H1 H2.
  destruct (String.compare a b) eqn:Eab; [| | congruence].
  - apply String.compare_eq_iff in Eab. now subst.
  - destruct (String.compare b c) eqn:Ebc; [| | congruence].
    + apply String.compare_eq_iff in Ebc. subst. now rewrite Eab.
    + now rewrite (string_compare_lt_trans a b c Eab Ebc).
Qed.

Lemma text_le_refl a : text_le a a = true.
Proof. apply text_le_compare. now rewrite string_compare_refl. Qed.

End TextOrderFacts.

(** ** After the apply: validation and rollback *)
Module AppliedFacts.
Import Db Spec DbFacts Plan PlanFacts ReplanApplyService TextOrderFacts VersionFacts.

(** With no failure of the store, the POI check of
    [validateAppliedItinerary] adds nothing: a [SELECT] that finds no row
    does not throw. *)
Lemma orphan_issues_healthy items :
  forall issues (w : world tables),
    fail_in w = None -> orphan_issues items issues w = (Ok issues, w).
Proof.
  induction items as [| item items IH]; intros issues w Hf; cbn [orphan_issues].
  - reflexivity.
  - destruct (or_null (Item.poi_id item)) as [poiId |]; [| now apply IH].
    unfold bind at 1, try_catch, bind at 1.
    rewrite (query_read_healthy (fun d => pois d !! poiId) w Hf). cbn [ret].
    now apply IH.
Qed.

Lemma orphan_issues_days_healthy days :
  forall issues (w : world tables),
    fail_in w = None -> orphan_issues_days days issues w = (Ok issues, w).
Proof.
  induction days as [| day days IH]; intros issues w Hf; cbn [orphan_issues_days].
  - reflexivity.
  - unfold bind. rewrite orphan_issues_healthy by exact Hf. now apply IH.
Qed.

(** What [validateAppliedItinerary] reports when the store does not fail:
    the time conflicts of the days and nothing else.  An item whose
    [poi_id] names no POI is not reported. *)
Theorem applied_validation_reports_time_conflicts_only tripId itinerary (w w1 : world tables) :
  ItineraryGeneratorService.getItineraryByTripId tripId w = (Ok (Some itinerary), w1) ->
  fail_in w1 = None ->
  validateAppliedItinerary tripId w =
    (Ok {| valid := Nat.eqb (length (flat_map day_conflicts (Itinerary.days itinerary))) 0;
           issues := flat_map day_conflicts (Itinerary.days itinerary) |}, w1).
Proof.
  intros Hg Hf. unfold validateAppliedItinerary, bind at 1. rewrite Hg.
  unfold bind. rewrite orphan_issues_days_healthy by exact Hf. reflexivity.
Qed.

Lemma conflicts_none dayNum items :
  forall previous, conflicts dayNum previous items = [] -> in_sequence previous items.
Proof.
  induction items as [| item items IH]; intros previous H; simpl in *; [exact I |].
  apply app_eq_nil in H as (H1 & H2).
  split; [| now apply IH].
  destruct (text_lt (Item.start_time item) (Item.end_time previous)); [discriminate H1 | reflexivity].
Qed.

(** Items in sequence that do not end before they start are over, each of
    them, before every later one starts. *)
Lemma in_sequence_pairs items :
  forall previous,
    in_sequence previous items -> Forall ends_after_start items ->
    Forall (over_before previous) items /\ ForallOrdPairs over_before items.
Proof.
  induction items as [| item items IH]; intros previous Hs Hall.
  - split; constructor.
  - destruct Hs as (H1 & H2). inversion Hall as [| ? ? He Hall']; subst.
    destruct (IH item H2 Hall') as (Hafter & Hpairs).
    apply text_lt_false in H1.
    split.
    + constructor; [exact H1 |].
      eapply List.Forall_impl; [| exact Hafter]. intros b Hb. unfold over_before in *.
      eapply text_le_trans; [exact H1 |]. eapply text_le_trans; [exact He | exact Hb].
    + constructor; assumption.
Qed.

Lemma flat_map_eq_nil {A B} (f : A -> list B) l x :
  flat_map f l = [] -> In x l -> f x = [].
Proof.
  induction l as [| y l IH]; intros H Hin; [contradiction |].
  simpl in H. apply app_eq_nil in H as (H1 & H2).
  destruct Hin as [-> | Hin]; auto.
Qed.

(** An applied itinerary that validates has no two overlapping items in a
    day: when [validateAppliedItinerary] answers [valid], then in every day
    of the itinerary whose items do not end before they start, the items
    taken by start time are over, each of them, before every later one
    starts. *)
Theorem valid_applied_itinerary_has_no_overlap tripId (w w' : world tables) result :
  validateAppliedItinerary tripId w = (Ok result, w') ->
  valid result = true ->
  exists itinerary w1,
    ItineraryGeneratorService.getItineraryByTripId tripId w = (Ok (Some itinerary), w1)
    /\ forall day,
         In day (Itinerary.days itinerary) ->
         Forall ends_after_start (Day.items day) ->
         ForallOrdPairs over_before (sort_by by_start_time (Day.items day)).
Proof.
  intros H Hvalid. unfold validateAppliedItinerary in H.
  apply bind_ok in H as (found & w1 & Hg & H).
  destruct found as [itinerary |]; [| discriminate H].
  apply bind_ok in H as (orphans & w2 & _ & H). inversion H; subst; clear H.
  simpl in Hvalid. apply Nat.eqb_eq in Hvalid. apply length_zero_iff_nil in Hvalid.
  apply app_eq_nil in Hvalid as (_ & Hnone).
  exists itinerary, w1. split; [exact Hg |].
  intros day Hday Hall.
  pose proof (flat_map_eq_nil _ _ day Hnone Hday) as Hd. unfold day_conflicts in Hd.
  assert (Hall' : Forall ends_after_start (sort_by by_start_time (Day.items day))).
  { rewrite List.Forall_forall in *. intros x Hx. apply Hall.
    eapply Permutation_in; [apply ContainerFacts.sort_by_perm | exact Hx]. }
  destruct (sort_by by_start_time (Day.items day)) as [| first rest]; [constructor |].
  inversion Hall' as [| ? ? He Hrest]; subst.
  apply conflicts_none in Hd.
  destruct (in_sequence_pairs rest first Hd Hrest) as (Hafter & Hpairs).
  constructor; assumption.
Qed.


(** *** [rollbackReplan] *)

Lemma rollbackToVersion_keeps_applications tripId targetVersion userId guestSessionId
    (w w' : world tables) result :
  ItineraryVersionService.rollbackToVersion tripId targetVersion userId guestSessionId w
    = (Ok result, w') ->
  replan_applications (db w') = replan_applications (db w).
Proof.
  intros H. unfold ItineraryVersionService.rollbackToVersion in H.
  apply bind_ok in H as (target & w1 & Hv & H).
  apply getVersion_ok in Hv as (_ & _ & _ & Hd1).
  apply bind_ok in H as (found & w2 & Hg & H).
  pose proof (getItineraryByTripId_reads _ _ _ _ Hg) as Hd2. simpl in Hd2.
  destruct found as [current |]; [| discriminate H].
  destruct (Itinerary.version current <=? Version.version target); [discriminate H |].
  apply bind_ok in H as (u3 & w3 & Hdel & H).
  apply query_ok in Hdel as (Hdel & _). injection Hdel as _ Hd3.
  apply bind_ok in H as (u4 & w4 & Hins & H).
  apply for_each_days_insert in Hins.
  apply bind_ok in H as (u5 & w5 & Hup & H).
  apply query_ok in Hup as (Hup & _). injection Hup as _ Hd5.
  apply bind_ok in H as (snap & w6 & Hsnap & H).
  apply createSnapshot_ok in Hsnap as (Hd6 & _).
  pose proof (getItineraryByTripId_reads _ _ _ _ H) as Hd7. simpl in Hd7.
  rewrite <- Hd7, Hd6, <- Hd5, Hins, <- Hd3, <- Hd2, Hd1. reflexivity.
Qed.

(** Once the rollback window is over, [rollbackReplan] never goes through
    and writes nothing; when the store does not fail, what it throws is the
    [ValidationError] of the expired window. *)
Theorem rollback_after_the_window_is_refused tripId applicationId userId application rest until
    (w w' : world tables) r :
  select_application applicationId tripId (db w) = application :: rest ->
  Application.rollback_available_until application = Some until ->
  until < clock w ->
  rollbackReplan tripId applicationId userId w = (r, w') ->
  is_ok r = false /\ db w' = db w
  /\ (fail_in w = None -> r = Err (ValidationError "Rollback window has expired")).
Proof.
  intros Hsel Huntil Hlate H.
  assert (Hgt : forall w0 : world tables, clock w0 = clock w ->
            Js.gt (Some (clock w0)) (Application.rollback_available_until application) = true).
  { intros w0 ->. rewrite Huntil. simpl. now apply Z.ltb_lt. }
  assert (Hboth : is_ok r = false /\ db w' = db w).
  { unfold rollbackReplan in H.
    apply bind_inv in H as [(rows & w1 & Hq & H) | (e & Hq & ->)].
    2: { split; [reflexivity | now apply query_err in Hq]. }
    assert (Hc : clock w1 = clock w).
    { unfold query in Hq. apply bind_ok in Hq as (u & w0 & Ht & Hq).
      apply tick_ok in Ht as (_ & _ & _ & Hc). inversion Hq; subst. simpl. exact Hc. }
    apply (query_read_ok (fun d => select_application applicationId tripId d)) in Hq as (-> & Hd).
    rewrite Hsel in H. unfold bind at 1, now at 1 in H.
    rewrite (Hgt w1 Hc) in H. inversion H; subst. auto. }
  destruct Hboth as (Hr & Hd). split; [exact Hr |]. split; [exact Hd |].
  - intros Hf. unfold rollbackReplan, bind at 1 in H.
    rewrite (query_read_healthy (fun d => select_application applicationId tripId d) w Hf) in H.
    rewrite Hsel in H. unfold bind at 1, now at 1 in H.
    rewrite (Hgt w eq_refl) in H. inversion H; reflexivity.
Qed.

(** A replan is rolled back at most once: after a [rollbackReplan] that
    went through, another one for the same application never goes through
    and writes nothing. *)
Theorem replan_is_rolled_back_at_most_once tripId applicationId userId userId'
    (w w1 w2 : world tables) r :
  rollbackReplan tripId applicationId userId w = (Ok tt, w1) ->
  rollbackReplan tripId applicationId userId' w1 = (r, w2) ->
  is_ok r = false /\ db w2 = db w1.
Proof.
  intros H1 H2.
  assert (Hmarked : Forall (fun a => Application.rolled_back a = true)
                      (select_application applicationId tripId (db w1))).
  { unfold rollbackReplan in H1.
    apply bind_ok in H1 as (rows & wa & _ & H1).
    destruct rows as [| application _]; [discriminate H1 |].
    apply bind_ok in H1 as (today & wb & _ & H1).
    destruct (Js.gt today _); [discriminate H1 |].
    destruct (Application.rolled_back application); [discriminate H1 |].
    apply bind_ok in H1 as (res & wc & _ & H1).
    apply query_ok in H1 as (H1 & _). injection H1 as H1. rewrite <- H1.
    unfold select_application. simpl.
    apply List.Forall_forall. intros a Ha. apply filter_In in Ha as (Ha & Hc).
    apply in_map_iff in Ha as (a0 & <- & _).
    apply andb_prop in Hc as (Hid & _).
    destruct (String.eqb (Application.id a0) applicationId) eqn:E; [reflexivity |].
    rewrite E in Hid. discriminate Hid. }
  unfold rollbackReplan in H2.
  apply bind_inv in H2 as [(rows & wa & Hq & H2) | (e & Hq & ->)].
  2: { split; [reflexivity | now apply query_err in Hq]. }
  apply (query_read_ok (fun d => select_application applicationId tripId d)) in Hq as (-> & Hd).
  destruct (select_application applicationId tripId (db w1)) as [| application rest].
  { inversion H2; subst. auto. }
  inversion Hmarked as [| ? ? Hrb _]; subst.
  unfold bind at 1, now at 1 in H2.
  destruct (Js.gt (Some (clock wa)) _); [inversion H2; subst; auto |].
  rewrite Hrb in H2. inversion H2; subst. auto.
Qed.

End AppliedFacts.

Module AppliedChecks.
Import RunTactics.
Import Db Spec DbFacts Plan PlanFacts ReplanApplyService AppliedFacts.
Import EditorScenario RollbackScenario AppliedScenario.

(** P names a POI that is not stored and overlaps Q: only the overlap is
    reported. *)
Lemma applied_validation_reports_time_conflicts_only_witness :
  fst (validateAppliedItinerary "trip-1" (healthy tables_PQ))
  = Ok {| valid := false; issues := ["Time conflict in day 1: P and Q"] |}.
Proof.
  destruct (ItineraryGeneratorService.getItineraryByTripId "trip-1" (healthy tables_PQ))
    as [[[itinerary |] | e] w1] eqn:E; try (vm_compute in E; discriminate E).
  rewrite (applied_validation_reports_time_conflicts_only "trip-1" itinerary
             (healthy tables_PQ) w1 E).
  - vm_compute in E. injection E as <- <-. vm_compute. reflexivity.
  - vm_compute in E. injection E as <- <-. reflexivity.
Defined.

Lemma valid_applied_itinerary_has_no_overlap_witness :
  exists itinerary w1,
    ItineraryGeneratorService.getItineraryByTripId "trip-1" (healthy tables_XYZ)
      = (Ok (Some itinerary), w1)
    /\ forall day,
         In day (Itinerary.days itinerary) ->
         Forall ends_after_start (Day.items day) ->
         ForallOrdPairs over_before (sort_by by_start_time (Day.items day)).
Proof.
  destruct (validateAppliedItinerary "trip-1" (healthy tables_XYZ)) as [[result | e] w'] eqn:E.
  - apply (valid_applied_itinerary_has_no_overlap "trip-1" (healthy tables_XYZ) w' result E).
    vm_compute in E. injection E as <- _. reflexivity.
  - not_an_error E.
Defined.

Lemma rollback_after_the_window_is_refused_witness :
  rollbackReplan "trip-1" "app-1" None world_after_window
  = (Err (ValidationError "Rollback window has expired"), world_after_window).
Proof.
  destruct (rollbackReplan "trip-1" "app-1" None world_after_window) as [r w'] eqn:E.
  destruct (rollback_after_the_window_is_refused "trip-1" "app-1" None application_1 []
              one_day_ms world_after_window w' r) as (_ & _ & Herr).
  - reflexivity.
  - reflexivity.
  - vm_compute. reflexivity.
  - exact E.
  - rewrite (Herr eq_refl) in E |- *. vm_compute in E. injection E as <-. reflexivity.
Defined.

(** Within the window the rollback goes through, once. *)
Lemma replan_is_rolled_back_at_most_once_witness :
  exists w1,
    rollbackReplan "trip-1" "app-1" None world_in_window = (Ok tt, w1)
    /\ is_ok (fst (rollbackReplan "trip-1" "app-1" None w1)) = false
    /\ db (snd (rollbackReplan "trip-1" "app-1" None w1)) = db w1.
Proof.
  destruct (rollbackReplan "trip-1" "app-1" None world_in_window) as [[[] | e] w1] eqn:E.
  - exists w1. split; [reflexivity |].
    destruct (rollbackReplan "trip-1" "app-1" None w1) as [r w2] eqn:E2.
    exact (replan_is_rolled_back_at_most_once "trip-1" "app-1" None None
             world_in_window w1 w2 r E E2).
  - not_an_error E.
Defined.

End AppliedChecks.

(** ** The generator: distribution and saving *)
Module DistributionFacts.
Import Db Spec DbFacts Plan PlanFacts ItineraryGeneratorService VersionFacts.

(** One more element in the one bucket whose number is [j]. *)
Lemma concat_one_more {A} (p : A) (g : Z -> list A) (j : Z) (l : list Z) :
  List.NoDup l -> In j l ->
  Permutation (concat (List.map (fun i => if j =? i then p :: g i else g i) l))
              (p :: concat (List.map g l)).
Proof.
  induction l as [| i l IH]; intros Hn Hin; [contradiction |].
  inversion Hn as [| ? ? Hnot Hn']; subst. simpl.
  destruct (Z.eqb_spec j i) as [-> | Hne].
  - simpl. constructor. apply Permutation_app_head.
    erewrite List.map_ext_in; [reflexivity |].
    intros k Hk. simpl. destruct (Z.eqb_spec i k) as [-> | _]; [contradiction | reflexivity].
  - destruct Hin as [-> | Hin]; [contradiction |].
    rewrite (IH Hn' Hin). apply Permutation_sym, Permutation_middle.
Qed.

Lemma buckets_partition (pois : list POI.t) n :
  0 < n ->
  forall index, 0 <= index ->
    Permutation (concat (List.map (fun dayIndex => bucket n dayIndex index pois) (seqZ 0 n))) pois.
Proof.
  intros Hn. induction pois as [| poi rest IH]; intros index Hi.
  - simpl. induction (seqZ 0 n) as [| i l IHl]; simpl; [constructor | exact IHl].
  - cbn [bucket]. unfold Js.jsmod. rewrite Z.rem_mod_nonneg by lia.
    rewrite (concat_one_more poi (fun i => bucket n i (index + 1) rest) (index mod n)).
    + constructor. apply IH. lia.
    + apply NoDup_ListNoDup, NoDup_seqZ.
    + apply list_elem_of_In, elem_of_seqZ. pose proof (Z.mod_pos_bound index n Hn). lia.
Qed.

(** The round robin loses no POI and takes none twice: the buckets, one per
    day, put end to end are the POIs given, in another order. *)
Theorem distribution_keeps_every_poi {T} pois numDays (w w' : world T) buckets :
  distributePOIs pois numDays w = (Ok buckets, w') ->
  exists n, numDays = Some n /\ 0 <= n
            /\ length buckets = Z.to_nat n
            /\ Permutation (concat buckets) pois.
Proof.
  unfold distributePOIs. intros H.
  destruct numDays as [n |]; [| discriminate H].
  destruct (Z.ltb_spec n 0); [discriminate H |].
  destruct ((n =? 0) && negb (Nat.eqb (length pois) 0)) eqn:E; [discriminate H |].
  inversion H; subst; clear H.
  exists n. split; [reflexivity |]. split; [lia |]. split.
  - rewrite length_map. apply length_seqZ.
  - destruct (Z.eqb_spec n 0) as [-> | Hne].
    + simpl in E. destruct pois; [constructor | discriminate E].
    + apply buckets_partition; lia.
Qed.

End DistributionFacts.

(** ** The itinerary as it is read *)
Module ReadFacts.
Import Db Spec DbFacts Plan PlanFacts ContainerFacts ItineraryGeneratorService.

(** The insertion sort sorts, for an order that is total and transitive. *)
Lemma insert_sorted_in {A} (le : A -> A -> bool) x l y :
  In y (insert_sorted le x l) -> y = x \/ In y l.
Proof.
  intros H. apply (Permutation_in _ (insert_sorted_perm le x l)) in H.
  destruct H as [<- | H]; auto.
Qed.

Lemma insert_sorted_sorted {A} (le : A -> A -> bool) :
  (forall a b, le a b = false -> le b a = true) ->
  (forall a b c, le a b = true -> le b c = true -> le a c = true) ->
  forall x l, StronglySorted (fun a b => le a b = true) l ->
              StronglySorted (fun a b => le a b = true) (insert_sorted le x l).
Proof.
  intros Htotal Htrans x l. induction l as [| y l IH]; intros Hs; simpl.
  - constructor; constructor.
  - inversion Hs as [| ? ? Hs' Hall]; subst.
    destruct (le x y) eqn:E.
    + constructor; [exact Hs |]. constructor; [exact E |].
      rewrite List.Forall_forall in *. intros z Hz. eapply Htrans; [exact E | now apply Hall].
    + constructor; [now apply IH |].
      rewrite List.Forall_forall in *. intros z Hz.
      apply insert_sorted_in in Hz as [-> | Hz]; [now apply Htotal | now apply Hall].
Qed.

Lemma sort_by_sorted {A} (le : A -> A -> bool) :
  (forall a b, le a b = false -> le b a = true) ->
  (forall a b c, le a b = true -> le b c = true -> le a c = true) ->
  forall l, StronglySorted (fun a b => le a b = true) (sort_by le l).
Proof.
  intros Htotal Htrans l. unfold sort_by. induction l as [| x l IH]; simpl.
  - constructor.
  - now apply insert_sorted_sorted.
Qed.

(** A list that is in order is left as it is. *)
Lemma sort_by_in_order {A} (le : A -> A -> bool) l :
  StronglySorted (fun a b => le a b = true) l -> sort_by le l = l.
Proof.
  unfold sort_by. induction 1 as [| x l Hs IH Hall]; simpl; [reflexivity |].
  rewrite IH. destruct l as [| y l]; [reflexivity |]. simpl.
  inversion Hall as [| ? ? Hxy _]; subst. now rewrite Hxy.
Qed.

Lemma strongly_sorted_impl {A} (R S : A -> A -> Prop) l :
  (forall a b, R a b -> S a b) -> StronglySorted R l -> StronglySorted S l.
Proof.
  intros HRS. induction 1 as [| x l Hs IH Hall]; constructor; [exact IH |].
  eapply List.Forall_impl; [| exact Hall]. intros b. apply HRS.
Qed.

Lemma strongly_sorted_map {A B} (f : A -> B) (R : B -> B -> Prop) l :
  StronglySorted R (List.map f l) <-> StronglySorted (fun a b => R (f a) (f b)) l.
Proof.
  induction l as [| x l IH]; simpl; split; intros H; try constructor;
    inversion H as [| ? ? Hs Hall]; subst; try (now apply IH).
  - rewrite List.Forall_forall in *. intros y Hy. apply Hall. now apply in_map.
  - rewrite List.Forall_forall in *. intros y Hy.
    apply in_map_iff in Hy as (a & <- & Ha). now apply Hall.
Qed.

Lemma strongly_sorted_snoc (l : list Z) d :
  StronglySorted Z.lt l -> Forall (fun k => k < d) l -> StronglySorted Z.lt (l ++ [d]).
Proof.
  induction 1 as [| x l Hs IH Hall]; intros Hlt; simpl.
  - constructor; constructor.
  - inversion Hlt as [| ? ? Hx Hl]; subst. constructor; [now apply IH |].
    apply List.Forall_app. split; [exact Hall |]. constructor; [exact Hx | constructor].
Qed.

(** In a map whose keys rise, a key that none exceeds is the last one or a
    new one: [set] changes the last entry or appends. *)
Lemma map_set_at_end {V} d (v : V) acc :
  StronglySorted Z.lt (List.map fst acc) -> Forall (fun k => k <= d) (List.map fst acc) ->
  (map_get Z.eqb d acc = None /\ map_set Z.eqb d v acc = (acc ++ [(d, v)])%list
   /\ Forall (fun k => k < d) (List.map fst acc))
  \/ (exists front old, acc = (front ++ [(d, old)])%list /\ map_get Z.eqb d acc = Some old
                        /\ map_set Z.eqb d v acc = (front ++ [(d, v)])%list).
Proof.
  induction acc as [| [k v0] rest IH]; simpl; intros Hs Hle.
  - left. repeat split. constructor.
  - inversion Hs as [| ? ? Hs' Hall]; subst. inversion Hle as [| ? ? Hk Hrest]; subst.
    destruct (Z.eqb_spec d k) as [-> | Hne].
    + right. destruct rest as [| [k' v'] rest].
      * exists [], v0. auto.
      * simpl in Hall, Hrest. inversion Hall; subst. inversion Hrest; subst. lia.
    + destruct (IH Hs' Hrest) as [(Hg & Hset & Hlt) | (front & old & -> & Hg & Hset)].
      * left. rewrite Hset. repeat split; [exact Hg |]. constructor; [lia | exact Hlt].
      * right. exists ((k, v0) :: front), old. rewrite Hset. auto.
Qed.

Lemma group_fold_in_order items :
  forall acc,
    StronglySorted Z.lt (List.map fst acc) ->
    StronglySorted (fun a b => Item.day a <= Item.day b) items ->
    Forall (fun item => Forall (fun k => k <= Item.day item) (List.map fst acc)) items ->
    groups_hold acc ->
    concat (List.map snd (fold_left group_step items acc))
      = (concat (List.map snd acc) ++ items)%list
    /\ StronglySorted Z.lt (List.map fst (fold_left group_step items acc))
    /\ groups_hold (fold_left group_step items acc).
Proof.
  induction items as [| item items IH]; intros acc Hs Hitems Hbelow Hg; simpl.
  - rewrite app_nil_r. auto.
  - inversion Hitems as [| ? ? Hitems' Hafter]; subst.
    inversion Hbelow as [| ? ? Hitem Hbelow']; subst.
    assert (Hstep :
      concat (List.map snd (group_step acc item)) = (concat (List.map snd acc) ++ [item])%list
      /\ StronglySorted Z.lt (List.map fst (group_step acc item))
      /\ Forall (fun k => k <= Item.day item) (List.map fst (group_step acc item))
      /\ groups_hold (group_step acc item)).
    { unfold group_step.
      destruct (map_set_at_end (Item.day item)
                  (default [] (map_get Z.eqb (Item.day item) acc) ++ [item])%list acc Hs Hitem)
        as [(Hget & -> & Hlt) | (front & old & Hacc & Hget & ->)]; rewrite Hget; simpl.
      - rewrite !List.map_app, concat_app. simpl. repeat split.
        + now apply strongly_sorted_snoc.
        + apply List.Forall_app. split; [exact Hitem |]. constructor; [lia | constructor].
        + apply List.Forall_app. split; [exact Hg |]. constructor; [| constructor].
          simpl. split; [discriminate |]. constructor; [reflexivity | constructor].
      - subst acc. rewrite !List.map_app, !concat_app in *. simpl in *.
        rewrite !app_nil_r, <- app_assoc. repeat split; try assumption.
        unfold groups_hold in *. apply List.Forall_app in Hg as (Hfront & Hlast).
        apply List.Forall_app. split; [exact Hfront |].
        inversion Hlast as [| ? ? (Hne & Hdays) _]; subst. simpl in *.
        constructor; [| constructor]. simpl. split.
        + destruct old; discriminate.
        + apply List.Forall_app. split; [exact Hdays |]. constructor; [reflexivity | constructor]. }
    destruct Hstep as (Hc & Hs1 & Hb1 & Hg1).
    destruct (IH (group_step acc item) Hs1 Hitems') as (Hc2 & Hs2 & Hg2).
    + rewrite List.Forall_forall in *. intros x Hx. rewrite List.Forall_forall in *.
      intros k Hk. specialize (Hb1 k Hk). specialize (Hafter x Hx). lia.
    + exact Hg1.
    + rewrite Hc2, Hc, <- app_assoc. auto.
Qed.

Lemma by_day_order_total a b : by_day_order a b = false -> by_day_order b a = true.
Proof. unfold by_day_order. lia. Qed.

Lemma by_day_order_trans a b c :
  by_day_order a b = true -> by_day_order b c = true -> by_day_order a c = true.
Proof. unfold by_day_order. lia. Qed.

Lemma select_trip_items_in_order tripId d :
  StronglySorted (fun a b => Item.day a <= Item.day b) (select_trip_items tripId d).
Proof.
  eapply strongly_sorted_impl;
    [| exact (sort_by_sorted by_day_order by_day_order_total by_day_order_trans _)].
  intros a b. unfold by_day_order. lia.
Qed.

(** The days made of rows that come in the order of their days: put end to
    end they are the rows; they come by rising number; none is empty and
    each holds rows of its own number. *)
Lemma days_of_rows (mk : Z * list Item.t -> Day.t) rows :
  (forall entry, Day.day (mk entry) = fst entry) ->
  (forall entry, Day.items (mk entry) = snd entry) ->
  StronglySorted (fun a b => Item.day a <= Item.day b) rows ->
  items_of (sort_by by_day_number (List.map mk (group_by_day rows))) = rows
  /\ StronglySorted (fun a b => Day.day a < Day.day b)
       (sort_by by_day_number (List.map mk (group_by_day rows)))
  /\ Forall (fun day => Day.items day <> []
                        /\ Forall (fun item => Item.day item = Day.day day) (Day.items day))
       (sort_by by_day_number (List.map mk (group_by_day rows))).
Proof.
  intros Hkey Hval Hrows.
  destruct (group_fold_in_order rows [] (SSorted_nil _) Hrows) as (Hc & Hs & Hg).
  { apply List.Forall_forall. intros x _. constructor. }
  { constructor. }
  fold (group_by_day rows) in Hc, Hs, Hg. simpl in Hc.
  assert (Hsorted : StronglySorted (fun a b => Day.day a < Day.day b)
                      (List.map mk (group_by_day rows))).
  { apply (strongly_sorted_map mk (fun a b => Day.day a < Day.day b)).
    apply (strongly_sorted_map fst Z.lt) in Hs.
    eapply strongly_sorted_impl; [| exact Hs]. intros a b. simpl. now rewrite !Hkey. }
  rewrite sort_by_in_order.
  2: { eapply strongly_sorted_impl; [| exact Hsorted].
       intros a b. unfold by_day_number. lia. }
  split; [| split; [exact Hsorted |]].
  - unfold items_of. rewrite flat_map_concat_map, List.map_map.
    transitivity (concat (List.map snd (group_by_day rows))); [| exact Hc].
    f_equal. apply List.map_ext. exact Hval.
  - apply List.Forall_forall. intros day Hday.
    apply in_map_iff in Hday as (entry & <- & Hentry).
    unfold groups_hold in Hg. rewrite List.Forall_forall in Hg.
    rewrite Hkey, Hval. now apply Hg.
Qed.

(** The itinerary that is read holds the rows of the trip and nothing else:
    its days put end to end are the rows in the order of their day and
    position; the days come by rising number; no day is empty, and each
    holds rows of its own number. *)
Theorem itinerary_read_is_the_trip_rows tripId (w w' : world tables) itinerary :
  getItineraryByTripId tripId w = (Ok (Some itinerary), w') ->
  items_of (Itinerary.days itinerary) = select_trip_items tripId (db w)
  /\ StronglySorted (fun a b => Day.day a < Day.day b) (Itinerary.days itinerary)
  /\ Forall (fun day => Day.items day <> []
                        /\ Forall (fun item => Item.day item = Day.day day) (Day.items day))
       (Itinerary.days itinerary).
Proof.
  intros H.
  apply getItineraryByTripId_ok in H as (_ & row & prefs & _ & _ & _ & _ & Hdays).
  rewrite Hdays.
  apply days_of_rows; [now intros [k l] | now intros [k l] | apply select_trip_items_in_order].
Qed.

End ReadFacts.

Module OutcomeFacts.
Import Db Spec DbFacts Plan PlanFacts ContainerFacts GeneratorFacts GenerationFacts VersionFacts.
Import ItineraryGeneratorService ItineraryGeneration ItineraryVersionService.

(** A POI that is not stored is skipped, and so is one whose lookup fails:
    the loop ends with the POIs it had. *)
Lemma resolve_pois_unknown ids :
  forall pois (w w' : world tables) r,
    (forall poiId, In poiId ids -> Plan.pois (db w) !! poiId = None) ->
    resolve_pois ids pois w = (r, w') -> r = Ok pois.
Proof.
  induction ids as [| poiId ids IH]; intros acc w w' r Hnone H.
  - inversion H. reflexivity.
  - cbn [resolve_pois] in H.
    apply bind_inv in H as [(found & w1 & Hfound & H) | (e & Hfound & _)].
    + assert (Hd1 : db w = db w1).
      { assert (Hp : preserves eq
                  (try_catch (poi <- POIService.getPOIById poiId ;; ret (Some poi))
                             (fun _ => ret None)))
          by (repeat first [ apply getPOIById_reads | preserves_step ]).
        exact (Hp _ _ _ Hfound). }
      assert (found = None) as ->.
      { apply try_catch_inv in Hfound as [(a & Hm & Ha) | (e & w2 & _ & Hh)].
        - apply bind_ok in Hm as (poi & w2 & Hget & _).
          unfold POIService.getPOIById in Hget.
          apply bind_ok in Hget as (row & w3 & Hq & Hget).
          apply (query_read_ok (fun d => Plan.pois d !! poiId)) in Hq as (-> & _).
          rewrite (Hnone poiId (or_introl eq_refl)) in Hget. discriminate Hget.
        - inversion Hh. reflexivity. }
      apply (IH acc w1 w' r); [| exact H].
      intros p Hp. rewrite <- Hd1. apply Hnone. now right.
    + apply try_catch_inv in Hfound as [(a & _ & Ha) | (e' & w2 & _ & Hh)];
        [discriminate Ha | inversion Hh].
Qed.

Section Generate.
Variable calculateDistance : Q -> Q -> Q -> Q -> Q.

(** A generation for which none of the selected POIs is stored is refused
    and writes nothing: either the trip or its preferences cannot be read,
    or the answer is the validation error. *)
Theorem generation_without_known_poi_is_refused tripId request userId guestSessionId
    (w w' : world tables) r :
  (forall poiId, In poiId (selected_poi_ids request) -> Plan.pois (db w) !! poiId = None) ->
  generateItinerary calculateDistance tripId request userId guestSessionId w = (r, w') ->
  db w' = db w
  /\ (r = Err (ValidationError "At least one valid POI is required")
      \/ exists e, TripService.getTripWithPreferences tripId userId guestSessionId w = (Err e, w')
                   /\ r = Err e).
Proof.
  intros Hnone H. unfold generateItinerary in H.
  apply bind_inv in H as [(tp & w1 & Htp & H) | (e & Htp & ->)].
  2: { split; [symmetry; exact (getTripWithPreferences_reads _ _ _ _ _ _ Htp) | eauto]. }
  pose proof (getTripWithPreferences_reads _ _ _ _ _ _ Htp) as Hd1.
  apply bind_inv in H as [(pois & w2 & Hres & H) | (e & Hres & ->)].
  - pose proof (resolve_pois_reads _ _ _ _ _ Hres) as Hd2.
    apply resolve_pois_unknown in Hres; [| intros p Hp; rewrite <- Hd1; now apply Hnone].
    injection Hres as ->. inversion H; subst. split; [congruence | now left].
  - apply resolve_pois_unknown in Hres; [discriminate Hres |].
    intros p Hp. rewrite <- Hd1. now apply Hnone.
Qed.

(** What a save that goes through leaves. *)
Lemma saveItinerary_ok tripId days currentVersion (w w' : world tables) itineraryId :
  saveItinerary tripId days currentVersion w = (Ok itineraryId, w') ->
  itinerary_items (db w')
    = (other_rows tripId (db w) ++ List.map (saved_row tripId) (items_of days))%list
  /\ Spec.current_version tripId (db w') = Some (currentVersion + 1)
  /\ itinerary_versions (db w') = itinerary_versions (db w).
Proof.
  unfold saveItinerary. intros H.
  apply bind_ok in H as (iid & w1 & Hu & H). inversion Hu; subst w1; clear Hu.
  apply bind_ok in H as (u1 & w2 & Hdel & H).
  apply query_ok in Hdel as (Hdel & _). injection Hdel as _ Hd2. simpl in Hd2.
  apply bind_ok in H as (u2 & w3 & Hins & H).
  apply for_each_days_insert in Hins.
  apply bind_ok in H as (u3 & w4 & Hup & H). inversion H; subst; clear H.
  apply query_ok in Hup as (Hup & _). injection Hup as _ Hd4.
  rewrite <- Hd4, Hins, <- Hd2. simpl. repeat split.
  unfold Spec.current_version. simpl.
  destruct (itineraries (db w) !! tripId); now rewrite lookup_insert_eq.
Qed.

Lemma rows_split tripId (d : tables) more :
  (forall x, In x more -> String.eqb (Item.trip_id x) tripId = true) ->
  List.filter (fun r => String.eqb (Item.trip_id r) tripId) (other_rows tripId d ++ more) = more
  /\ List.filter (fun r => negb (String.eqb (Item.trip_id r) tripId)) (other_rows tripId d ++ more)
     = other_rows tripId d.
Proof.
  intros Hmore. rewrite !List.filter_app. unfold other_rows.
  rewrite filter_filter_negb, filter_twice. simpl. split.
  - now apply filter_all.
  - rewrite (filter_nil (fun r => negb (String.eqb (Item.trip_id r) tripId)) more).
    + now rewrite app_nil_r.
    + intros x Hx. now rewrite (Hmore x Hx).
Qed.

(** A generation that goes through.  The rows of the trip are replaced by
    the items of the days returned, day by day, and the rows of the other
    trips are not touched; the days are numbered 1..N; one snapshot is
    appended, typed ['edit'] for an incremental generation and ['generate']
    otherwise.  The version is the one the itinerary had plus one for an
    incremental generation; any other generation starts again at 1,
    whatever version the itinerary had. *)
Theorem generation_replaces_the_plan tripId request userId guestSessionId
    (w w' : world tables) result :
  generateItinerary calculateDistance tripId request userId guestSessionId w = (Ok result, w') ->
  let version :=
    if is_incremental request then default 0 (Spec.current_version tripId (db w)) + 1 else 1 in
  trip_rows tripId (db w') = List.map (saved_row tripId) (items_of (days result))
  /\ other_rows tripId (db w') = other_rows tripId (db w)
  /\ (exists n, List.map Day.day (days result) = seqZ 1 n)
  /\ Spec.current_version tripId (db w') = Some version
  /\ exists snap,
       itinerary_versions (db w') = (itinerary_versions (db w) ++ [snap])%list
       /\ Version.trip_id snap = tripId
       /\ Version.version snap = version
       /\ Version.change_type snap = (if is_incremental request then "edit" else "generate").
Proof.
  intros H version. unfold generateItinerary in H.
  apply bind_ok in H as (tp & w1 & Htp & H).
  pose proof (getTripWithPreferences_reads _ _ _ _ _ _ Htp) as Hd1.
  apply bind_ok in H as (pois & w2 & Hres & H).
  pose proof (resolve_pois_reads _ _ _ _ _ Hres) as Hd2. simpl in Hd2.
  destruct pois as [| poi pois]; [discriminate H |].
  apply bind_ok in H as (existing & w3 & Hex & H).
  assert (Hd3 : db w3 = db w2 /\
                match existing with Some e => Itinerary.version e | None => 0 end + 1 = version).
  { unfold version. destruct (is_incremental request).
    - apply getItineraryByTripId_ok in Hex as (Hd3 & Hfound). split; [exact Hd3 |].
      unfold Spec.current_version. rewrite Hd1, Hd2.
      destruct existing as [e |].
      + destruct Hfound as (row & prefs & -> & _ & -> & _). reflexivity.
      + rewrite Hfound. reflexivity.
    - inversion Hex; subst. auto. }
  destruct Hd3 as (Hd3 & Hversion).
  apply bind_ok in H as (days & w4 & Hgen & H).
  pose proof (generateDays_reads calculateDistance _ _ _ _ _ _ _ Hgen) as Hd4.
  apply generateDays_days in Hgen as (n & _ & Hnums & _).
  apply bind_ok in H as (itineraryId & w5 & Hsave & H).
  apply saveItinerary_ok in Hsave as (Hitems & Hcur & Hvers).
  apply bind_ok in H as (previousVersion & w6 & Hprev & H).
  assert (Hd6 : db w5 = db w6).
  { destruct existing as [e |]; [| inversion Hprev; reflexivity].
    assert (Hp : preserves eq
              (catch_default
                 (v <- ItineraryVersionService.getVersion tripId (Itinerary.version e) ;;
                  ret (Some v)) None))
      by (repeat first [ apply getVersion_reads | preserves_step ]).
    exact (Hp _ _ _ Hprev). }
  apply bind_ok in H as (snap & w7 & Hsnap & H). inversion H; subst; clear H. simpl.
  apply createSnapshot_ok in Hsnap as (Hd7 & Htrip & Htype & Hsnapv).
  assert (Hall : itinerary_items (db w')
                 = (other_rows tripId (db w) ++ List.map (saved_row tripId) (items_of days))%list).
  { rewrite Hd7, <- Hd6. simpl. rewrite Hitems, <- Hd4, Hd3, <- Hd2, <- Hd1. reflexivity. }
  destruct (rows_split tripId (db w) (List.map (saved_row tripId) (items_of days)))
    as (Hmine & Hothers).
  { intros x Hx. apply in_map_iff in Hx as (item & <- & _). simpl. apply String.eqb_refl. }
  rewrite Hversion in Hcur.
  repeat split.
  - unfold trip_rows. rewrite Hall. exact Hmine.
  - unfold other_rows at 1. rewrite Hall. exact Hothers.
  - eauto.
  - rewrite Hd7, <- Hd6. exact Hcur.
  - exists snap. rewrite Hd7, <- Hd6. simpl. rewrite Hvers, <- Hd4, Hd3, <- Hd2, <- Hd1.
    repeat split; try assumption.
    rewrite <- Hd6, Hcur in Hsnapv. now injection Hsnapv as <-.
Qed.

End Generate.
End OutcomeFacts.

(** ** The re-flow of a day *)
Module ReflowFacts.
Import Db Spec DbFacts Plan PlanFacts ContainerFacts GenerationFacts VersionFacts ReadFacts.
Import ItineraryEditorService.

#[local] Existing Instance same_items_refl.
#[local] Existing Instance same_items_trans.

Lemma createVersionSnapshot_same_items tripId changeType changedBy :
  preserves same_items (createVersionSnapshot tripId changeType changedBy).
Proof.
  unfold createVersionSnapshot.
  repeat first [ apply createSnapshot_same_items
               | apply (reads_preserves same_items);
                 first [ apply getItineraryByTripId_reads | apply getVersion_reads ]
               | preserves_step ].
Qed.

(** *** Changes of the times alone *)

Lemma times_only_fields f row :
  changes_times_only f ->
  Item.id (f row) = Item.id row /\ Item.trip_id (f row) = Item.trip_id row
  /\ Item.day (f row) = Item.day row /\ Item.order (f row) = Item.order row
  /\ Item.is_pinned (f row) = Item.is_pinned row
  /\ Item.duration_minutes (f row) = Item.duration_minutes row.
Proof.
  intros Hf. specialize (Hf row). unfold untimed in Hf.
  repeat split.
  - exact (f_equal Item.id Hf).
  - exact (f_equal Item.trip_id Hf).
  - exact (f_equal Item.day Hf).
  - exact (f_equal Item.order Hf).
  - exact (f_equal Item.is_pinned Hf).
  - exact (f_equal Item.duration_minutes Hf).
Qed.

Lemma update_times_only (cond : Item.t -> bool) s e :
  changes_times_only (fun r => if cond r then Item.set_times s e r else r).
Proof. intros row. destruct (cond row); reflexivity. Qed.

Lemma retime_times_only items : forall cursor, changes_times_only (retime items cursor).
Proof.
  induction items as [| item rest IH]; intros cursor row; cbn [retime]; [reflexivity |].
  rewrite IH. destruct (String.eqb _ _); reflexivity.
Qed.

Lemma filter_map_commute {A} (p : A -> bool) (f : A -> A) l :
  (forall x, p (f x) = p x) -> List.filter p (List.map f l) = List.map f (List.filter p l).
Proof.
  intros Hp. induction l as [| x l IH]; simpl; [reflexivity |].
  rewrite Hp, IH. now destruct (p x).
Qed.

Lemma insert_sorted_map {A} (le : A -> A -> bool) (f : A -> A) x l :
  (forall a b, le (f a) (f b) = le a b) ->
  insert_sorted le (f x) (List.map f l) = List.map f (insert_sorted le x l).
Proof.
  intros Hle. induction l as [| y l IH]; simpl; [reflexivity |].
  rewrite Hle, IH. now destruct (le x y).
Qed.

Lemma sort_by_map {A} (le : A -> A -> bool) (f : A -> A) l :
  (forall a b, le (f a) (f b) = le a b) ->
  sort_by le (List.map f l) = List.map f (sort_by le l).
Proof.
  intros Hle. unfold sort_by. induction l as [| x l IH]; simpl; [reflexivity |].
  rewrite IH. now apply insert_sorted_map.
Qed.

(** A change of the times alone moves no row in or out of a day, nor
    within it. *)
Lemma select_day_items_retimed f tripId day d :
  changes_times_only f ->
  select_day_items tripId day (set_items (List.map f) d)
  = List.map f (select_day_items tripId day d).
Proof.
  intros Hf. unfold select_day_items. simpl.
  rewrite filter_map_commute, sort_by_map; [reflexivity | |].
  - intros a b. unfold by_order.
    destruct (times_only_fields f a Hf) as (_ & _ & _ & -> & _).
    destruct (times_only_fields f b Hf) as (_ & _ & _ & -> & _). reflexivity.
  - intros x. destruct (times_only_fields f x Hf) as (_ & -> & -> & _). reflexivity.
Qed.

(** *** Rows and their ids *)

Lemma same_id_same_row (rows : list Item.t) a b :
  List.NoDup (List.map Item.id rows) -> In a rows -> In b rows ->
  Item.id a = Item.id b -> a = b.
Proof.
  induction rows as [| r rows IH]; intros Hn Ha Hb E; [contradiction |].
  inversion Hn as [| ? ? Hnot Hn']; subst.
  destruct Ha as [-> | Ha], Hb as [-> | Hb]; auto.
  - contradict Hnot. rewrite E. now apply in_map.
  - contradict Hnot. rewrite <- E. now apply in_map.
Qed.

Lemma nodup_ids_filter (p : Item.t -> bool) rows :
  List.NoDup (List.map Item.id rows) -> List.NoDup (List.map Item.id (List.filter p rows)).
Proof.
  induction rows as [| r rows IH]; intros Hn; simpl; [constructor |].
  inversion Hn as [| ? ? Hnot Hn']; subst.
  destruct (p r); [| now apply IH]. simpl. constructor; [| now apply IH].
  intros Hin. apply Hnot. apply in_map_iff in Hin as (x & Hx & Hin).
  apply filter_In in Hin as (Hin & _). rewrite <- Hx. now apply in_map.
Qed.

Lemma day_items_in tripId day d x :
  In x (select_day_items tripId day d) <-> In x (itinerary_items d) /\ in_day tripId day x = true.
Proof.
  unfold select_day_items. split.
  - intros H. apply (Permutation_in _ (sort_by_perm _ _)) in H. now apply filter_In in H.
  - intros H. apply (Permutation_in _ (Permutation_sym (sort_by_perm _ _))).
    now apply filter_In.
Qed.

Lemma day_items_ids tripId day d :
  List.NoDup (List.map Item.id (itinerary_items d)) ->
  List.NoDup (List.map Item.id (select_day_items tripId day d)).
Proof.
  intros Hn. unfold select_day_items.
  eapply Permutation_NoDup; [apply Permutation_map; symmetry; apply sort_by_perm |].
  now apply nodup_ids_filter.
Qed.

Lemma nodup_ids_retimed f rows :
  changes_times_only f ->
  List.map Item.id (List.map f rows) = List.map Item.id rows.
Proof.
  intros Hf. rewrite List.map_map. apply List.map_ext. intros r.
  now destruct (times_only_fields f r Hf) as (-> & _).
Qed.

(** *** The loop *)

Lemma set_items_twice f g (d : tables) :
  set_items g (set_items f d) = set_items (fun rows => g (f rows)) d.
Proof. reflexivity. Qed.

(** The loop over items none of which is pinned sends one update for each,
    by its id. *)
Lemma reflow_unpinned items :
  forall cursor (w w' : world tables) u,
    Forall unpinned items ->
    reflow items cursor w = (Ok u, w') ->
    db w' = set_items (List.map (retime items cursor)) (db w).
Proof.
  induction items as [| item rest IH]; intros cursor w w' u Hun H.
  - inversion H; subst. rewrite <- (set_items_id (db w')) at 1.
    apply set_items_ext. intros rows. simpl. now rewrite List.map_id.
  - inversion Hun as [| ? ? Hitem Hrest]; subst. cbn [reflow] in H.
    unfold unpinned in Hitem. rewrite Hitem in H. simpl in H.
    apply bind_ok in H as (u1 & w1 & Hq & H).
    apply query_ok in Hq as (Hq & _). injection Hq as _ Hd1.
    rewrite (IH _ _ _ _ Hrest H), <- Hd1, set_items_twice.
    apply set_items_ext. intros rows. rewrite List.map_map. reflexivity.
Qed.

Lemma retime_other items :
  forall cursor row, ~ In (Item.id row) (List.map Item.id items) -> retime items cursor row = row.
Proof.
  induction items as [| item rest IH]; intros cursor row Hnot; cbn [retime]; [reflexivity |].
  destruct (String.eqb_spec (Item.id row) (Item.id item)) as [E | _].
  - contradict Hnot. left. now symmetry.
  - apply IH. intros Hin. apply Hnot. now right.
Qed.

(** On the items themselves, the updates give the schedule of the policy. *)
Lemma retime_schedule items :
  forall cursor,
    List.NoDup (List.map Item.id items) -> Forall unpinned items ->
    List.map (retime items cursor) items = reflow_policy items cursor.
Proof.
  induction items as [| item rest IH]; intros cursor Hn Hun; [reflexivity |].
  inversion Hn as [| ? ? Hnot Hn']; subst. inversion Hun as [| ? ? Hitem Hrest]; subst.
  cbn [List.map retime reflow_policy]. unfold unpinned in Hitem. rewrite Hitem. simpl.
  rewrite String.eqb_refl. f_equal.
  - apply retime_other. exact Hnot.
  - rewrite <- (IH _ Hn' Hrest). apply List.map_ext_in. intros r Hr.
    destruct (String.eqb_spec (Item.id r) (Item.id item)) as [E | _]; [| reflexivity].
    contradict Hnot. rewrite <- E. now apply in_map.
Qed.

(** The schedule does not look at the times the items had. *)
Lemma reflow_policy_retimed f items :
  changes_times_only f -> Forall unpinned items ->
  forall cursor, reflow_policy (List.map f items) cursor = reflow_policy items cursor.
Proof.
  intros Hf. induction 1 as [| item rest Hitem Hrest IH]; intros cursor; [reflexivity |].
  cbn [List.map reflow_policy].
  destruct (times_only_fields f item Hf) as (_ & _ & _ & _ & Hp & Hd).
  unfold unpinned in Hitem. rewrite Hp, Hd, Hitem. simpl. rewrite IH. f_equal.
  pose proof (Hf item) as E. unfold untimed in E.
  destruct (f item), item. simpl in *. injection E as -> -> -> -> -> -> -> -> -> -> -> ->.
  reflexivity.
Qed.

(** The re-flow of a day none of whose items is pinned, when it goes
    through and no two rows have the same id: the day is then the schedule
    of the policy from the start of the daily window, the items back to
    back in their order, and no row outside the day has changed. *)
Lemma recalculateDayTimes_unpinned tripId day preferences (w w' : world tables) u :
  recalculateDayTimes tripId day w = (Ok u, w') ->
  trip_preferences (db w) !! tripId = Some preferences ->
  List.NoDup (List.map Item.id (itinerary_items (db w))) ->
  Forall unpinned (select_day_items tripId day (db w)) ->
  db w' = set_items (List.map (retime (select_day_items tripId day (db w))
                                 (Prefs.daily_time_window_start preferences))) (db w)
  /\ select_day_items tripId day (db w')
     = reflow_policy (select_day_items tripId day (db w))
         (Prefs.daily_time_window_start preferences)
  /\ outside_day tripId day (db w') = outside_day tripId day (db w).
Proof.
  intros H Hprefs Hn Hun. unfold recalculateDayTimes in H.
  apply bind_ok in H as (items & w1 & Hitems & H).
  apply (query_read_ok (fun d => select_day_items tripId day d)) in Hitems as (-> & Hd1).
  apply bind_ok in H as (tp & w2 & Htp & H).
  apply getTripWithPreferences_ok in Htp as (Hp & Hd2).
  rewrite Hd1, Hprefs in Hp. injection Hp as Hp. rewrite <- Hp in H.
  apply reflow_unpinned in H; [| exact Hun]. rewrite Hd2, Hd1 in H.
  set (items := select_day_items tripId day (db w)) in *.
  set (start := Prefs.daily_time_window_start preferences) in *.
  split; [exact H |]. rewrite H. split.
  - rewrite select_day_items_retimed by apply retime_times_only.
    apply retime_schedule; [now apply day_items_ids | exact Hun].
  - unfold outside_day. simpl.
    rewrite filter_map_commute.
    2: { intros x. unfold in_day.
         destruct (times_only_fields _ x (retime_times_only items start)) as (_ & -> & -> & _).
         reflexivity. }
    rewrite <- (List.map_id (List.filter _ (itinerary_items (db w)))) at 2.
    apply List.map_ext_in. intros r Hr. apply filter_In in Hr as (Hr & Hout).
    apply retime_other. intros Hin. apply in_map_iff in Hin as (x & E & Hx).
    apply day_items_in in Hx as (Hx & Hday).
    rewrite (same_id_same_row _ x r Hn Hx Hr E) in Hday. now rewrite Hday in Hout.
Qed.


Lemma getItemById_found itemId tripId (w w' : world tables) item :
  getItemById itemId tripId w = (Ok item, w') ->
  In item (itinerary_items (db w)) /\ Item.id item = itemId /\ Item.trip_id item = tripId
  /\ db w' = db w.
Proof.
  intros H. pose proof (getItemById_reads _ _ _ _ _ H) as Hd.
  unfold getItemById in H. apply bind_ok in H as (rows & w1 & Hq & H).
  apply (query_read_ok
    (fun d => List.filter (fun r => String.eqb (Item.id r) itemId
                                    && String.eqb (Item.trip_id r) tripId)
                (itinerary_items d))) in Hq as (-> & _).
  destruct (List.filter _ _) as [| row rest] eqn:E; inversion H; subst.
  assert (Hin : In item (List.filter (fun r => String.eqb (Item.id r) itemId
                                               && String.eqb (Item.trip_id r) tripId)
                           (itinerary_items (db w)))) by (rewrite E; now left).
  apply filter_In in Hin as (Hin & Hc). apply andb_prop in Hc as (Hi & Ht).
  apply String.eqb_eq in Hi. apply String.eqb_eq in Ht. auto.
Qed.

Lemma in_day_retimed f tripId day row :
  changes_times_only f -> in_day tripId day (f row) = in_day tripId day row.
Proof.
  intros Hf. unfold in_day.
  destruct (times_only_fields f row Hf) as (_ & -> & -> & _). reflexivity.
Qed.

(** A row of the table after a change of the times alone that has the id
    of an item is that item with other times: it is of the item's day. *)
Lemma retimed_row_in_day f rows tripId item returned :
  changes_times_only f -> List.NoDup (List.map Item.id rows) ->
  In item rows -> In returned (List.map f rows) ->
  Item.id returned = Item.id item -> Item.trip_id item = tripId ->
  in_day tripId (Item.day item) returned = true.
Proof.
  intros Hf Hn Hin Hret Hid Htrip. apply in_map_iff in Hret as (r & <- & Hr).
  rewrite in_day_retimed by exact Hf.
  destruct (times_only_fields f r Hf) as (E & _). rewrite E in Hid.
  rewrite (same_id_same_row _ _ _ Hn Hr Hin Hid).
  unfold in_day. now rewrite Htrip, String.eqb_refl, Z.eqb_refl.
Qed.

(** An update of the times of an item by its id and trip changes no row
    outside the item's day. *)
Lemma outside_day_of_update (f : Item.t -> Item.t) rows tripId item :
  changes_times_only (fun r => if String.eqb (Item.id r) (Item.id item)
                                  && String.eqb (Item.trip_id r) tripId then f r else r) ->
  List.NoDup (List.map Item.id rows) -> In item rows -> Item.trip_id item = tripId ->
  List.filter (fun r => negb (in_day tripId (Item.day item) r))
    (List.map (fun r => if String.eqb (Item.id r) (Item.id item)
                           && String.eqb (Item.trip_id r) tripId then f r else r) rows)
  = List.filter (fun r => negb (in_day tripId (Item.day item) r)) rows.
Proof.
  intros Hg Hn Hin Htrip. rewrite filter_map_commute.
  2: { intros x. f_equal. now apply (in_day_retimed _ tripId (Item.day item) x) in Hg. }
  rewrite <- (List.map_id (List.filter _ rows)) at 2.
  apply List.map_ext_in. intros r Hr. apply filter_In in Hr as (Hr & Hout).
  destruct (String.eqb_spec (Item.id r) (Item.id item)) as [E | _]; [| reflexivity].
  rewrite (same_id_same_row _ _ _ Hn Hr Hin E) in Hout.
  unfold in_day in Hout. now rewrite Htrip, String.eqb_refl, Z.eqb_refl in Hout.
Qed.

(** [setStartTime] on a day none of whose items is pinned.  The time asked
    for is not kept: the re-flow that follows puts every item of the day,
    the one named included, on the schedule of the policy from the start of
    the daily window, which is the schedule a re-flow of the day as it was
    before the call gives.  The item returned is the named one as it stands
    in that schedule, and no row outside the day has changed. *)
Theorem start_time_set_on_an_unpinned_day_is_not_kept tripId itemId startTime changedBy
    preferences item (w w' : world tables) returned :
  setStartTime tripId itemId startTime changedBy w = (Ok returned, w') ->
  trip_preferences (db w) !! tripId = Some preferences ->
  List.NoDup (List.map Item.id (itinerary_items (db w))) ->
  In item (itinerary_items (db w)) -> Item.id item = itemId -> Item.trip_id item = tripId ->
  Forall unpinned (select_day_items tripId (Item.day item) (db w)) ->
  select_day_items tripId (Item.day item) (db w')
  = reflow_policy (select_day_items tripId (Item.day item) (db w))
      (Prefs.daily_time_window_start preferences)
  /\ In returned (select_day_items tripId (Item.day item) (db w'))
  /\ Item.id returned = itemId
  /\ outside_day tripId (Item.day item) (db w') = outside_day tripId (Item.day item) (db w).
Proof.
  intros H Hprefs Hn Hin Hid Htrip Hun. unfold setStartTime in H.
  destruct (negb (timeRegex_test startTime)); [discriminate H |].
  apply bind_ok in H as (found & w1 & Hfound & H).
  apply getItemById_found in Hfound as (Hfin & Hfid & Hftrip & Hd1).
  assert (found = item) as -> by (apply (same_id_same_row _ _ _ Hn Hfin Hin); congruence).
  apply bind_ok in H as (u2 & w2 & Hup & H).
  apply query_ok in Hup as (Hup & _). injection Hup as _ Hd2. rewrite Hd1 in Hd2.
  rewrite <- Hid in Hd2.
  set (g := fun r : Item.t =>
              if String.eqb (Item.id r) (Item.id item) && String.eqb (Item.trip_id r) tripId
              then Item.set_times startTime
                     (TimeOfDay.addMinutes startTime (Item.duration_minutes item)) r
              else r) in Hd2.
  assert (Hg : changes_times_only g) by apply update_times_only.
  apply bind_ok in H as (u3 & w3 & Hre & H).
  apply (recalculateDayTimes_unpinned _ _ preferences) in Hre as (Hd3 & Hday & Hout).
  2: { rewrite <- Hd2. exact Hprefs. }
  2: { rewrite <- Hd2. simpl. now rewrite nodup_ids_retimed. }
  2: { rewrite <- Hd2, select_day_items_retimed by exact Hg.
       apply List.Forall_forall. intros x Hx. apply in_map_iff in Hx as (r & <- & Hr).
       unfold unpinned. destruct (times_only_fields g r Hg) as (_ & _ & _ & _ & -> & _).
       rewrite List.Forall_forall in Hun. now apply Hun. }
  rewrite <- Hd2, select_day_items_retimed in Hday by exact Hg.
  rewrite reflow_policy_retimed in Hday by assumption.
  apply bind_ok in H as (u4 & w4 & Hsnap & H).
  apply createVersionSnapshot_same_items in Hsnap. unfold same_items in Hsnap.
  apply getItemById_found in H as (Hrin & Hrid & Hrtrip & Hd5).
  assert (Hrows : itinerary_items (db w') = itinerary_items (db w3)) by congruence.
  assert (Hsel : forall day, select_day_items tripId day (db w') = select_day_items tripId day (db w3))
    by (intros day; unfold select_day_items; now rewrite Hrows).
  rewrite Hsel. split; [exact Hday |]. split; [| split; [exact Hrid |]].
  - apply day_items_in. rewrite <- Hsnap. split; [exact Hrin |].
    rewrite Hsnap, Hd3, <- Hd2 in Hrin. simpl in Hrin. rewrite List.map_map in Hrin.
    eapply (retimed_row_in_day _ (itinerary_items (db w)) tripId item returned);
      [| exact Hn | exact Hin | exact Hrin | congruence | exact Htrip].
    intros row. rewrite retime_times_only. apply Hg.
  - unfold outside_day in *. rewrite Hrows, Hout, <- Hd2. simpl.
    now apply outside_day_of_update.
Qed.


(** *** Sorting and filtering *)

Lemma insert_sorted_first {A} (le : A -> A -> bool) x l :
  Forall (fun z => le x z = true) l -> insert_sorted le x l = x :: l.
Proof.
  intros H. destruct l as [| y l]; [reflexivity |]. simpl.
  inversion H as [| ? ? Hy _]; subst. now rewrite Hy.
Qed.

Lemma filter_insert_sorted {A} (le : A -> A -> bool) (p : A -> bool) x l :
  (forall a b c, le a b = true -> le b c = true -> le a c = true) ->
  StronglySorted (fun a b => le a b = true) l ->
  List.filter p (insert_sorted le x l)
  = if p x then insert_sorted le x (List.filter p l) else List.filter p l.
Proof.
  intros Htrans. induction 1 as [| y l Hs IH Hall]; simpl.
  - now destruct (p x).
  - destruct (le x y) eqn:E; simpl.
    + destruct (p x); [| reflexivity].
      rewrite insert_sorted_first; [reflexivity |].
      apply List.Forall_forall. intros z Hz.
      assert (Hz' : In z (y :: l)).
      { destruct (p y); [destruct Hz as [<- | Hz]; [now left |] |];
          right; now apply filter_In in Hz. }
      destruct Hz' as [<- | Hz']; [exact E |].
      rewrite List.Forall_forall in Hall. eapply Htrans; [exact E | now apply Hall].
    + rewrite IH. destruct (p y), (p x); simpl; try rewrite E; reflexivity.
Qed.

Lemma sort_by_filter {A} (le : A -> A -> bool) (p : A -> bool) l :
  (forall a b, le a b = false -> le b a = true) ->
  (forall a b c, le a b = true -> le b c = true -> le a c = true) ->
  sort_by le (List.filter p l) = List.filter p (sort_by le l).
Proof.
  intros Htotal Htrans. induction l as [| x l IH]; [reflexivity |].
  change (sort_by le (x :: l)) with (insert_sorted le x (sort_by le l)).
  rewrite filter_insert_sorted by (try apply sort_by_sorted; assumption).
  simpl. destruct (p x); [| exact IH].
  change (sort_by le (x :: List.filter p l)) with (insert_sorted le x (sort_by le (List.filter p l))).
  now rewrite IH.
Qed.

Lemma by_order_total a b : by_order a b = false -> by_order b a = true.
Proof. unfold by_order. lia. Qed.

Lemma by_order_trans a b c :
  by_order a b = true -> by_order b c = true -> by_order a c = true.
Proof. unfold by_order. lia. Qed.

Lemma filter_commute {A} (p q : A -> bool) l :
  List.filter p (List.filter q l) = List.filter q (List.filter p l).
Proof.
  induction l as [| x l IH]; simpl; [reflexivity |].
  destruct (p x) eqn:Ep, (q x) eqn:Eq; simpl; rewrite ?Ep, ?Eq, IH; reflexivity.
Qed.

(** The day read from a table some rows of which are taken away. *)
Lemma select_day_items_filtered (p : Item.t -> bool) tripId day d :
  select_day_items tripId day (set_items (List.filter p) d)
  = List.filter p (select_day_items tripId day d).
Proof.
  unfold select_day_items. simpl.
  rewrite filter_commute. apply sort_by_filter; [apply by_order_total | apply by_order_trans].
Qed.

(** [removeItem] on a day none of whose items is pinned, when it goes
    through: the item is gone and the items left close ranks; they are on
    the schedule of the policy from the start of the daily window, in the
    order they had.  No row outside the day has changed. *)
Theorem removed_item_is_gone_and_the_day_closes_ranks tripId itemId changedBy
    preferences item (w w' : world tables) u :
  removeItem tripId itemId changedBy w = (Ok u, w') ->
  trip_preferences (db w) !! tripId = Some preferences ->
  List.NoDup (List.map Item.id (itinerary_items (db w))) ->
  In item (itinerary_items (db w)) -> Item.id item = itemId -> Item.trip_id item = tripId ->
  Forall unpinned (select_day_items tripId (Item.day item) (db w)) ->
  select_day_items tripId (Item.day item) (db w')
  = reflow_policy
      (List.filter (fun r => negb (String.eqb (Item.id r) itemId))
         (select_day_items tripId (Item.day item) (db w)))
      (Prefs.daily_time_window_start preferences)
  /\ ~ In itemId (List.map Item.id (itinerary_items (db w')))
  /\ outside_day tripId (Item.day item) (db w') = outside_day tripId (Item.day item) (db w).
Proof.
  intros H Hprefs Hn Hin Hid Htrip Hun. unfold removeItem in H.
  apply bind_ok in H as (found & w1 & Hfound & H).
  apply getItemById_found in Hfound as (Hfin & Hfid & Hftrip & Hd1).
  assert (found = item) as -> by (apply (same_id_same_row _ _ _ Hn Hfin Hin); congruence).
  destruct (Item.is_pinned item); [discriminate H |].
  apply bind_ok in H as (u2 & w2 & Hdel & H).
  apply query_ok in Hdel as (Hdel & _). injection Hdel as _ Hd2. rewrite Hd1 in Hd2.
  set (p := fun r : Item.t => negb (String.eqb (Item.id r) itemId)).
  assert (Hitem_day : in_day tripId (Item.day item) item = true)
    by (unfold in_day; now rewrite Htrip, String.eqb_refl, Z.eqb_refl).
  assert (Hrows2 : db w2 = set_items (List.filter p) (db w)).
  { rewrite <- Hd2. unfold delete_item, set_items. simpl. f_equal.
    apply List.filter_ext_in. intros r Hr. unfold p.
    destruct (String.eqb_spec (Item.id r) itemId) as [E | _]; [| reflexivity].
    rewrite (same_id_same_row _ r item Hn Hr Hin) by congruence.
    now rewrite Htrip, String.eqb_refl. }
  apply bind_ok in H as (u3 & w3 & Hre & H).
  apply (recalculateDayTimes_unpinned _ _ preferences) in Hre as (Hd3 & Hday & Hout).
  2: { rewrite Hrows2. exact Hprefs. }
  2: { rewrite Hrows2. simpl. now apply nodup_ids_filter. }
  2: { rewrite Hrows2, select_day_items_filtered.
       apply List.Forall_forall. intros x Hx. apply filter_In in Hx as (Hx & _).
       rewrite List.Forall_forall in Hun. now apply Hun. }
  rewrite Hrows2, select_day_items_filtered in Hday.
  apply createVersionSnapshot_same_items in H. unfold same_items in H.
  assert (Hsel : select_day_items tripId (Item.day item) (db w')
                 = select_day_items tripId (Item.day item) (db w3))
    by (unfold select_day_items; now rewrite H).
  rewrite Hsel. split; [exact Hday |]. split.
  - rewrite H, Hd3, Hrows2. simpl.
    rewrite nodup_ids_retimed by apply retime_times_only.
    intros Hi. apply in_map_iff in Hi as (r & E & Hr). apply filter_In in Hr as (_ & Hr).
    unfold p in Hr. rewrite E, String.eqb_refl in Hr. discriminate Hr.
  - unfold outside_day in *. rewrite H, Hout, Hrows2. simpl.
    rewrite filter_commute. apply filter_all. intros r Hr.
    apply filter_In in Hr as (Hr & Hout_r). unfold p.
    destruct (String.eqb_spec (Item.id r) itemId) as [E | _]; [| reflexivity].
    rewrite (same_id_same_row _ r item Hn Hr Hin) in Hout_r by congruence.
    now rewrite Hitem_day in Hout_r.
Qed.

(** A pinned item is not removed: [removeItem] on it never goes through
    and writes nothing; when the item is read, the answer is the
    validation error. *)
Theorem pinned_item_is_not_removed tripId itemId changedBy item (w w' : world tables) r :
  removeItem tripId itemId changedBy w = (r, w') ->
  List.NoDup (List.map Item.id (itinerary_items (db w))) ->
  In item (itinerary_items (db w)) -> Item.id item = itemId -> Item.trip_id item = tripId ->
  Item.is_pinned item = true ->
  db w' = db w
  /\ (r = Err (ValidationError "Cannot remove pinned item. Unpin it first.")
      \/ exists e, getItemById itemId tripId w = (Err e, w') /\ r = Err e).
Proof.
  intros H Hn Hin Hid Htrip Hpin. unfold removeItem in H.
  apply bind_inv in H as [(found & w1 & Hfound & H) | (e & Hfound & ->)].
  - apply getItemById_found in Hfound as (Hfin & Hfid & Hftrip & Hd1).
    assert (found = item) as -> by (apply (same_id_same_row _ _ _ Hn Hfin Hin); congruence).
    rewrite Hpin in H. inversion H; subst. auto.
  - split; [| eauto]. symmetry. exact (getItemById_reads _ _ _ _ _ Hfound).
Qed.

End ReflowFacts.

Module ReorderFacts.
Import Db Spec DbFacts Plan PlanFacts ContainerFacts GenerationFacts VersionFacts ReadFacts.
Import ItineraryEditorService ReflowFacts.

(** A list in weak order of its keys that is a permutation of one in strict
    order is that list. *)
Lemma sorted_permutation_unique {A} (key : A -> Z) (l' : list A) :
  forall l,
    Permutation l l' ->
    StronglySorted (fun a b => key a <= key b) l ->
    StronglySorted (fun a b => key a < key b) l' ->
    l = l'.
Proof.
  induction l' as [| a t IH]; intros l Hp Hl Hl'.
  - apply Permutation_sym, Permutation_nil in Hp. exact Hp.
  - destruct l as [| x r]; [apply Permutation_nil in Hp; discriminate Hp |].
    inversion Hl as [| ? ? Hr Hx]; subst. inversion Hl' as [| ? ? Ht Ha]; subst.
    assert (x = a) as ->.
    { assert (Hxin : In x (a :: t)) by (apply (Permutation_in _ Hp); now left).
      assert (Hain : In a (x :: r)) by (apply (Permutation_in _ (Permutation_sym Hp)); now left).
      destruct Hxin as [E | Hxt]; [now symmetry |].
      destruct Hain as [E | Har]; [exact E |].
      rewrite List.Forall_forall in Hx, Ha.
      specialize (Hx a Har). specialize (Ha x Hxt). lia. }
    f_equal. apply IH; [now apply Permutation_cons_inv in Hp | exact Hr | exact Ht].
Qed.

Lemma order_only_fields f row :
  changes_order_only f ->
  Item.id (f row) = Item.id row /\ Item.trip_id (f row) = Item.trip_id row
  /\ Item.day (f row) = Item.day row /\ Item.is_pinned (f row) = Item.is_pinned row.
Proof.
  intros Hf. specialize (Hf row). unfold unordered in Hf.
  repeat split.
  - exact (f_equal Item.id Hf).
  - exact (f_equal Item.trip_id Hf).
  - exact (f_equal Item.day Hf).
  - exact (f_equal Item.is_pinned Hf).
Qed.

Lemma set_orders_order_only tripId positions : changes_order_only (set_orders tripId positions).
Proof.
  induction positions as [| [i x] rest IH]; intros row; cbn [set_orders]; [reflexivity |].
  rewrite IH. destruct (_ && _); reflexivity.
Qed.

Lemma set_orders_other tripId positions :
  forall row, ~ In (Item.id row) (List.map snd positions) -> set_orders tripId positions row = row.
Proof.
  induction positions as [| [i x] rest IH]; intros row Hnot; cbn [set_orders]; [reflexivity |].
  simpl in Hnot. destruct (String.eqb_spec (Item.id row) x) as [E | _].
  - contradict Hnot. left. now symmetry.
  - simpl. apply IH. intros Hin. apply Hnot. now right.
Qed.

(** A row of the trip whose id is listed once gets the position listed
    with it. *)
Lemma set_orders_listed tripId positions :
  forall row,
    Item.trip_id row = tripId ->
    List.NoDup (List.map snd positions) -> In (Item.id row) (List.map snd positions) ->
    In (Item.order (set_orders tripId positions row), Item.id row) positions.
Proof.
  induction positions as [| [i x] rest IH]; intros row Htrip Hn Hin; [contradiction |].
  simpl in Hn, Hin. inversion Hn as [| ? ? Hnot Hn']; subst. cbn [set_orders].
  rewrite String.eqb_refl, andb_true_r.
  destruct (String.eqb_spec (Item.id row) x) as [E | Hne].
  - left. rewrite set_orders_other by (simpl; now rewrite E). simpl. now rewrite E.
  - right. destruct Hin as [E | Hin]; [now contradict Hne |]. now apply IH.
Qed.

(** The loop of updates of [reorderItems]. *)
Lemma order_updates tripId positions :
  forall (w w' : world tables) u,
    for_each positions (fun entry : Z * string =>
      let '(i, itemId) := entry in
      query (update_items (fun r => String.eqb (Item.id r) itemId
                                    && String.eqb (Item.trip_id r) tripId)
               (Item.set_order i))) w = (Ok u, w') ->
    db w' = set_items (List.map (set_orders tripId positions)) (db w).
Proof.
  induction positions as [| [i x] rest IH]; intros w w' u H.
  - inversion H; subst. rewrite <- (set_items_id (db w')) at 1.
    apply set_items_ext. intros rows. simpl. now rewrite List.map_id.
  - cbn [for_each] in H. apply bind_ok in H as (u1 & w1 & Hq & H).
    apply query_ok in Hq as (Hq & _). injection Hq as _ Hd1.
    rewrite (IH _ _ _ H), <- Hd1, set_items_twice.
    apply set_items_ext. intros rows. rewrite List.map_map. reflexivity.
Qed.

Lemma filter_same_length {A} (p : A -> bool) l :
  length (List.filter p l) = length l -> List.filter p l = l.
Proof.
  induction l as [| x l IH]; simpl; [reflexivity |].
  destruct (p x); simpl; intros H.
  - f_equal. apply IH. lia.
  - pose proof (List.filter_length_le p l). lia.
Qed.

Lemma reflow_policy_ids items :
  forall cursor,
    List.map Item.id (reflow_policy items cursor) = List.map Item.id items
    /\ List.map Item.order (reflow_policy items cursor) = List.map Item.order items.
Proof.
  induction items as [| item rest IH]; intros cursor; [split; reflexivity |].
  cbn [reflow_policy].
  destruct (Item.is_pinned item && negb (String.eqb (Item.start_time item) cursor)); simpl.
  - destruct (IH (time_max cursor (Item.end_time item))) as (-> & ->). split; reflexivity.
  - destruct (IH (TimeOfDay.addMinutes cursor (Item.duration_minutes item))) as (-> & ->).
    split; reflexivity.
Qed.

(** Items none of which is pinned are on the schedule once it is given to
    them. *)
Lemma reflow_policy_settled items :
  Forall unpinned items ->
  forall cursor, reflow_policy (reflow_policy items cursor) cursor = reflow_policy items cursor.
Proof.
  induction 1 as [| item rest Hitem Hrest IH]; intros cursor; [reflexivity |].
  cbn [reflow_policy]. unfold unpinned in Hitem. rewrite Hitem. simpl.
  rewrite Hitem. simpl. now rewrite IH.
Qed.


Lemma filter_andb {A} (p q : A -> bool) l :
  List.filter (fun x => p x && q x) l = List.filter q (List.filter p l).
Proof.
  induction l as [| x l IH]; simpl; [reflexivity |].
  destruct (p x); simpl; [destruct (q x); now rewrite IH | exact IH].
Qed.

Lemma combine_parts {A B} (l : list A) :
  forall l' : list B, length l = length l' ->
    List.map fst (combine l l') = l /\ List.map snd (combine l l') = l'.
Proof.
  induction l as [| x l IH]; intros [| y l'] H; try discriminate H; [split; reflexivity |].
  simpl. destruct (IH l') as (-> & ->); [simpl in H; lia | split; reflexivity].
Qed.

Lemma seqZ_rising len : forall a, StronglySorted Z.lt (seqZ a (Z.of_nat len)).
Proof.
  induction len as [| len IH]; intros a.
  - constructor.
  - rewrite seqZ_cons by lia. replace (Z.pred (Z.of_nat (S len))) with (Z.of_nat len) by lia.
    constructor; [apply IH |].
    apply List.Forall_forall. intros x Hx. apply list_elem_of_In, elem_of_seqZ in Hx. lia.
Qed.

(** [reorderItems] with the ids of all the items of a day none of which is
    pinned, when it goes through: the items come back in the order asked
    for, at the positions 0, 1, ..., and on the schedule of the policy from
    the start of the daily window; they are the day as it is stored, and no
    row outside the day has changed. *)
Theorem reorder_gives_the_order_asked_for tripId day itemIds preferences
    (w w' : world tables) items :
  reorderItems tripId day itemIds w = (Ok items, w') ->
  trip_preferences (db w) !! tripId = Some preferences ->
  List.NoDup (List.map Item.id (itinerary_items (db w))) ->
  length (select_day_items tripId day (db w)) = length itemIds ->
  Forall unpinned (select_day_items tripId day (db w)) ->
  List.map Item.id items = itemIds
  /\ List.map Item.order items = seqZ 0 (Z.of_nat (length itemIds))
  /\ reflow_policy items (Prefs.daily_time_window_start preferences) = items
  /\ select_day_items tripId day (db w') = items
  /\ outside_day tripId day (db w') = outside_day tripId day (db w).
Proof.
  intros H Hprefs Hn Hlen Hun. unfold reorderItems in H.
  apply bind_ok in H as (listed & w0 & Hq & H).
  apply (query_read_ok (fun d => select_listed tripId day itemIds d)) in Hq as (-> & Hd0).
  destruct (Nat.eqb_spec (length (select_listed tripId day itemIds (db w))) (length itemIds))
    as [Hlisted | _]; [| discriminate H].
  simpl in H.
  set (rows := itinerary_items (db w)) in *.
  set (F := List.filter (in_day tripId day) rows).
  assert (HF : Permutation (select_day_items tripId day (db w)) F) by apply sort_by_perm.
  assert (Hall : List.filter (fun r => existsb (String.eqb (Item.id r)) itemIds) F = F).
  { apply filter_same_length. rewrite <- (Permutation_length HF), Hlen, <- Hlisted.
    unfold select_listed, F. now rewrite <- filter_andb. }
  assert (Hlistedall : forall r, In r F -> In (Item.id r) itemIds).
  { intros r Hr. rewrite <- Hall in Hr. apply filter_In in Hr as (_ & Hr).
    apply existsb_exists in Hr as (x & Hx & E). apply String.eqb_eq in E. now rewrite E. }
  assert (HFids : List.NoDup (List.map Item.id F)) by now apply nodup_ids_filter.
  assert (HFlen : length (List.map Item.id F) = length itemIds)
    by (now rewrite length_map, <- (Permutation_length HF)).
  assert (Hincl : incl (List.map Item.id F) itemIds).
  { intros x Hx. apply in_map_iff in Hx as (r & <- & Hr). now apply Hlistedall. }
  assert (Hids : List.NoDup itemIds) by (apply (NoDup_incl_NoDup HFids); [lia | exact Hincl]).
  assert (Hback : incl itemIds (List.map Item.id F))
    by (apply (NoDup_length_incl HFids); [lia | exact Hincl]).
  set (positions := combine (seqZ 0 (Z.of_nat (length itemIds))) itemIds) in *.
  destruct (combine_parts (seqZ 0 (Z.of_nat (length itemIds))) itemIds) as (Hfst & Hsnd).
  { rewrite length_seqZ. lia. }
  fold positions in Hfst, Hsnd.
  apply bind_ok in H as (u1 & w1 & Hloop & H).
  apply order_updates in Hloop. rewrite Hd0 in Hloop.
  set (G := set_orders tripId positions) in *.
  assert (HG : changes_order_only G) by apply set_orders_order_only.
  assert (HGday : forall x, in_day tripId day (G x) = in_day tripId day x).
  { intros x. unfold in_day. destruct (order_only_fields G x HG) as (_ & -> & -> & _).
    reflexivity. }
  assert (HGids : forall l, List.map Item.id (List.map G l) = List.map Item.id l).
  { intros l. rewrite List.map_map. apply List.map_ext. intros r.
    now destruct (order_only_fields G r HG) as (-> & _). }
  set (S := select_day_items tripId day (db w1)).
  assert (HS : S = sort_by by_order (List.map G F)).
  { unfold S, select_day_items. rewrite Hloop. simpl.
    fold (in_day tripId day). now rewrite filter_map_commute by exact HGday. }
  assert (HSperm : Permutation S (List.map G F)) by (rewrite HS; apply sort_by_perm).
  assert (HSun : Forall unpinned S).
  { apply List.Forall_forall. intros x Hx. apply (Permutation_in _ HSperm) in Hx.
    apply in_map_iff in Hx as (r & <- & Hr). unfold unpinned.
    destruct (order_only_fields G r HG) as (_ & _ & _ & ->).
    rewrite List.Forall_forall in Hun. apply Hun.
    now apply (Permutation_in _ (Permutation_sym HF)). }
  apply bind_ok in H as (u2 & w2 & Hre & H).
  apply (recalculateDayTimes_unpinned _ _ preferences) in Hre as (_ & Hday & Hout).
  2: { rewrite Hloop. exact Hprefs. }
  2: { rewrite Hloop. simpl. now rewrite HGids. }
  2: { exact HSun. }
  fold S in Hday.
  apply bind_ok in H as (u3 & w3 & Hsnap & H).
  apply createVersionSnapshot_same_items in Hsnap. unfold same_items in Hsnap.
  apply (query_read_ok (fun d => select_day_items tripId day d)) in H as (-> & Hd4).
  assert (Hitems : select_day_items tripId day (db w3)
                   = reflow_policy S (Prefs.daily_time_window_start preferences)).
  { rewrite <- Hday. unfold select_day_items. now rewrite Hsnap. }
  (* the positions and ids of the day after the updates *)
  set (P := List.map (fun s => (Item.order s, Item.id s)) S).
  assert (HP : P = positions).
  { apply (sorted_permutation_unique fst).
    - apply NoDup_Permutation_bis.
      + apply (NoDup_map_inv snd). unfold P. rewrite List.map_map. simpl.
        eapply Permutation_NoDup; [apply Permutation_map, Permutation_sym, HSperm |].
        now rewrite HGids.
      + unfold P, positions. rewrite length_map, length_combine, length_seqZ.
        rewrite (Permutation_length HSperm), length_map.
        rewrite length_map in HFlen. lia.
      + intros p Hp. apply in_map_iff in Hp as (s & <- & Hs).
        apply (Permutation_in _ HSperm) in Hs. apply in_map_iff in Hs as (r & <- & Hr).
        destruct (order_only_fields G r HG) as (-> & _).
        apply set_orders_listed; rewrite ?Hsnd.
        * apply filter_In in Hr as (_ & Hr). unfold in_day in Hr.
          apply andb_prop in Hr as (Hr & _). now apply String.eqb_eq in Hr.
        * exact Hids.
        * now apply Hlistedall.
    - unfold P. apply strongly_sorted_map. simpl.
      eapply strongly_sorted_impl;
        [| rewrite HS; exact (sort_by_sorted by_order by_order_total by_order_trans _)].
      intros a b. unfold by_order. lia.
    - apply (strongly_sorted_map fst Z.lt). rewrite Hfst. apply seqZ_rising. }
  destruct (reflow_policy_ids S (Prefs.daily_time_window_start preferences)) as (Eid & Eord).
  rewrite Hitems. repeat split.
  - rewrite Eid, <- Hsnd, <- HP. unfold P. now rewrite List.map_map.
  - rewrite Eord, <- Hfst, <- HP. unfold P. now rewrite List.map_map.
  - now apply reflow_policy_settled.
  - rewrite Hd4. exact Hitems.
  - unfold outside_day in *. rewrite Hd4, Hsnap, Hout, Hloop. simpl.
    rewrite filter_map_commute by (intros x; now rewrite HGday).
    fold rows. rewrite <- (List.map_id (List.filter _ rows)) at 2.
    apply List.map_ext_in. intros r Hr. apply filter_In in Hr as (Hr & Houtr).
    apply set_orders_other. rewrite Hsnd. intros Hin.
    apply Hback in Hin. apply in_map_iff in Hin as (x & E & Hx).
    pose proof Hx as Hx'. apply filter_In in Hx' as (Hxrows & Hxday).
    rewrite (same_id_same_row _ x r Hn Hxrows Hr E) in Hxday. now rewrite Hxday in Houtr.
Qed.

End ReorderFacts.

Module PinnedTimeFacts.
Import Db Spec DbFacts Plan PlanFacts ContainerFacts GenerationFacts VersionFacts ReadFacts.
Import ItineraryEditorService ReflowFacts.

(** The re-flow changes times and nothing else, pinned items or not. *)
Lemma reflow_ids items :
  forall cursor (w w' : world tables) r,
    reflow items cursor w = (r, w') ->
    List.map Item.id (itinerary_items (db w')) = List.map Item.id (itinerary_items (db w)).
Proof.
  induction items as [| item rest IH]; intros cursor w w' r H; cbn [reflow] in H.
  - inversion H. reflexivity.
  - destruct (Item.is_pinned item && negb (String.eqb (Item.start_time item) cursor));
      [now apply IH in H |].
    apply bind_inv in H as [(u1 & w1 & Hq & H) | (e & Hq & _)].
    + apply query_ok in Hq as (Hq & _). injection Hq as _ Hd1.
      rewrite (IH _ _ _ _ H), <- Hd1. simpl. apply nodup_ids_retimed, update_times_only.
    + apply query_err in Hq. now rewrite Hq.
Qed.

(** A pinned row whose end is its start plus its duration is left as it is
    by the re-flow: when its turn comes it is skipped, or it is given the
    times it has. *)
Lemma reflow_keeps_pinned_row items :
  forall cursor (w w' : world tables) u x,
    reflow items cursor w = (Ok u, w') ->
    (forall item, In item items -> Item.id item = Item.id x -> item = x) ->
    Item.is_pinned x = true ->
    Item.end_time x = TimeOfDay.addMinutes (Item.start_time x) (Item.duration_minutes x) ->
    In x (itinerary_items (db w)) -> In x (itinerary_items (db w')).
Proof.
  induction items as [| item rest IH]; intros cursor w w' u x H Hsame Hpin Hend Hin;
    cbn [reflow] in H.
  - inversion H; subst. exact Hin.
  - assert (Hrest : forall it, In it rest -> Item.id it = Item.id x -> it = x)
      by (intros it Hit; apply Hsame; now right).
    destruct (Item.is_pinned item && negb (String.eqb (Item.start_time item) cursor)) eqn:Eskip.
    + now apply (IH _ _ _ _ x H).
    + apply bind_ok in H as (u1 & w1 & Hq & H).
      apply query_ok in Hq as (Hq & _). injection Hq as _ Hd1.
      apply (IH _ _ _ _ x H Hrest Hpin Hend). rewrite <- Hd1. simpl.
      apply in_map_iff. exists x. split; [| exact Hin].
      destruct (String.eqb_spec (Item.id x) (Item.id item)) as [E | _]; [| reflexivity].
      rewrite (Hsame item (or_introl eq_refl) (eq_sym E)) in Eskip |- *.
      rewrite Hpin in Eskip. simpl in Eskip. apply negb_false_iff, String.eqb_eq in Eskip.
      rewrite <- Eskip, <- Hend. now destruct x.
Qed.

(** [setStartTime] on a pinned item, when it goes through: the item
    returned starts at the time asked for and ends its duration later,
    whatever the rest of the day is. *)
Theorem start_time_of_a_pinned_item_is_kept tripId itemId startTime changedBy item
    (w w' : world tables) returned :
  setStartTime tripId itemId startTime changedBy w = (Ok returned, w') ->
  List.NoDup (List.map Item.id (itinerary_items (db w))) ->
  In item (itinerary_items (db w)) -> Item.id item = itemId -> Item.trip_id item = tripId ->
  Item.is_pinned item = true ->
  returned = Item.set_times startTime
               (TimeOfDay.addMinutes startTime (Item.duration_minutes item)) item
  /\ In returned (itinerary_items (db w')).
Proof.
  intros H Hn Hin Hid Htrip Hpin. unfold setStartTime in H.
  destruct (negb (timeRegex_test startTime)); [discriminate H |].
  apply bind_ok in H as (found & w1 & Hfound & H).
  apply getItemById_found in Hfound as (Hfin & Hfid & Hftrip & Hd1).
  assert (found = item) as -> by (apply (same_id_same_row _ _ _ Hn Hfin Hin); congruence).
  apply bind_ok in H as (u2 & w2 & Hup & H).
  apply query_ok in Hup as (Hup & _). injection Hup as _ Hd2. rewrite Hd1 in Hd2.
  set (x := Item.set_times startTime
              (TimeOfDay.addMinutes startTime (Item.duration_minutes item)) item).
  assert (Hids2 : List.map Item.id (itinerary_items (db w2))
                  = List.map Item.id (itinerary_items (db w))).
  { rewrite <- Hd2. simpl. apply nodup_ids_retimed, update_times_only. }
  assert (Hx2 : In x (itinerary_items (db w2))).
  { rewrite <- Hd2. simpl. apply in_map_iff. exists item. split; [| exact Hin].
    now rewrite Hid, Htrip, !String.eqb_refl. }
  apply bind_ok in H as (u3 & w3 & Hre & H).
  unfold recalculateDayTimes in Hre.
  apply bind_ok in Hre as (items & w4 & Hitems & Hre).
  apply (query_read_ok (fun d => select_day_items tripId (Item.day item) d)) in Hitems
    as (-> & Hd4).
  apply bind_ok in Hre as (tp & w5 & Htp & Hre).
  pose proof (getTripWithPreferences_reads _ _ _ _ _ _ Htp) as Hd5.
  pose proof (reflow_ids _ _ _ _ _ Hre) as Hids3.
  apply (reflow_keeps_pinned_row _ _ _ _ _ x) in Hre; try reflexivity; try exact Hpin.
  2: { intros it Hit E. apply day_items_in in Hit as (Hit & _).
       apply (same_id_same_row (itinerary_items (db w2))); try assumption.
       now rewrite Hids2. }
  2: { now rewrite <- Hd5, Hd4. }
  apply bind_ok in H as (u6 & w6 & Hsnap & H).
  apply createVersionSnapshot_same_items in Hsnap. unfold same_items in Hsnap.
  apply getItemById_found in H as (Hrin & Hrid & Hrtrip & Hd7).
  assert (Hrows : itinerary_items (db w') = itinerary_items (db w3)) by congruence.
  assert (returned = x) as ->.
  { apply (same_id_same_row (itinerary_items (db w3))).
    - rewrite Hids3, <- Hd5, Hd4, Hids2. exact Hn.
    - now rewrite <- Hsnap.
    - exact Hre.
    - simpl. congruence. }
  split; [reflexivity |]. now rewrite Hrows.
Qed.

End PinnedTimeFacts.

Module OutcomeChecks.
Import RunTactics.
Import Db Spec DbFacts Plan PlanFacts ItineraryGeneratorService ItineraryGeneration.
Import DistributionFacts ReadFacts OutcomeFacts.
Import GenerationScenario ReplanScenario EditorScenario PinScenario RollbackScenario FreeDayScenario.

(** Three POIs over two days: the first and the third on day 1. *)
Lemma distribution_keeps_every_poi_witness :
  exists n, Some 2 = Some n /\ 0 <= n
            /\ length [[poi_A; poi_A]; [poi_B]] = Z.to_nat n
            /\ Permutation (concat [[poi_A; poi_A]; [poi_B]]) [poi_A; poi_B; poi_A].
Proof.
  apply (distribution_keeps_every_poi [poi_A; poi_B; poi_A] (Some 2)
           (healthy tables_march) (healthy tables_march)).
  vm_compute. reflexivity.
Defined.

Lemma itinerary_read_is_the_trip_rows_witness :
  exists itinerary,
    getItineraryByTripId "trip-1" (healthy tables_free) = (Ok (Some itinerary), healthy tables_free)
    /\ items_of (Itinerary.days itinerary) = select_trip_items "trip-1" tables_free
    /\ StronglySorted (fun a b => Day.day a < Day.day b) (Itinerary.days itinerary)
    /\ Forall (fun day => Day.items day <> []
                          /\ Forall (fun item => Item.day item = Day.day day) (Day.items day))
         (Itinerary.days itinerary).
Proof.
  eexists. split; [vm_compute; reflexivity |].
  apply (itinerary_read_is_the_trip_rows "trip-1" (healthy tables_free) (healthy tables_free)).
  vm_compute. reflexivity.
Defined.

Example free_days_read :
  option_map (fun itinerary => List.map day_summary (Itinerary.days itinerary))
    match fst (getItineraryByTripId "trip-1" (healthy tables_free)) with
    | Ok found => found
    | Err _ => None
    end
  = Some [(1, [("X", "09:00", "10:00"); ("Z", "12:00", "12:30")], 0%Q);
          (2, [("Temple", "12:00", "13:00")], 0%Q)].
Proof. vm_compute. reflexivity. Qed.

Lemma generation_without_known_poi_is_refused_witness :
  db (snd (generateItinerary flat "trip-1" request_unknown None None (healthy tables_march)))
  = tables_march
  /\ fst (generateItinerary flat "trip-1" request_unknown None None (healthy tables_march))
     = Err (ValidationError "At least one valid POI is required").
Proof.
  destruct (generateItinerary flat "trip-1" request_unknown None None (healthy tables_march))
    as [r w'] eqn:E.
  destruct (generation_without_known_poi_is_refused flat "trip-1" request_unknown None None
              (healthy tables_march) w' r) as (Hd & [Hr | (e & He & _)]).
  - intros poiId [<- | [<- | []]]; vm_compute; reflexivity.
  - exact E.
  - split; [exact Hd | exact Hr].
  - not_an_error He.
Defined.

(** The plan at version 2 generated again in full: it is at version 1
    afterwards, and the snapshot written says so. *)
Lemma generation_replaces_the_plan_witness :
  exists result,
    fst regenerated = Ok result
    /\ trip_rows "trip-1" (db (snd regenerated))
       = List.map (saved_row "trip-1") (items_of (days result))
    /\ other_rows "trip-1" (db (snd regenerated)) = other_rows "trip-1" tables_version_2
    /\ (exists n, List.map Day.day (days result) = seqZ 1 n)
    /\ Spec.current_version "trip-1" (db (snd regenerated)) = Some 1
    /\ exists snap,
         itinerary_versions (db (snd regenerated))
         = (itinerary_versions tables_version_2 ++ [snap])%list
         /\ Version.trip_id snap = "trip-1"
         /\ Version.version snap = 1
         /\ Version.change_type snap = "generate".
Proof.
  unfold regenerated.
  destruct (generateItinerary flat "trip-1" request_AB None None world_version_2)
    as [[result | e] w'] eqn:E.
  - exists result. split; [reflexivity |].
    exact (generation_replaces_the_plan flat "trip-1" request_AB None None
             world_version_2 w' result E).
  - not_an_error E.
Defined.

Example regenerated_version :
  Spec.current_version "trip-1" tables_version_2 = Some 2
  /\ Spec.current_version "trip-1" (db (snd regenerated)) = Some 1.
Proof. split; vm_compute; reflexivity. Qed.

End OutcomeChecks.

Module FreeDayChecks.
Import RunTactics.
Import Db Spec DbFacts Plan PlanFacts ItineraryEditorService.
Import ReflowFacts ReorderFacts PinnedTimeFacts.
Import GenerationScenario ReplanScenario EditorScenario FreeDayScenario.

Ltac distinct_ids := repeat constructor; simpl; intuition discriminate.

Ltac all_unpinned := vm_compute; repeat constructor.

(** Z is asked to start at 15:00; it starts at 11:00, after X. *)
Lemma start_time_set_on_an_unpinned_day_is_not_kept_witness :
  exists returned,
    fst (setStartTime "trip-1" "item-z" "15:00" None (healthy tables_free)) = Ok returned
    /\ select_day_items "trip-1" (Item.day free_Z)
         (db (snd (setStartTime "trip-1" "item-z" "15:00" None (healthy tables_free))))
       = reflow_policy (select_day_items "trip-1" (Item.day free_Z) tables_free)
           (Prefs.daily_time_window_start prefs_march)
    /\ In returned
         (select_day_items "trip-1" (Item.day free_Z)
            (db (snd (setStartTime "trip-1" "item-z" "15:00" None (healthy tables_free)))))
    /\ Item.id returned = "item-z"
    /\ outside_day "trip-1" (Item.day free_Z)
         (db (snd (setStartTime "trip-1" "item-z" "15:00" None (healthy tables_free))))
       = outside_day "trip-1" (Item.day free_Z) tables_free.
Proof.
  destruct (setStartTime "trip-1" "item-z" "15:00" None (healthy tables_free))
    as [[returned | e] w'] eqn:E.
  - exists returned. split; [reflexivity |].
    apply (start_time_set_on_an_unpinned_day_is_not_kept "trip-1" "item-z" "15:00" None
             prefs_march free_Z (healthy tables_free) w' returned E).
    + vm_compute. reflexivity.
    + distinct_ids.
    + right. left. reflexivity.
    + reflexivity.
    + reflexivity.
    + all_unpinned.
  - not_an_error E.
Defined.

Example start_time_asked_for_is_dropped :
  first_day_after (setStartTime "trip-1" "item-z" "15:00" None (healthy tables_free))
  = [("X", "10:00", "11:00"); ("Z", "11:00", "11:30")].
Proof. vm_compute. reflexivity. Qed.

(** The pinned temple is asked to start at 15:00, and does. *)
Lemma start_time_of_a_pinned_item_is_kept_witness :
  exists returned,
    fst (setStartTime "trip-1" "item-temple" "15:00" None (healthy tables_free)) = Ok returned
    /\ returned = Item.set_times "15:00"
                    (TimeOfDay.addMinutes "15:00" (Item.duration_minutes temple)) temple
    /\ In returned
         (itinerary_items
            (db (snd (setStartTime "trip-1" "item-temple" "15:00" None (healthy tables_free))))).
Proof.
  destruct (setStartTime "trip-1" "item-temple" "15:00" None (healthy tables_free))
    as [[returned | e] w'] eqn:E.
  - exists returned. split; [reflexivity |].
    apply (start_time_of_a_pinned_item_is_kept "trip-1" "item-temple" "15:00" None temple
             (healthy tables_free) w' returned E).
    + distinct_ids.
    + right. right. left. reflexivity.
    + reflexivity.
    + reflexivity.
    + reflexivity.
  - not_an_error E.
Defined.

(** X is removed: Z moves up to the start of the window. *)
Lemma removed_item_is_gone_and_the_day_closes_ranks_witness :
  select_day_items "trip-1" (Item.day free_X)
    (db (snd (removeItem "trip-1" "item-x" None (healthy tables_free))))
  = reflow_policy
      (List.filter (fun r => negb (String.eqb (Item.id r) "item-x"))
         (select_day_items "trip-1" (Item.day free_X) tables_free))
      (Prefs.daily_time_window_start prefs_march)
  /\ ~ In "item-x"
         (List.map Item.id
            (itinerary_items (db (snd (removeItem "trip-1" "item-x" None (healthy tables_free))))))
  /\ outside_day "trip-1" (Item.day free_X)
       (db (snd (removeItem "trip-1" "item-x" None (healthy tables_free))))
     = outside_day "trip-1" (Item.day free_X) tables_free.
Proof.
  destruct (removeItem "trip-1" "item-x" None (healthy tables_free)) as [[u | e] w'] eqn:E.
  - apply (removed_item_is_gone_and_the_day_closes_ranks "trip-1" "item-x" None
             prefs_march free_X (healthy tables_free) w' u E).
    + vm_compute. reflexivity.
    + distinct_ids.
    + left. reflexivity.
    + reflexivity.
    + reflexivity.
    + all_unpinned.
  - not_an_error E.
Defined.

Example day_after_removal :
  first_day_after (removeItem "trip-1" "item-x" None (healthy tables_free))
  = [("Z", "10:00", "10:30")].
Proof. vm_compute. reflexivity. Qed.

Lemma pinned_item_is_not_removed_witness :
  db (snd (removeItem "trip-1" "item-temple" None (healthy tables_free))) = tables_free
  /\ fst (removeItem "trip-1" "item-temple" None (healthy tables_free))
     = Err (ValidationError "Cannot remove pinned item. Unpin it first.").
Proof.
  destruct (removeItem "trip-1" "item-temple" None (healthy tables_free)) as [r w'] eqn:E.
  destruct (pinned_item_is_not_removed "trip-1" "item-temple" None temple
              (healthy tables_free) w' r E) as (Hd & [Hr | (e & He & _)]).
  - distinct_ids.
  - right. right. left. reflexivity.
  - reflexivity.
  - reflexivity.
  - reflexivity.
  - split; [exact Hd | exact Hr].
  - not_an_error He.
Defined.

(** Z before X is asked for, and given. *)
Lemma reorder_gives_the_order_asked_for_witness :
  exists items,
    fst (reorderItems "trip-1" 1 ["item-z"; "item-x"] (healthy tables_free)) = Ok items
    /\ List.map Item.id items = ["item-z"; "item-x"]
    /\ List.map Item.order items = seqZ 0 (Z.of_nat (length ["item-z"; "item-x"]))
    /\ reflow_policy items (Prefs.daily_time_window_start prefs_march) = items
    /\ select_day_items "trip-1" 1
         (db (snd (reorderItems "trip-1" 1 ["item-z"; "item-x"] (healthy tables_free)))) = items
    /\ outside_day "trip-1" 1
         (db (snd (reorderItems "trip-1" 1 ["item-z"; "item-x"] (healthy tables_free))))
       = outside_day "trip-1" 1 tables_free.
Proof.
  destruct (reorderItems "trip-1" 1 ["item-z"; "item-x"] (healthy tables_free))
    as [[items | e] w'] eqn:E.
  - exists items. split; [reflexivity |].
    apply (reorder_gives_the_order_asked_for "trip-1" 1 ["item-z"; "item-x"] prefs_march
             (healthy tables_free) w' items E).
    + vm_compute. reflexivity.
    + distinct_ids.
    + vm_compute. reflexivity.
    + all_unpinned.
  - not_an_error E.
Defined.

Example day_after_reorder :
  first_day_after (reorderItems "trip-1" 1 ["item-z"; "item-x"] (healthy tables_free))
  = [("Z", "10:00", "10:30"); ("X", "10:30", "11:30")].
Proof. vm_compute. reflexivity. Qed.

End FreeDayChecks.

(** ** Pending triggers *)
Module PendingFacts.
Import Db Spec DbFacts Plan PlanFacts ReadFacts ReflowFacts EventMonitorService.

Lemma by_priority_desc_total a b : by_priority_desc a b = false -> by_priority_desc b a = true.
Proof.
  unfold by_priority_desc. destruct (Trigger.priority a), (Trigger.priority b);
    vm_compute; congruence.
Qed.

Lemma by_priority_desc_trans a b c :
  by_priority_desc a b = true -> by_priority_desc b c = true -> by_priority_desc a c = true.
Proof.
  unfold by_priority_desc.
  destruct (Trigger.priority a), (Trigger.priority b), (Trigger.priority c);
    vm_compute; congruence.
Qed.

(** An element goes in after those it does not precede and before those
    it precedes. *)
Lemma insert_sorted_between {A} (le : A -> A -> bool) x front back :
  Forall (fun y => le x y = false) front -> Forall (fun y => le x y = true) back ->
  insert_sorted le x (front ++ back) = (front ++ x :: back)%list.
Proof.
  intros Hfront Hback. induction Hfront as [| y front Hy _ IH]; simpl.
  - now apply insert_sorted_first.
  - now rewrite Hy, IH.
Qed.

(** The sort by the text of the priority, descending: medium, then low,
    then high, each group in the order it had. *)
Lemma sort_by_priority rows :
  sort_by by_priority_desc rows
  = (of_priority medium rows ++ of_priority low rows ++ of_priority high rows)%list.
Proof.
  induction rows as [| x rows IH]; [reflexivity |].
  change (sort_by by_priority_desc (x :: rows))
    with (insert_sorted by_priority_desc x (sort_by by_priority_desc rows)).
  rewrite IH. clear IH.
  assert (Hcmp : forall q v,
            (forall y, Trigger.priority y = q -> by_priority_desc x y = v) ->
            Forall (fun y => by_priority_desc x y = v) (of_priority q rows)).
  { intros q v Hv. apply List.Forall_forall. intros y Hy. apply filter_In in Hy as (_ & Hy).
    apply Hv. destruct (Trigger.priority y), q; try discriminate Hy; reflexivity. }
  unfold of_priority at 4 5 6. simpl.
  destruct (Trigger.priority x) eqn:Ex; simpl.
  - rewrite (insert_sorted_between by_priority_desc x (of_priority medium rows)
               (of_priority low rows ++ of_priority high rows)); [reflexivity | |].
    + apply Hcmp. intros y Hy. unfold by_priority_desc. now rewrite Ex, Hy.
    + apply List.Forall_app. split; apply Hcmp; intros y Hy; unfold by_priority_desc;
        now rewrite Ex, Hy.
  - apply insert_sorted_first.
    repeat (apply List.Forall_app; split); apply Hcmp; intros y Hy; unfold by_priority_desc;
      now rewrite Ex, Hy.
  - rewrite app_assoc.
    rewrite (insert_sorted_between by_priority_desc x
               (of_priority medium rows ++ of_priority low rows) (of_priority high rows)).
    + now rewrite <- app_assoc.
    + apply List.Forall_app. split; apply Hcmp; intros y Hy; unfold by_priority_desc;
        now rewrite Ex, Hy.
    + apply Hcmp. intros y Hy. unfold by_priority_desc. now rewrite Ex, Hy.
Qed.

(** The pending triggers come back with those of priority medium first,
    then those of priority low, and those of priority high last, each group
    in the order it was written: the column is a text, and the order asked
    for is the descending order of that text. *)
Theorem pending_triggers_come_medium_low_high tripId (w w' : world tables) triggers :
  getPendingReplanTriggers tripId w = (Ok triggers, w') ->
  triggers = (of_priority medium (pending tripId (db w))
              ++ of_priority low (pending tripId (db w))
              ++ of_priority high (pending tripId (db w)))%list
  /\ db w' = db w.
Proof.
  intros H. unfold getPendingReplanTriggers in H.
  apply (query_read_ok
    (fun d => sort_by by_priority_desc (List.filter (is_pending tripId) (replan_triggers d))))
    in H as (-> & Hd).
  split; [apply sort_by_priority | exact Hd].
Qed.

Lemma pending_after_mark tripId triggerId rows :
  List.filter (is_pending tripId)
    (List.map (fun r =>
       if String.eqb (Trigger.id r) triggerId
       then {| Trigger.id := Trigger.id r; Trigger.trip_id := Trigger.trip_id r;
               Trigger.event_signal_id := Trigger.event_signal_id r;
               Trigger.reason := Trigger.reason r; Trigger.priority := Trigger.priority r;
               Trigger.processed := true |}
       else r) rows)
  = List.filter (fun r => negb (String.eqb (Trigger.id r) triggerId))
      (List.filter (is_pending tripId) rows).
Proof.
  induction rows as [| r rows IH]; [reflexivity |]. simpl.
  destruct (String.eqb (Trigger.id r) triggerId) eqn:E.
  - unfold is_pending at 1. simpl. rewrite IH.
    destruct (is_pending tripId r); simpl; [now rewrite E | reflexivity].
  - rewrite IH. destruct (is_pending tripId r); simpl; [now rewrite E | reflexivity].
Qed.

(** A trigger marked as processed is no longer pending, and the others are
    where they were: the pending triggers read after [markTriggerProcessed]
    are those read before it without the trigger marked. *)
Theorem processed_trigger_is_no_longer_pending tripId triggerId
    (w w0 w1 w2 : world tables) before u after :
  getPendingReplanTriggers tripId w = (Ok before, w0) ->
  markTriggerProcessed triggerId w = (Ok u, w1) ->
  getPendingReplanTriggers tripId w1 = (Ok after, w2) ->
  after = List.filter (fun r => negb (String.eqb (Trigger.id r) triggerId)) before.
Proof.
  intros Hbefore Hmark Hafter. unfold getPendingReplanTriggers in *.
  apply (query_read_ok
    (fun d => sort_by by_priority_desc (List.filter (is_pending tripId) (replan_triggers d))))
    in Hbefore as (-> & _).
  apply (query_read_ok
    (fun d => sort_by by_priority_desc (List.filter (is_pending tripId) (replan_triggers d))))
    in Hafter as (-> & _).
  unfold markTriggerProcessed in Hmark. apply query_ok in Hmark as (Hmark & _).
  injection Hmark as _ Hd1. rewrite <- Hd1. simpl.
  rewrite pending_after_mark.
  apply sort_by_filter; [apply by_priority_desc_total | apply by_priority_desc_trans].
Qed.

End PendingFacts.

(** ** Pins *)
Module PinFacts.
Import Db Spec DbFacts Plan PlanFacts GenerationFacts ReadFacts ReflowFacts.
Import ItineraryEditorService.

#[local] Existing Instance same_items_refl.
#[local] Existing Instance same_items_trans.

(** What [togglePin] makes of a row. *)
Lemma togglePin_rows tripId itemId pinned changedBy (w w' : world tables) r :
  togglePin tripId itemId pinned changedBy w = (r, w') ->
  itinerary_items (db w') = itinerary_items (db w)
  \/ itinerary_items (db w') = List.map (pin_row tripId itemId pinned) (itinerary_items (db w)).
Proof.
  intros H. unfold togglePin in H.
  apply bind_inv in H as [(u1 & w1 & Hup & H) | (e & Hup & _)].
  2: { left. apply query_err in Hup. now rewrite Hup. }
  apply query_ok in Hup as (Hup & _). injection Hup as _ Hd1.
  right.
  assert (Hp : preserves same_items
            (createVersionSnapshot tripId (if pinned then "pin" else "unpin") changedBy ;;;
             getItemById itemId tripId)).
  { apply preserves_bind; [typeclasses eauto | apply createVersionSnapshot_same_items |].
    intros _. apply (reads_preserves same_items), getItemById_reads. }
  pose proof (Hp _ _ _ H) as Hsame. unfold same_items in Hsame.
  rewrite Hsame, <- Hd1. reflexivity.
Qed.

(** [togglePin] pins or unpins the named item and does nothing else to the
    items: whatever it returns, every row is as it was or has only
    [is_pinned] changed, the rows with another id or trip are as they
    were, and no time is calculated again.  When it returns an item, the
    item is the named one, pinned as asked, and it is stored. *)
Theorem pinning_changes_the_pin_only tripId itemId pinned changedBy (w w' : world tables) r :
  togglePin tripId itemId pinned changedBy w = (r, w') ->
  (itinerary_items (db w') = itinerary_items (db w)
   \/ itinerary_items (db w')
      = List.map (pin_row tripId itemId pinned) (itinerary_items (db w)))
  /\ List.map position (itinerary_items (db w')) = List.map position (itinerary_items (db w))
  /\ forall returned, r = Ok returned ->
       itinerary_items (db w')
       = List.map (pin_row tripId itemId pinned) (itinerary_items (db w))
       /\ In returned (itinerary_items (db w'))
       /\ Item.id returned = itemId /\ Item.trip_id returned = tripId
       /\ Item.is_pinned returned = pinned.
Proof.
  intros H. pose proof (togglePin_rows _ _ _ _ _ _ _ H) as Hrows.
  assert (Hpos : forall rows, List.map position (List.map (pin_row tripId itemId pinned) rows)
                              = List.map position rows).
  { intros rows. rewrite List.map_map. apply List.map_ext. intros row.
    unfold pin_row. now destruct (_ && _). }
  split; [exact Hrows |]. split.
  { destruct Hrows as [-> | ->]; [reflexivity | apply Hpos]. }
  intros returned ->. unfold togglePin in H.
  apply bind_ok in H as (u1 & w1 & Hup & H).
  apply query_ok in Hup as (Hup & _). injection Hup as _ Hd1.
  apply bind_ok in H as (u2 & w2 & Hsnap & H).
  apply createVersionSnapshot_same_items in Hsnap. unfold same_items in Hsnap.
  apply getItemById_found in H as (Hin & Hid & Htrip & Hd3).
  assert (Hall : itinerary_items (db w')
                 = List.map (pin_row tripId itemId pinned) (itinerary_items (db w))).
  { rewrite Hd3, Hsnap, <- Hd1. reflexivity. }
  split; [exact Hall |]. rewrite Hd3. repeat split; try assumption.
  rewrite Hsnap, <- Hd1 in Hin. simpl in Hin.
  apply in_map_iff in Hin as (row & <- & _). unfold pin_row in *.
  destruct (String.eqb (Item.id row) itemId && String.eqb (Item.trip_id row) tripId) eqn:E;
    [reflexivity |].
  rewrite Hid, Htrip, !String.eqb_refl in E. discriminate E.
Qed.

End PinFacts.

(** ** Snapshots and rollbacks *)
Module SnapshotFacts.
Import Db Spec DbFacts Plan PlanFacts VersionFacts ReadFacts OutcomeFacts.
Import ItineraryGeneratorService ItineraryVersionService.

(** A snapshot holds the rows of the trip as they are stored when it is
    taken, in the order of their day and position. *)
Lemma createSnapshot_days tripId changeType changedBy previousVersion (w w' : world tables) snap :
  createSnapshot tripId changeType changedBy previousVersion w = (Ok snap, w') ->
  items_of (Version.snapshot_days snap) = select_trip_items tripId (db w).
Proof.
  intros H. unfold createSnapshot in H.
  apply bind_ok in H as (found & w1 & Hg & H).
  destruct found as [itinerary |]; [| discriminate H].
  apply getItineraryByTripId_ok in Hg as (_ & row & prefs & _ & _ & _ & _ & Hdays).
  apply bind_ok in H as (versionId & w2 & _ & H).
  apply bind_ok in H as (u & w3 & _ & H). inversion H; subst; clear H. simpl.
  rewrite Hdays.
  apply days_of_rows; [now intros [k l] | now intros [k l] | apply select_trip_items_in_order].
Qed.

(** Snapshot, then rollback.  Take the snapshot written by [createSnapshot]
    at some time, and a later time at which it is stored and is the only
    snapshot of the trip with its version.  A rollback to that version
    that goes through leaves, as the rows of the trip, the rows the trip
    had when the snapshot was taken, in the order of their day and
    position (with the trip id set and an empty [poi_id] nulled), and the
    rows of the other trips as they are at the rollback. *)
Theorem rollback_restores_the_plan_of_the_snapshot tripId changeType changedBy previousVersion
    userId guestSessionId (w0 w0' w w' : world tables) snap result :
  createSnapshot tripId changeType changedBy previousVersion w0 = (Ok snap, w0') ->
  In snap (itinerary_versions (db w)) ->
  (forall row, In row (itinerary_versions (db w)) ->
               Version.trip_id row = tripId -> Version.version row = Version.version snap ->
               row = snap) ->
  rollbackToVersion tripId (Version.version snap) userId guestSessionId w = (Ok result, w') ->
  trip_rows tripId (db w')
  = List.map (restored_row tripId) (select_trip_items tripId (db w0))
  /\ other_rows tripId (db w') = other_rows tripId (db w)
  /\ Spec.current_version tripId (db w') = Some (Version.version snap).
Proof.
  intros Hsnap Hstored Honly H.
  apply createSnapshot_days in Hsnap. rewrite <- Hsnap.
  unfold rollbackToVersion in H.
  apply bind_ok in H as (target & w1 & Hv & H).
  apply getVersion_ok in Hv as (Hin & Htrip & Hver & Hd1).
  assert (target = snap) as -> by now apply Honly.
  apply bind_ok in H as (found & w2 & Hg & H).
  apply getItineraryByTripId_ok in Hg as (Hd2 & Hfound).
  destruct found as [current |]; [| discriminate H].
  destruct Hfound as (row & prefs & Hrow & _).
  destruct (Itinerary.version current <=? Version.version snap); [discriminate H |].
  apply bind_ok in H as (u3 & w3 & Hdel & H).
  apply query_ok in Hdel as (Hdel & _). injection Hdel as _ Hd3.
  apply bind_ok in H as (u4 & w4 & Hins & H).
  apply for_each_days_insert in Hins.
  apply bind_ok in H as (u5 & w5 & Hup & H).
  apply query_ok in Hup as (Hup & _). injection Hup as _ Hd5.
  apply bind_ok in H as (edit & w6 & Hedit & H).
  apply createSnapshot_ok in Hedit as (Hd6 & _).
  pose proof (getItineraryByTripId_reads _ _ _ _ H) as Hd7. simpl in Hd7.
  assert (Hitems : itinerary_items (db w') =
            (other_rows tripId (db w) ++
             List.map (restored_row tripId) (items_of (Version.snapshot_days snap)))%list).
  { rewrite <- Hd7, Hd6, <- Hd5, Hins, <- Hd3, Hd2, Hd1. reflexivity. }
  destruct (rows_split tripId (db w)
              (List.map (restored_row tripId) (items_of (Version.snapshot_days snap))))
    as (Hmine & Hothers).
  { intros x Hx. apply in_map_iff in Hx as (item & <- & _). simpl. apply String.eqb_refl. }
  repeat split.
  - unfold trip_rows. rewrite Hitems. exact Hmine.
  - unfold other_rows at 1. rewrite Hitems. exact Hothers.
  - unfold Spec.current_version. rewrite <- Hd7, Hd6, <- Hd5, Hins, <- Hd3, Hd2. simpl.
    rewrite Hrow. now rewrite lookup_insert_eq.
Qed.

End SnapshotFacts.

(** ** The version history *)
Module HistoryFacts.
Import Db Spec DbFacts Plan PlanFacts ContainerFacts ReadFacts.
Import ItineraryGeneratorService ItineraryVersionService.

Lemma by_version_desc_total a b : by_version_desc a b = false -> by_version_desc b a = true.
Proof. unfold by_version_desc. lia. Qed.

Lemma by_version_desc_trans a b c :
  by_version_desc a b = true -> by_version_desc b c = true -> by_version_desc a c = true.
Proof. unfold by_version_desc. lia. Qed.

(** The version history lists every snapshot of the trip once, those of a
    later version first; it counts them, and gives the version of the
    itinerary, 0 when there is none. *)
Theorem version_history_lists_the_snapshots tripId (w w' : world tables) history :
  getVersionHistory tripId w = (Ok history, w') ->
  Permutation (history_versions history)
    (List.filter (fun r => String.eqb (Version.trip_id r) tripId) (itinerary_versions (db w)))
  /\ StronglySorted (fun a b => Version.version b <= Version.version a)
       (history_versions history)
  /\ history_total_versions history = Z.of_nat (length (snapshot_versions tripId (db w)))
  /\ history_current_version history = default 0 (Spec.current_version tripId (db w))
  /\ db w' = db w.
Proof.
  intros H. unfold getVersionHistory in H.
  apply bind_ok in H as (rows & w1 & Hq & H).
  apply (query_read_ok
    (fun d => sort_by by_version_desc
                (List.filter (fun r => String.eqb (Version.trip_id r) tripId)
                   (itinerary_versions d)))) in Hq as (-> & Hd1).
  apply bind_ok in H as (current & w2 & Hg & H).
  apply getItineraryByTripId_ok in Hg as (Hd2 & Hfound).
  inversion H; subst; clear H. simpl.
  split; [apply sort_by_perm |]. split.
  { eapply strongly_sorted_impl;
      [| exact (sort_by_sorted by_version_desc by_version_desc_total by_version_desc_trans _)].
    intros a b. unfold by_version_desc. lia. }
  split.
  { unfold snapshot_versions. rewrite length_map.
    now rewrite (Permutation_length (sort_by_perm by_version_desc _)). }
  split; [| congruence].
  unfold Spec.current_version. rewrite Hd1 in Hfound.
  destruct current as [itinerary |].
  - destruct Hfound as (row & prefs & -> & _ & -> & _). reflexivity.
  - now rewrite Hfound.
Qed.

End HistoryFacts.

Module LastChecks.
Import RunTactics.
Import Db Spec DbFacts Plan PlanFacts.
Import ItineraryGeneratorService ItineraryVersionService ItineraryEditorService EventMonitorService.
Import PendingFacts PinFacts SnapshotFacts HistoryFacts.
Import GenerationScenario EventScenario EditorScenario RollbackScenario FreeDayScenario.
Import TriggerScenario.

(** The trigger of priority high was written first and comes back last. *)
Lemma pending_triggers_come_medium_low_high_witness :
  exists triggers,
    fst (getPendingReplanTriggers (Some "trip-1") (healthy tables_triggers)) = Ok triggers
    /\ triggers = (of_priority medium (pending (Some "trip-1") tables_triggers)
                   ++ of_priority low (pending (Some "trip-1") tables_triggers)
                   ++ of_priority high (pending (Some "trip-1") tables_triggers))%list
    /\ db (snd (getPendingReplanTriggers (Some "trip-1") (healthy tables_triggers)))
       = tables_triggers.
Proof.
  destruct (getPendingReplanTriggers (Some "trip-1") (healthy tables_triggers))
    as [[triggers | e] w'] eqn:E.
  - exists triggers. split; [reflexivity |].
    exact (pending_triggers_come_medium_low_high (Some "trip-1") (healthy tables_triggers)
             w' triggers E).
  - not_an_error E.
Defined.

Example pending_triggers_listed :
  match fst (getPendingReplanTriggers None (healthy tables_triggers)) with
  | Ok triggers => List.map Trigger.id triggers
  | Err _ => []
  end = ["trig-medium"; "trig-low"; "trig-high"].
Proof. vm_compute. reflexivity. Qed.

Lemma processed_trigger_is_no_longer_pending_witness :
  exists before after,
    fst (getPendingReplanTriggers None (healthy tables_triggers)) = Ok before
    /\ fst (getPendingReplanTriggers None
              (snd (markTriggerProcessed "trig-low" (healthy tables_triggers)))) = Ok after
    /\ after = List.filter (fun r => negb (String.eqb (Trigger.id r) "trig-low")) before.
Proof.
  destruct (getPendingReplanTriggers None (healthy tables_triggers))
    as [[before | e0] w0] eqn:E0; [| not_an_error E0].
  destruct (markTriggerProcessed "trig-low" (healthy tables_triggers))
    as [[u | e1] w1] eqn:E1; [| not_an_error E1].
  destruct (getPendingReplanTriggers None w1)
    as [[after | e2] w2] eqn:E2.
  - exists before, after. split; [reflexivity |]. split; [simpl; now rewrite E2 |].
    exact (processed_trigger_is_no_longer_pending None "trig-low" (healthy tables_triggers)
             w0 w1 w2 before u after E0 E1 E2).
  - vm_compute in E1. injection E1 as _ <-. not_an_error E2.
Defined.

(** X is pinned: it and the others stay where they were. *)
Lemma pinning_changes_the_pin_only_witness :
  exists returned,
    fst (togglePin "trip-1" "item-x" true None (healthy tables_free)) = Ok returned
    /\ itinerary_items (db (snd (togglePin "trip-1" "item-x" true None (healthy tables_free))))
       = List.map (pin_row "trip-1" "item-x" true) (itinerary_items tables_free)
    /\ In returned
         (itinerary_items (db (snd (togglePin "trip-1" "item-x" true None (healthy tables_free)))))
    /\ Item.id returned = "item-x" /\ Item.trip_id returned = "trip-1"
    /\ Item.is_pinned returned = true.
Proof.
  destruct (togglePin "trip-1" "item-x" true None (healthy tables_free))
    as [[returned | e] w'] eqn:E.
  - exists returned. split; [reflexivity |].
    destruct (pinning_changes_the_pin_only "trip-1" "item-x" true None
                (healthy tables_free) w' (Ok returned) E) as (_ & _ & Hok).
    exact (Hok returned eq_refl).
  - not_an_error E.
Defined.

(** The generated day, snapshot at version 1, then changed; the rollback
    to version 1 gives X, Y and Z back as they were. *)
Lemma rollback_restores_the_plan_of_the_snapshot_witness :
  exists snap,
    fst (createSnapshot "trip-1" "generate" None None (healthy tables_XYZ)) = Ok snap
    /\ trip_rows "trip-1" (db (snd rolled_back))
       = List.map (restored_row "trip-1") (select_trip_items "trip-1" tables_XYZ)
    /\ other_rows "trip-1" (db (snd rolled_back)) = other_rows "trip-1" tables_version_2
    /\ Spec.current_version "trip-1" (db (snd rolled_back)) = Some (Version.version snap).
Proof.
  destruct (createSnapshot "trip-1" "generate" None None (healthy tables_XYZ))
    as [[snap | e0] w0'] eqn:E0; [| not_an_error E0].
  exists snap. split; [reflexivity |].
  assert (Hversion : Version.version snap = 1).
  { pose proof E0 as E0c. vm_compute in E0c. injection E0c as <- _. reflexivity. }
  assert (Hstored : itinerary_versions tables_version_2 = [snap]).
  { pose proof E0 as E0c. vm_compute in E0c. injection E0c as <- _. vm_compute. reflexivity. }
  unfold rolled_back.
  destruct (rollbackToVersion "trip-1" 1 None None world_version_2)
    as [[result | e] w'] eqn:E; [| not_an_error E].
  rewrite <- Hversion in E.
  apply (rollback_restores_the_plan_of_the_snapshot "trip-1" "generate" None None None None
           (healthy tables_XYZ) w0' world_version_2 w' snap result E0).
  - change (In snap (itinerary_versions tables_version_2)). rewrite Hstored. now left.
  - change (forall row, In row (itinerary_versions tables_version_2) ->
                        Version.trip_id row = "trip-1" ->
                        Version.version row = Version.version snap -> row = snap).
    rewrite Hstored. intros row [<- | []] _ _. reflexivity.
  - exact E.
Defined.

Lemma version_history_lists_the_snapshots_witness :
  exists history,
    fst (getVersionHistory "trip-1" (healthy tables_after_pin_unpin)) = Ok history
    /\ Permutation (history_versions history)
         (List.filter (fun r => String.eqb (Version.trip_id r) "trip-1")
            (itinerary_versions (db (healthy tables_after_pin_unpin))))
    /\ StronglySorted (fun a b => Version.version b <= Version.version a)
         (history_versions history)
    /\ history_total_versions history
       = Z.of_nat (length (snapshot_versions "trip-1" (db (healthy tables_after_pin_unpin))))
    /\ history_current_version history
       = default 0 (Spec.current_version "trip-1" (db (healthy tables_after_pin_unpin)))
    /\ db (snd (getVersionHistory "trip-1" (healthy tables_after_pin_unpin)))
       = db (healthy tables_after_pin_unpin).
Proof.
  destruct (getVersionHistory "trip-1" (healthy tables_after_pin_unpin))
    as [[history | e] w'] eqn:E.
  - exists history. split; [reflexivity |].
    exact (version_history_lists_the_snapshots "trip-1" (healthy tables_after_pin_unpin)
             w' history E).
  - not_an_error E.
Defined.

(** Three snapshots, all of version 1: the history counts 3 at current
    version 1. *)
Example history_after_pin_unpin :
  match fst (getVersionHistory "trip-1" (healthy tables_after_pin_unpin)) with
  | Ok history => Some (history_total_versions history, history_current_version history)
  | Err _ => None
  end = Some (3, 1).
Proof. vm_compute. reflexivity. Qed.

End LastChecks.
